(** * Verification of the order-cleaning pipeline ([scripts/clean_data.py])

    A shallow embedding of [DataCleaner] and of the helper functions nested in
    its steps, followed by the properties of the cleaning pipeline.

    Modelling conventions.
    - Text is [string]; each character is an ASCII code point of a Python
      [str].  Case mapping, [str.isspace], [\s], [\d] and [\D] are the ASCII
      restrictions of the Python ones.
    - A pandas cell is [cell A]: [NaN] (missing) or [Val a].  The text, phone
      and date columns are object columns holding text; the quantity and price
      columns hold text or numbers ([scalar]).
    - A Python [float] is [cell number]: [NaN] for nan, otherwise an exact
      rational or a signed infinity.  The binary rounding and the finite
      range of a double are abstracted away: a decimal literal reads as the
      exact number, [round(x, 2)] rounds the exact value to hundredths (ties
      to even), and [int] and [float] cells holding the same number are
      identified.
    - [Series.astype(str)] turns a missing cell into the text [nan]
      (object-dtype behaviour of pandas 1.x and 2.x).
    - [datetime.now()] is read once per run and passed as [now].
    - Month names are those of the C locale, and [strftime] writes [%Y] with
      four digits, as the Python documentation has it.
    - A step that calls a function which may raise returns a [result]; the
      other steps are plain functions on [DataCleaner]. *)

From Stdlib Require Import ZArith List Bool Ascii String QArith Qcanon Qround Qabs Lia Lqa.
Import ListNotations.
Local Open Scope string_scope.
Local Open Scope Z_scope.

(** ** Characters and text *)

Module Text.

Definition ord (c : ascii) : nat := nat_of_ascii c.

(** [str.isspace] on ASCII: TAB..CR, FS..US and SPACE. *)
Definition isspace (c : ascii) : bool :=
  let n := ord c in
  (((9 <=? n) && (n <=? 13)) || ((28 <=? n) && (n <=? 32)))%nat.

(** [\d] on ASCII. *)
Definition isdigit (c : ascii) : bool :=
  let n := ord c in ((48 <=? n) && (n <=? 57))%nat.

Definition isupper (c : ascii) : bool :=
  let n := ord c in ((65 <=? n) && (n <=? 90))%nat.

Definition islower (c : ascii) : bool :=
  let n := ord c in ((97 <=? n) && (n <=? 122))%nat.

Definition isalpha (c : ascii) : bool := isupper c || islower c.

(** The value of a decimal digit. *)
Definition digit_val (c : ascii) : Z := Z.of_nat (ord c) - 48.

Definition lower_char (c : ascii) : ascii :=
  if isupper c then ascii_of_nat (ord c + 32) else c.

Definition upper_char (c : ascii) : ascii :=
  if islower c then ascii_of_nat (ord c - 32) else c.

Fixpoint smap (f : ascii -> ascii) (s : string) : string :=
  match s with
  | EmptyString => EmptyString
  | String c s' => String (f c) (smap f s')
  end.

Fixpoint sfilter (p : ascii -> bool) (s : string) : string :=
  match s with
  | EmptyString => EmptyString
  | String c s' => if p c then String c (sfilter p s') else sfilter p s'
  end.

Fixpoint sforall (p : ascii -> bool) (s : string) : bool :=
  match s with
  | EmptyString => true
  | String c s' => p c && sforall p s'
  end.

(** [s.lower()] *)
Definition lower (s : string) : string := smap lower_char s.

(** [s.title()]: a cased character is upper-cased when the previous character
    is not cased and lower-cased when it is. *)
Fixpoint title_from (prev_cased : bool) (s : string) : string :=
  match s with
  | EmptyString => EmptyString
  | String c s' =>
      String (if prev_cased then lower_char c else upper_char c)
             (title_from (isalpha c) s')
  end.

Definition title (s : string) : string := title_from false s.

Fixpoint lstrip (s : string) : string :=
  match s with
  | EmptyString => EmptyString
  | String c s' => if isspace c then lstrip s' else s
  end.

Fixpoint rstrip (s : string) : string :=
  match s with
  | EmptyString => EmptyString
  | String c s' =>
      match rstrip s' with
      | EmptyString => if isspace c then EmptyString else String c EmptyString
      | r => String c r
      end
  end.

(** [s.strip()] *)
Definition strip (s : string) : string := rstrip (lstrip s).

(** [s.replace(old, new)] for a one-character [old]. *)
Fixpoint replace (old : ascii) (new : string) (s : string) : string :=
  match s with
  | EmptyString => EmptyString
  | String c s' =>
      if Ascii.eqb c old then new ++ replace old new s'
      else String c (replace old new s')
  end.

(** [re.sub(r'\s+', ' ', s)]: every maximal run of whitespace becomes one
    space.  [in_run] tells that the previous character was whitespace. *)
Fixpoint sub_ws_runs (in_run : bool) (s : string) : string :=
  match s with
  | EmptyString => EmptyString
  | String c s' =>
      if isspace c
      then (if in_run then sub_ws_runs true s'
            else String " " (sub_ws_runs true s'))
      else String c (sub_ws_runs false s')
  end.

(** [re.sub(r'\D', '', s)] *)
Definition sub_nondigits (s : string) : string := sfilter isdigit s.

(** [s[n:]] *)
Fixpoint drop (n : nat) (s : string) : string :=
  match n, s with
  | O, _ => s
  | S n', String _ s' => drop n' s'
  | S _, EmptyString => EmptyString
  end.

(** [s[:n]] *)
Fixpoint take (n : nat) (s : string) : string :=
  match n, s with
  | S n', String c s' => String c (take n' s')
  | _, _ => EmptyString
  end.

(** [s[i:j]] for [i <= j] *)
Definition slice (i j : nat) (s : string) : string := take (j - i) (drop i s).

(** [s.startswith(p)] *)
Fixpoint startswith (p s : string) : bool :=
  match p, s with
  | EmptyString, _ => true
  | String a p', String b s' => Ascii.eqb a b && startswith p' s'
  | String _ _, EmptyString => false
  end.

End Text.
Import Text.

(** ** Cells *)

(** A pandas cell: missing ([np.nan], [pd.isna]) or a value. *)
Inductive cell (A : Type) : Type :=
| NaN
| Val (a : A).
Arguments NaN {A}.
Arguments Val {A} a.

Definition isna {A} (c : cell A) : bool :=
  match c with NaN => true | Val _ => false end.

Definition notna {A} (c : cell A) : bool := negb (isna c).

(** [series.notna().sum()] *)
Definition notna_sum {A} (col : list (cell A)) : Z :=
  Z.of_nat (List.length (filter notna col)).

(** ** Phone numbers *)

(** [format_phone], nested in [clean_phone_numbers]. *)
Definition format_phone (phone : cell string) : cell string :=
  match phone with
  | NaN => NaN
  | Val p =>
      let digits := sub_nondigits p in
      let digits :=
        if (String.length digits =? 11)%nat && startswith "1" digits
        then drop 1 digits else digits in
      if (String.length digits =? 10)%nat
      then Val (slice 0 3 digits ++ "-" ++ slice 3 6 digits ++ "-" ++ slice 6 10 digits)
      else NaN
  end.

(** ** Exceptions *)

Inductive exn := ValueError | TypeError | OverflowError.

Definition exn_eqb (a b : exn) : bool :=
  match a, b with
  | ValueError, ValueError | TypeError, TypeError
  | OverflowError, OverflowError => true
  | _, _ => false
  end.

(** A computation that returns a value or raises. *)
Inductive result (A : Type) : Type :=
| Ok (a : A)
| Raise (e : exn).
Arguments Ok {A} a.
Arguments Raise {A} e.

Definition bind {A B} (c : result A) (k : A -> result B) : result B :=
  match c with
  | Ok a => k a
  | Raise e => Raise e
  end.

Notation "x <- c ;; k" := (bind c (fun x => k))
  (at level 61, c at next level, right associativity).

(** [try: body except caught: handler] *)
Definition try_except {A} (body : result A) (caught : list exn)
    (handler : result A) : result A :=
  match body with
  | Ok a => Ok a
  | Raise e => if existsb (exn_eqb e) caught then handler else Raise e
  end.

(** [series.apply(f)] for an [f] that may raise: the first exception, in row
    order, aborts the whole call. *)
Fixpoint apply {A B} (f : A -> result B) (col : list A) : result (list B) :=
  match col with
  | [] => Ok []
  | a :: col' =>
      b <- f a ;;
      bs <- apply f col' ;;
      Ok (b :: bs)
  end.

(** ** Dates: [datetime.strptime], [strftime] and [parse_date] *)

Module Strptime.

Record datetime := mkdatetime
  { year : Z; month : Z; day : Z;
    hour : Z; minute : Z; second : Z; microsecond : Z }.

(** [a > b] on [datetime] values: lexicographic on the seven fields. *)
Fixpoint lex_gtb (a b : list Z) : bool :=
  match a, b with
  | x :: a', y :: b' => (y <? x) || ((x =? y) && lex_gtb a' b')
  | _, _ => false
  end.

Definition components (t : datetime) : list Z :=
  [year t; month t; day t; hour t; minute t; second t; microsecond t].

Definition datetime_gtb (a b : datetime) : bool :=
  lex_gtb (components a) (components b).

Definition is_leap (y : Z) : bool :=
  (y mod 4 =? 0) && (negb (y mod 100 =? 0) || (y mod 400 =? 0)).

Definition days_in_month (y m : Z) : Z :=
  match m with
  | 2 => if is_leap y then 29 else 28
  | 4 | 6 | 9 | 11 => 30
  | _ => 31
  end.

(** The range check of the [datetime] constructor (MINYEAR = 1,
    MAXYEAR = 9999). *)
Definition valid_date (y m d : Z) : bool :=
  (1 <=? y) && (y <=? 9999) && (1 <=? m) && (m <=? 12)
  && (1 <=? d) && (d <=? days_in_month y m).

(** The directives of a format, as [_strptime] compiles them into a regular
    expression: a run of whitespace becomes [\s+], a character that is not
    part of a directive stands for itself. *)
Inductive directive :=
| dir_m | dir_d | dir_Y | dir_b | dir_B
| ws
| lit (c : ascii).

Fixpoint compile (in_ws : bool) (fmt : string) : option (list directive) :=
  match fmt with
  | EmptyString => Some []
  | String "%" (String c rest) =>
      match (if Ascii.eqb c "m" then Some dir_m
             else if Ascii.eqb c "d" then Some dir_d
             else if Ascii.eqb c "Y" then Some dir_Y
             else if Ascii.eqb c "b" then Some dir_b
             else if Ascii.eqb c "B" then Some dir_B
             else None),
            compile false rest with
      | Some d, Some ds => Some (d :: ds)
      | _, _ => None
      end
  | String c rest =>
      if isspace c
      then (if in_ws then compile true rest
            else option_map (cons ws) (compile true rest))
      else option_map (cons (lit c)) (compile false rest)
  end.

Definition in_range (lo hi : ascii) (c : ascii) : bool :=
  ((ord lo <=? ord c) && (ord c <=? ord hi))%nat.

Definition month_abbr : list string :=
  ["jan"; "feb"; "mar"; "apr"; "may"; "jun";
   "jul"; "aug"; "sep"; "oct"; "nov"; "dec"].

Definition month_name : list string :=
  ["january"; "february"; "march"; "april"; "may"; "june";
   "july"; "august"; "september"; "october"; "november"; "december"].

(** What a group of the regular expression captured. *)
Inductive capture :=
| cap_Y (n : Z) | cap_m (n : Z) | cap_d (n : Z) | cap_none.

(** The month names of an alternation that match, case-insensitively, at the
    start of [s].  No name is a prefix of another one, so the order of the
    alternation ([_strptime] sorts it by length) is immaterial. *)
Fixpoint name_alts (names : list string) (idx : Z) (s : string)
  : list (capture * string) :=
  match names with
  | [] => []
  | n :: names' =>
      (if startswith n (lower s)
       then [(cap_m idx, drop (String.length n) s)] else [])
      ++ name_alts names' (idx + 1) s
  end.

(** [\s+] is greedy: the longest run first, then shorter ones, down to one
    character. *)
Fixpoint ws_alts (s : string) : list (capture * string) :=
  match s with
  | String c s' => if isspace c then ws_alts s' ++ [(cap_none, s')] else []
  | EmptyString => []
  end.

(** The alternatives of one directive at the start of [s], in the order in
    which the regular expression tries them, each with the rest of the input.
    - [%d] is [3[0-1]|[1-2]\d|0[1-9]|[1-9]| [1-9]]
    - [%m] is [1[0-2]|0[1-9]|[1-9]]
    - [%Y] is [\d\d\d\d] *)
Definition alts (d : directive) (s : string) : list (capture * string) :=
  match d with
  | dir_d =>
      (match s with
       | String "3" (String b r) =>
           if in_range "0" "1" b then [(cap_d (30 + digit_val b), r)] else []
       | _ => [] end)
      ++ (match s with
          | String a (String b r) =>
              if in_range "1" "2" a && isdigit b
              then [(cap_d (10 * digit_val a + digit_val b), r)] else []
          | _ => [] end)
      ++ (match s with
          | String "0" (String b r) =>
              if in_range "1" "9" b then [(cap_d (digit_val b), r)] else []
          | _ => [] end)
      ++ (match s with
          | String a r =>
              if in_range "1" "9" a then [(cap_d (digit_val a), r)] else []
          | _ => [] end)
      ++ (match s with
          | String " " (String b r) =>
              if in_range "1" "9" b then [(cap_d (digit_val b), r)] else []
          | _ => [] end)
  | dir_m =>
      (match s with
       | String "1" (String b r) =>
           if in_range "0" "2" b then [(cap_m (10 + digit_val b), r)] else []
       | _ => [] end)
      ++ (match s with
          | String "0" (String b r) =>
              if in_range "1" "9" b then [(cap_m (digit_val b), r)] else []
          | _ => [] end)
      ++ (match s with
          | String a r =>
              if in_range "1" "9" a then [(cap_m (digit_val a), r)] else []
          | _ => [] end)
  | dir_Y =>
      match s with
      | String a (String b (String c (String d r))) =>
          if isdigit a && isdigit b && isdigit c && isdigit d
          then [(cap_Y (1000 * digit_val a + 100 * digit_val b
                        + 10 * digit_val c + digit_val d), r)]
          else []
      | _ => []
      end
  | dir_b => name_alts month_abbr 1 s
  | dir_B => name_alts month_name 1 s
  | ws => ws_alts s
  | lit c =>
      match s with
      | String a r =>
          if Ascii.eqb (lower_char a) (lower_char c) then [(cap_none, r)] else []
      | _ => []
      end
  end.

(** Year, month and day found so far; [_strptime] starts from 1900-01-01. *)
Definition ymd : Type := (Z * Z * Z)%type.

Definition record_capture (c : capture) (f : ymd) : ymd :=
  match c with
  | cap_Y n => (n, snd (fst f), snd f)
  | cap_m n => (fst (fst f), n, snd f)
  | cap_d n => (fst (fst f), snd (fst f), n)
  | cap_none => f
  end.

Section Backtrack.
Context {A B : Type} (k : A -> option B).

(** The first alternative after which the rest of the pattern matches. *)
Fixpoint first_match (l : list A) : option B :=
  match l with
  | [] => None
  | a :: l' => match k a with Some b => Some b | None => first_match l' end
  end.

End Backtrack.

(** [format_regex.match(data_string)]: the fields and the unmatched rest of
    the first match found by backtracking. *)
Fixpoint regex_match (ds : list directive) (s : string) (f : ymd)
  : option (ymd * string) :=
  match ds with
  | [] => Some (f, s)
  | d :: ds' =>
      first_match (fun a => regex_match ds' (snd a) (record_capture (fst a) f))
                  (alts d s)
  end.

(** [datetime.strptime(data_string, fmt)].  It raises [ValueError] on a bad
    directive, when the expression does not match, when unconverted data
    remains after the match, and when the day is out of range for the
    month. *)
Definition strptime (data_string fmt : string) : result datetime :=
  match compile false fmt with
  | None => Raise ValueError
  | Some ds =>
      match regex_match ds data_string (1900, 1, 1) with
      | None => Raise ValueError
      | Some ((y, m, d), rest) =>
          if negb (String.eqb rest "") then Raise ValueError
          else if valid_date y m d then Ok (mkdatetime y m d 0 0 0 0)
          else Raise ValueError
      end
  end.

Definition digit_char (n : Z) : ascii := ascii_of_nat (Z.to_nat (48 + n mod 10)).

Definition pad2 (n : Z) : string :=
  String (digit_char (n / 10)) (String (digit_char n) EmptyString).

Definition pad4 (n : Z) : string :=
  String (digit_char (n / 1000)) (String (digit_char (n / 100)) (pad2 n)).

(** [t.strftime('%Y-%m-%d')], the year written with four digits. *)
Definition strftime_Ymd (t : datetime) : string :=
  pad4 (year t) ++ "-" ++ pad2 (month t) ++ "-" ++ pad2 (day t).

End Strptime.
Import Strptime.

Definition date_formats : list string :=
  [ "%m/%d/%Y";     (* 01/15/2024 *)
    "%d-%m-%Y";     (* 15-01-2024 *)
    "%Y-%m-%d";     (* 2024-01-15 *)
    "%b %d, %Y";    (* Jan 15, 2024 *)
    "%d %B %Y" ].   (* 15 January 2024 *)

(** The loop of [parse_date] over the formats: [ValueError] moves on to the
    next format ([continue]); when no format is left the result is [np.nan]. *)
Fixpoint try_formats (now : datetime) (date_str : string) (fmts : list string)
  : result (cell string) :=
  match fmts with
  | [] => Ok NaN
  | fmt :: fmts' =>
      try_except
        (parsed_date <- strptime date_str fmt ;;
         if datetime_gtb parsed_date now then Ok NaN
         else Ok (Val (strftime_Ymd parsed_date)))
        [ValueError]
        (try_formats now date_str fmts')
  end.

(** [parse_date], nested in [standardize_dates]. *)
Definition parse_date (now : datetime) (date_str : cell string)
  : result (cell string) :=
  match date_str with
  | NaN => Ok NaN
  | Val s => try_formats now (strip s) date_formats
  end.

(** ** Numbers: [float], [round] and [int] *)

Module PyFloat.

(** A number that is not nan. *)
Inductive number :=
| Fin (q : Qc)
| Inf (negative : bool).

Definition of_Z (n : Z) : number := Fin (Q2Qc (inject_Z n)).

(** [m * 10 ** e] *)
Definition scale10 (m e : Z) : Q :=
  if 0 <=? e then inject_Z (m * 10 ^ e) else Qmake m (Z.to_pos (10 ^ (- e))).

(** The rest of a [digitpart]: digits, each optionally preceded by one
    underscore.  Returns the value read so far, the number of digits and the
    rest of the input. *)
Fixpoint digits_rest (s : string) (acc n : Z) : Z * Z * string :=
  match s with
  | String c s' =>
      if isdigit c then digits_rest s' (10 * acc + digit_val c) (n + 1)
      else if Ascii.eqb c "_" then
        match s' with
        | String d s'' =>
            if isdigit d then digits_rest s'' (10 * acc + digit_val d) (n + 1)
            else (acc, n, s)
        | EmptyString => (acc, n, s)
        end
      else (acc, n, s)
  | EmptyString => (acc, n, s)
  end.

(** [digitpart ::= digit (["_"] digit)*] *)
Definition digitpart (s : string) (acc n : Z) : option (Z * Z * string) :=
  match s with
  | String c s' =>
      if isdigit c then Some (digits_rest s' (10 * acc + digit_val c) (n + 1))
      else None
  | EmptyString => None
  end.

(** [number ::= [digitpart] "." digitpart | digitpart ["."]]: the digits read
    as one integer, the number of digits after the point, the rest. *)
Definition pointfloat (s : string) : option (Z * Z * string) :=
  match digitpart s 0 0 with
  | Some (i, _, String "." r) =>
      match digitpart r i 0 with
      | Some (m, nfrac, r') => Some (m, nfrac, r')
      | None => Some (i, 0, r)
      end
  | Some (i, _, r) => Some (i, 0, r)
  | None =>
      match s with
      | String "." r => digitpart r 0 0
      | _ => None
      end
  end.

(** [[sign]]: whether a minus sign was read, and the rest. *)
Definition sign (s : string) : bool * string :=
  match s with
  | String "+" r => (false, r)
  | String "-" r => (true, r)
  | _ => (false, s)
  end.

(** [exponent ::= ("e" | "E") [sign] digitpart], absent when the input ends
    after the number. *)
Definition exponent (s : string) : option Z :=
  match s with
  | EmptyString => Some 0
  | String c r =>
      if Ascii.eqb (lower_char c) "e" then
        let (neg, r') := sign r in
        match digitpart r' 0 0 with
        | Some (e, _, EmptyString) => Some (if neg then - e else e)
        | _ => None
        end
      else None
  end.

(** [float(s)] for a [str]: blanks are stripped on both sides, then
    [[sign] (floatnumber | "inf" | "infinity" | "nan")], the words in any
    case; anything else raises [ValueError]. *)
Definition float (s : string) : result (cell number) :=
  let (neg, r) := sign (strip s) in
  let w := lower r in
  if String.eqb w "inf" || String.eqb w "infinity" then Ok (Val (Inf neg))
  else if String.eqb w "nan" then Ok NaN
  else
    match pointfloat r with
    | Some (m, nfrac, r') =>
        match exponent r' with
        | Some e =>
            Ok (Val (Fin (Q2Qc (scale10 (if neg then - m else m) (e - nfrac)))))
        | None => Raise ValueError
        end
    | None => Raise ValueError
    end.

(** [x <= 0] *)
Definition le0 (x : cell number) : bool :=
  match x with
  | NaN => false
  | Val (Inf negative) => negative
  | Val (Fin q) => Qle_bool q 0
  end.

(** The integer nearest to [q], ties going to the even one. *)
Definition round_half_even (q : Q) : Z :=
  let f := Qfloor q in
  match Qcompare (q - inject_Z f) (1 # 2) with
  | Lt => f
  | Gt => f + 1
  | Eq => if Z.even f then f else f + 1
  end.

(** [round(x, 2)] *)
Definition round2 (x : cell number) : cell number :=
  match x with
  | Val (Fin q) => Val (Fin (Q2Qc (Qmake (round_half_even (q * 100)) 100)))
  | _ => x
  end.

(** [int(x)] truncates towards zero; it raises [ValueError] on nan and
    [OverflowError] on an infinity. *)
Definition int (x : cell number) : result Z :=
  match x with
  | NaN => Raise ValueError
  | Val (Inf _) => Raise OverflowError
  | Val (Fin q) => Ok (Z.quot (Qnum q) (Zpos (Qden q)))
  end.

End PyFloat.
Import PyFloat.

(** A cell of a column that holds text or numbers. *)
Inductive scalar :=
| Str (s : string)
| Num (x : number).

(** A Python float as a cell: nan is the missing cell. *)
Definition of_float (x : cell number) : cell scalar :=
  match x with
  | NaN => NaN
  | Val n => Val (Num n)
  end.

(** [float(prep(str(v)))] where [prep] strips and removes characters.  The
    [str] of a number is its [repr]: [prep] leaves it alone and [float] reads
    the same number back. *)
Definition float_of_str (prep : string -> string) (v : scalar)
  : result (cell number) :=
  match v with
  | Str s => float (prep s)
  | Num x => Ok (Val x)
  end.

(** ** Prices and quantities *)

(** [parse_price], nested in [clean_prices]. *)
Definition parse_price (price : cell scalar) : result (cell scalar) :=
  match price with
  | NaN => Ok NaN
  | Val v =>
      try_except
        (price_float <-
           float_of_str (fun s => replace "," "" (replace "$" "" (strip s))) v ;;
         if le0 price_float then Ok NaN
         else Ok (of_float (round2 price_float)))
        [ValueError]
        (Ok NaN)
  end.

(** [parse_quantity], nested in [clean_quantities]. *)
Definition parse_quantity (qty : cell scalar) : result (cell scalar) :=
  match qty with
  | NaN => Ok NaN
  | Val v =>
      try_except
        (x <- float_of_str strip v ;;
         qty_int <- int x ;;
         if qty_int <=? 0 then Ok NaN
         else Ok (Val (Num (of_Z qty_int))))
        [ValueError; TypeError]
        (Ok NaN)
  end.

(** ** Regular expressions *)

Module Regex.

Inductive re :=
| Nul                       (* matches nothing *)
| Eps                       (* the empty string *)
| Chr (p : ascii -> bool)   (* one character of a class *)
| Cat (r1 r2 : re)
| Alt (r1 r2 : re)
| Star (r : re).

Definition Plus (r : re) : re := Cat r (Star r).            (* r+ *)
Definition AtLeast2 (r : re) : re := Cat r (Cat r (Star r)). (* r{2,} *)

(** [$] at the end of a pattern: the end of the string, or just before a
    newline that ends the string. *)
Definition Dollar : re := Alt Eps (Chr (Ascii.eqb "010")).

(** The strings a regular expression denotes. *)
Inductive lang : re -> string -> Prop :=
| lang_eps : lang Eps ""
| lang_chr p c : p c = true -> lang (Chr p) (String c "")
| lang_cat r1 r2 s1 s2 : lang r1 s1 -> lang r2 s2 -> lang (Cat r1 r2) (s1 ++ s2)
| lang_alt_l r1 r2 s : lang r1 s -> lang (Alt r1 r2) s
| lang_alt_r r1 r2 s : lang r2 s -> lang (Alt r1 r2) s
| lang_star_nil r : lang (Star r) ""
| lang_star_app r s1 s2 : lang r s1 -> lang (Star r) s2 -> lang (Star r) (s1 ++ s2).

Fixpoint nullable (r : re) : bool :=
  match r with
  | Nul => false
  | Eps => true
  | Chr _ => false
  | Cat r1 r2 => nullable r1 && nullable r2
  | Alt r1 r2 => nullable r1 || nullable r2
  | Star _ => true
  end.

(** The derivative of [r] by the character [c]. *)
Fixpoint deriv (c : ascii) (r : re) : re :=
  match r with
  | Nul | Eps => Nul
  | Chr p => if p c then Eps else Nul
  | Cat r1 r2 =>
      if nullable r1 then Alt (Cat (deriv c r1) r2) (deriv c r2)
      else Cat (deriv c r1) r2
  | Alt r1 r2 => Alt (deriv c r1) (deriv c r2)
  | Star r1 => Cat (deriv c r1) (Star r1)
  end.

(** Whether the whole of [s] matches [r]. *)
Fixpoint fullmatch (r : re) (s : string) : bool :=
  match s with
  | EmptyString => nullable r
  | String c s' => fullmatch (deriv c r) s'
  end.

End Regex.
Import Regex.

(** ** E-mail addresses *)

Definition is_alnum (c : ascii) : bool := isalpha c || isdigit c.

Definition one_of (chars : string) (c : ascii) : bool :=
  negb (sforall (fun d => negb (Ascii.eqb c d)) chars).

(** [[a-zA-Z0-9._%+-]] *)
Definition local_char (c : ascii) : bool := is_alnum c || one_of "._%+-" c.
(** [[a-zA-Z0-9.-]] *)
Definition domain_char (c : ascii) : bool := is_alnum c || one_of ".-" c.

(** [[a-zA-Z0-9._%+-]+@[a-zA-Z0-9.-]+\.[a-zA-Z]{2,}], the pattern between
    [^] and [$]. *)
Definition email_body : re :=
  Cat (Plus (Chr local_char))
      (Cat (Chr (Ascii.eqb "@"))
           (Cat (Plus (Chr domain_char))
                (Cat (Chr (Ascii.eqb "."))
                     (AtLeast2 (Chr isalpha))))).

(** [email_pattern = r'^[a-zA-Z0-9._%+-]+@[a-zA-Z0-9.-]+\.[a-zA-Z]{2,}$'] *)
Definition email_pattern : re := Cat email_body Dollar.

(** [re.match(pattern, s)] for a pattern anchored by [^] and [$]. *)
Definition re_match (pattern : re) (s : string) : bool := fullmatch pattern s.

(** ** The table *)

Record Row := mkRow
  { order_id : cell scalar;
    customer_name : cell string;
    email : cell string;
    phone : cell string;
    order_date : cell string;
    product_name : cell string;
    category : cell string;
    quantity : cell scalar;
    price : cell scalar;
    status : cell string }.

(** A column of the frame: its label, how to read it in a row and how to
    write it. *)
Record column (A : Type) := mkcolumn
  { label : string;
    get : Row -> cell A;
    set : Row -> cell A -> Row }.
Arguments label {A} c.
Arguments get {A} c r.
Arguments set {A} c r v.

Definition col_customer_name : column string :=
  mkcolumn _ "customer_name" customer_name
    (fun r v => mkRow (order_id r) v (email r) (phone r) (order_date r)
                  (product_name r) (category r) (quantity r) (price r) (status r)).
Definition col_email : column string :=
  mkcolumn _ "email" email
    (fun r v => mkRow (order_id r) (customer_name r) v (phone r) (order_date r)
                  (product_name r) (category r) (quantity r) (price r) (status r)).
Definition col_phone : column string :=
  mkcolumn _ "phone" phone
    (fun r v => mkRow (order_id r) (customer_name r) (email r) v (order_date r)
                  (product_name r) (category r) (quantity r) (price r) (status r)).
Definition col_order_date : column string :=
  mkcolumn _ "order_date" order_date
    (fun r v => mkRow (order_id r) (customer_name r) (email r) (phone r) v
                  (product_name r) (category r) (quantity r) (price r) (status r)).
Definition col_product_name : column string :=
  mkcolumn _ "product_name" product_name
    (fun r v => mkRow (order_id r) (customer_name r) (email r) (phone r) (order_date r)
                  v (category r) (quantity r) (price r) (status r)).
Definition col_category : column string :=
  mkcolumn _ "category" category
    (fun r v => mkRow (order_id r) (customer_name r) (email r) (phone r) (order_date r)
                  (product_name r) v (quantity r) (price r) (status r)).
Definition col_quantity : column scalar :=
  mkcolumn _ "quantity" quantity
    (fun r v => mkRow (order_id r) (customer_name r) (email r) (phone r) (order_date r)
                  (product_name r) (category r) v (price r) (status r)).
Definition col_price : column scalar :=
  mkcolumn _ "price" price
    (fun r v => mkRow (order_id r) (customer_name r) (email r) (phone r) (order_date r)
                  (product_name r) (category r) (quantity r) v (status r)).
Definition col_status : column string :=
  mkcolumn _ "status" status
    (fun r v => mkRow (order_id r) (customer_name r) (email r) (phone r) (order_date r)
                  (product_name r) (category r) (quantity r) (price r) v).

(** [df[col]] *)
Definition getcol {A} (col : column A) (df : list Row) : list (cell A) :=
  map (get col) df.

(** [df[col] = values], row by row. *)
Fixpoint setcol {A} (col : column A) (df : list Row) (values : list (cell A))
  : list Row :=
  match df, values with
  | r :: df', v :: values' => set col r v :: setcol col df' values'
  | _, _ => df
  end.

(** The [.str] accessor: a string method on every present cell. *)
Definition str_method {A} (f : string -> A) (c : cell string) : cell A :=
  match c with
  | NaN => NaN
  | Val s => Val (f s)
  end.

(** [series.astype(str)] on an object column: a missing cell becomes the
    text [nan]. *)
Definition astype_str (c : cell string) : string :=
  match c with
  | NaN => "nan"
  | Val s => s
  end.

(** [mask.sum()] *)
Definition mask_sum (mask : list bool) : Z :=
  Z.of_nat (List.length (filter (fun b => b) mask)).

(** Equality of cells and rows as [drop_duplicates] and [nunique] see it:
    missing cells are equal to each other. *)
Definition number_eqb (x y : number) : bool :=
  match x, y with
  | Fin p, Fin q => Qeq_bool p q
  | Inf a, Inf b => Bool.eqb a b
  | _, _ => false
  end.

Definition scalar_eqb (x y : scalar) : bool :=
  match x, y with
  | Str s, Str t => String.eqb s t
  | Num a, Num b => number_eqb a b
  | _, _ => false
  end.

Definition cell_eqb {A} (eqb : A -> A -> bool) (x y : cell A) : bool :=
  match x, y with
  | NaN, NaN => true
  | Val a, Val b => eqb a b
  | _, _ => false
  end.

Definition row_eqb (r1 r2 : Row) : bool :=
  cell_eqb scalar_eqb (order_id r1) (order_id r2)
  && cell_eqb String.eqb (customer_name r1) (customer_name r2)
  && cell_eqb String.eqb (email r1) (email r2)
  && cell_eqb String.eqb (phone r1) (phone r2)
  && cell_eqb String.eqb (order_date r1) (order_date r2)
  && cell_eqb String.eqb (product_name r1) (product_name r2)
  && cell_eqb String.eqb (category r1) (category r2)
  && cell_eqb scalar_eqb (quantity r1) (quantity r2)
  && cell_eqb scalar_eqb (price r1) (price r2)
  && cell_eqb String.eqb (status r1) (status r2).

(** [df.drop_duplicates()]: a row equal to an earlier one is dropped
    ([keep='first']).  [seen] holds the rows met so far. *)
Fixpoint drop_duplicates_from (seen : list Row) (df : list Row) : list Row :=
  match df with
  | [] => []
  | r :: df' =>
      if existsb (row_eqb r) seen then drop_duplicates_from seen df'
      else r :: drop_duplicates_from (r :: seen) df'
  end.

Definition drop_duplicates (df : list Row) : list Row :=
  drop_duplicates_from [] df.

(** [series.nunique()]: the number of distinct values, missing cells left
    out. *)
Fixpoint distinct (seen : list string) (col : list (cell string)) : list string :=
  match col with
  | [] => seen
  | NaN :: col' => distinct seen col'
  | Val s :: col' =>
      if existsb (String.eqb s) seen then distinct seen col'
      else distinct (s :: seen) col'
  end.

Definition nunique (col : list (cell string)) : Z :=
  Z.of_nat (List.length (distinct [] col)).

(** A [dict] literal with text keys, and [d.get(k)]. *)
Definition dict := list (string * string).

Fixpoint lookup (d : dict) (k : string) : option string :=
  match d with
  | [] => None
  | (k', v) :: d' => if String.eqb k k' then Some v else lookup d' k
  end.

(** [series.replace(mapping)]: a cell equal to a key becomes the value of
    that key, any other cell stays. *)
Definition series_replace (mapping : dict) (c : cell string) : cell string :=
  match c with
  | NaN => NaN
  | Val s => match lookup mapping s with
             | Some v => Val v
             | None => Val s
             end
  end.

(** ** [DataCleaner] *)

Record LogEntry := mkLogEntry
  { step : string;
    description : string;
    count : Z }.

Record DataCleaner := mkDataCleaner
  { df : list Row;
    original_df : list Row;
    cleaning_log : list LogEntry }.

(** [DataCleaner(input_path)]; the frames are unset until [load_data]. *)
Definition new_cleaner : DataCleaner := mkDataCleaner [] [] [].

(** [self.df = ...] *)
Definition with_df (self : DataCleaner) (df' : list Row) : DataCleaner :=
  mkDataCleaner df' (original_df self) (cleaning_log self).

(** [load_data]; [raw] is the frame that [pd.read_csv] returns. *)
Definition load_data (raw : list Row) (self : DataCleaner) : DataCleaner :=
  mkDataCleaner raw raw (cleaning_log self).

Definition log_change (self : DataCleaner) (step description : string)
    (count : Z) : DataCleaner :=
  mkDataCleaner (df self) (original_df self)
    (cleaning_log self ++ [mkLogEntry step description count]).

(** [len(df)] *)
Definition len {A} (l : list A) : Z := Z.of_nat (List.length l).

Definition remove_duplicates (self : DataCleaner) : DataCleaner :=
  let initial_count := len (df self) in
  let self := with_df self (drop_duplicates (df self)) in
  let duplicates_removed := initial_count - len (df self) in
  if duplicates_removed >? 0
  then log_change self "remove_duplicates" "Duplicate rows removed"
         duplicates_removed
  else self.

Definition text_columns : list (column string) :=
  [col_customer_name; col_email; col_product_name; col_category; col_status].

Definition tab : ascii := "009".

(** The body of the loop of [clean_whitespace] for one column; every column
    of [text_columns] is in the frame. *)
Definition clean_whitespace_col (st : list Row * Z) (col : column string)
  : list Row * Z :=
  let (df, total_cleaned) := st in
  let has_whitespace :=
    map (fun c => negb (String.eqb (strip (astype_str c)) (astype_str c)))
        (getcol col df) in
  let count := mask_sum has_whitespace in
  let df := setcol col df
              (map (fun c => Val (strip (astype_str c))) (getcol col df)) in
  let df := setcol col df
              (map (str_method (sub_ws_runs false)) (getcol col df)) in
  let df := setcol col df
              (map (str_method (replace tab " ")) (getcol col df)) in
  (df, if count >? 0 then total_cleaned + count else total_cleaned).

Definition clean_whitespace (self : DataCleaner) : DataCleaner :=
  let (df', total_cleaned) :=
    fold_left clean_whitespace_col text_columns (df self, 0) in
  log_change (with_df self df') "clean_whitespace"
    "Whitespace cleaned in text fields" total_cleaned.

(** [series.str.match(pattern, na=False)] *)
Definition str_match (pattern : re) (c : cell string) : bool :=
  match c with
  | NaN => false
  | Val s => re_match pattern s
  end.

(** [~valid & series.notna()] *)
Definition invalid_mask (valid : list bool) (col : list (cell string))
  : list bool :=
  map (fun vc => negb (fst vc) && notna (snd vc)) (combine valid col).

(** [df.loc[mask, col] = np.nan] *)
Fixpoint loc_set_nan {A} (col : column A) (mask : list bool) (df : list Row)
  : list Row :=
  match mask, df with
  | b :: mask', r :: df' =>
      (if b then set col r NaN else r) :: loc_set_nan col mask' df'
  | _, _ => df
  end.

Definition standardize_emails (self : DataCleaner) : DataCleaner :=
  let self := with_df self
                (setcol col_email (df self)
                   (map (str_method lower) (getcol col_email (df self)))) in
  let valid_emails := map (str_match email_pattern) (getcol col_email (df self)) in
  let invalid_count :=
    mask_sum (invalid_mask valid_emails (getcol col_email (df self))) in
  let self := with_df self
                (loc_set_nan col_email
                   (invalid_mask valid_emails (getcol col_email (df self)))
                   (df self)) in
  if invalid_count >? 0
  then log_change self "standardize_emails" "Invalid emails removed" invalid_count
  else self.

Definition clean_phone_numbers (self : DataCleaner) : DataCleaner :=
  let valid_before := notna_sum (getcol col_phone (df self)) in
  let self := with_df self
                (setcol col_phone (df self)
                   (map format_phone (getcol col_phone (df self)))) in
  let valid_after := notna_sum (getcol col_phone (df self)) in
  let invalid_count := valid_before - valid_after in
  if invalid_count >? 0
  then log_change self "clean_phone_numbers" "Invalid phone numbers removed"
         invalid_count
  else self.

Definition standardize_dates (now : datetime) (self : DataCleaner)
  : result DataCleaner :=
  let valid_before := notna_sum (getcol col_order_date (df self)) in
  dates <- apply (parse_date now) (getcol col_order_date (df self)) ;;
  let self := with_df self (setcol col_order_date (df self) dates) in
  let valid_after := notna_sum (getcol col_order_date (df self)) in
  let invalid_count := valid_before - valid_after in
  if invalid_count >? 0
  then Ok (log_change self "standardize_dates" "Invalid dates removed"
             invalid_count)
  else Ok self.

Definition clean_prices (self : DataCleaner) : result DataCleaner :=
  let valid_before := notna_sum (getcol col_price (df self)) in
  prices <- apply parse_price (getcol col_price (df self)) ;;
  let self := with_df self (setcol col_price (df self) prices) in
  let valid_after := notna_sum (getcol col_price (df self)) in
  let invalid_count := valid_before - valid_after in
  if invalid_count >? 0
  then Ok (log_change self "clean_prices" "Invalid prices removed" invalid_count)
  else Ok self.

Definition clean_quantities (self : DataCleaner) : result DataCleaner :=
  let valid_before := notna_sum (getcol col_quantity (df self)) in
  quantities <- apply parse_quantity (getcol col_quantity (df self)) ;;
  let self := with_df self (setcol col_quantity (df self) quantities) in
  let valid_after := notna_sum (getcol col_quantity (df self)) in
  let invalid_count := valid_before - valid_after in
  if invalid_count >? 0
  then Ok (log_change self "clean_quantities" "Invalid quantities removed"
             invalid_count)
  else Ok self.

Definition category_mapping : dict :=
  [ ("electronics", "Electronics"); ("ELECTRONICS", "Electronics");
    ("elec", "Electronics"); ("Elec", "Electronics");
    ("clothing", "Clothing"); ("CLOTHING", "Clothing");
    ("clot", "Clothing"); ("Clot", "Clothing");
    ("home & garden", "Home & Garden"); ("HOME & GARDEN", "Home & Garden");
    ("home and garden", "Home & Garden"); ("Home and Garden", "Home & Garden");
    ("home", "Home & Garden"); ("Home", "Home & Garden");
    ("books", "Books"); ("BOOKS", "Books");
    ("book", "Books"); ("Book", "Books") ].

Definition standardize_categories (self : DataCleaner) : DataCleaner :=
  let unique_before := nunique (getcol col_category (df self)) in
  let self := with_df self
                (setcol col_category (df self)
                   (map (series_replace category_mapping)
                        (getcol col_category (df self)))) in
  let self := with_df self
                (setcol col_category (df self)
                   (map (str_method title) (getcol col_category (df self)))) in
  let unique_after := nunique (getcol col_category (df self)) in
  let variations_removed := unique_before - unique_after in
  if variations_removed >? 0
  then log_change self "standardize_categories"
         "Category variations consolidated" variations_removed
  else self.

Definition status_mapping : dict :=
  [ ("pending", "Pending"); ("PENDING", "Pending"); ("pnding", "Pending");
    ("Pnding", "Pending"); ("p", "Pending"); ("P", "Pending");
    ("shipped", "Shipped"); ("SHIPPED", "Shipped"); ("shippd", "Shipped");
    ("Shippd", "Shipped"); ("ship", "Shipped"); ("Ship", "Shipped");
    ("delivered", "Delivered"); ("DELIVERED", "Delivered");
    ("deliverd", "Delivered"); ("Deliverd", "Delivered");
    ("complete", "Delivered"); ("Complete", "Delivered");
    ("COMPLETE", "Delivered");
    ("cancelled", "Cancelled"); ("CANCELLED", "Cancelled");
    ("canceled", "Cancelled"); ("Canceled", "Cancelled");
    ("cnclld", "Cancelled"); ("CNCLLD", "Cancelled") ].

Definition standardize_status (self : DataCleaner) : DataCleaner :=
  let unique_before := nunique (getcol col_status (df self)) in
  let self := with_df self
                (setcol col_status (df self)
                   (map (series_replace status_mapping)
                        (getcol col_status (df self)))) in
  let unique_after := nunique (getcol col_status (df self)) in
  let variations_removed := unique_before - unique_after in
  if variations_removed >? 0
  then log_change self "standardize_status" "Status variations consolidated"
         variations_removed
  else self.

(** [run_cleaning_pipeline]: [raw] is the frame read from the input file and
    [now] the time of the run. *)
Definition run_cleaning_pipeline (now : datetime) (raw : list Row)
    (self : DataCleaner) : result DataCleaner :=
  let self := load_data raw self in
  let self := remove_duplicates self in
  let self := clean_whitespace self in
  let self := standardize_emails self in
  let self := clean_phone_numbers self in
  self <- standardize_dates now self ;;
  self <- clean_prices self ;;
  self <- clean_quantities self ;;
  let self := standardize_categories self in
  let self := standardize_status self in
  Ok self.

(** * Specifications

    The statements the properties below are proved against, written from the
    wording of the contract and independent of the step functions. *)

(** The row-wise effect of a step that rewrites one column. *)
Definition on_column {A} (col : column A) (f : cell A -> cell A)
    (df : list Row) : list Row :=
  map (fun r => set col r (f (get col r))) df.

(** The entries a step appends: one entry when [n] is positive, none
    otherwise. *)
Definition logged (step description : string) (n : Z) : list LogEntry :=
  if 0 <? n then [mkLogEntry step description n] else [].

(** Rows whose cell was present before the step and is missing after it. *)
Definition newly_missing {A} (col : column A) (f : cell A -> cell A)
    (df : list Row) : Z :=
  len (filter (fun r => notna (get col r) && isna (f (get col r))) df).

Definition str10 (a b c d e f g h i j : ascii) : string :=
  String a (String b (String c (String d (String e (String f (String g
    (String h (String i (String j EmptyString))))))))).

(** DDD-DDD-DDDD *)
Definition dashed (a b c d e f g h i j : ascii) : string :=
  String a (String b (String c (String "-" (String d (String e (String f
    (String "-" (String g (String h (String i (String j EmptyString))))))))))).

(** The phone contract: what becomes of a value, from the decimal digits it
    contains. *)
Inductive phone_spec (p : string) : cell string -> Prop :=
| phone_ten a b c d e f g h i j :
    sub_nondigits p = str10 a b c d e f g h i j ->
    phone_spec p (Val (dashed a b c d e f g h i j))
| phone_eleven a b c d e f g h i j :
    sub_nondigits p = String "1" (str10 a b c d e f g h i j) ->
    phone_spec p (Val (dashed a b c d e f g h i j))
| phone_other :
    String.length (sub_nondigits p) <> 10%nat ->
    ~ (String.length (sub_nondigits p) = 11%nat
       /\ exists r, sub_nondigits p = String "1" r) ->
    phone_spec p NaN.

Definition canonical_categories : list string :=
  ["Electronics"; "Clothing"; "Home & Garden"; "Books"].

(** The category contract: a known variant becomes its canonical name, any
    other text is title-cased. *)
Inductive category_spec (s : string) : string -> Prop :=
| category_known v :
    In (s, v) category_mapping -> In v canonical_categories ->
    category_spec s v
| category_unknown :
    (forall v, ~ In (s, v) category_mapping) ->
    category_spec s (title s).

(** What [standardize_categories] does to one cell. *)
Definition categorize (c : cell string) : cell string :=
  str_method title (series_replace category_mapping c).

(** What [clean_whitespace] does to one cell of a text column. *)
Definition clean_text (c : cell string) : cell string :=
  Val (replace tab " " (sub_ws_runs false (strip (astype_str c)))).

(** Rows of a column that [clean_whitespace] counts: the text differs from
    its stripped form. *)
Definition has_whitespace (c : cell string) : bool :=
  negb (String.eqb (strip (astype_str c)) (astype_str c)).

Definition whitespace_count (col : column string) (df : list Row) : Z :=
  len (filter (fun r => has_whitespace (get col r)) df).

(** What [standardize_emails] does to one cell. *)
Definition validate_email (c : cell string) : cell string :=
  match c with
  | NaN => NaN
  | Val s => if re_match email_pattern (lower s) then Val (lower s) else NaN
  end.

(** Text as [clean_whitespace] leaves it: no blank at either end, and every
    blank inside is a single space.  [prev_space] tells that the previous
    character was a space. *)
Fixpoint tidy_from (prev_space : bool) (s : string) : bool :=
  match s with
  | EmptyString => negb prev_space
  | String c s' =>
      if isspace c
      then Ascii.eqb c " " && negb prev_space && tidy_from true s'
      else tidy_from false s'
  end.

Definition tidy (s : string) : bool :=
  match s with
  | EmptyString => true
  | String c _ => negb (isspace c) && tidy_from false s
  end.

(** Whether the last character is a blank; [b] is the answer for the empty
    text. *)
Fixpoint ends_blank (b : bool) (s : string) : bool :=
  match s with
  | EmptyString => b
  | String c s' => ends_blank (isspace c) s'
  end.

(** What [clean_whitespace] does to one row. *)
Definition clean_whitespace_row (r : Row) : Row :=
  mkRow (order_id r) (clean_text (customer_name r)) (clean_text (email r))
    (phone r) (order_date r) (clean_text (product_name r))
    (clean_text (category r)) (quantity r) (price r) (clean_text (status r)).

(** The count [clean_whitespace] logs. *)
Definition total_whitespace (df : list Row) : Z :=
  whitespace_count col_customer_name df + whitespace_count col_email df
  + whitespace_count col_product_name df + whitespace_count col_category df
  + whitespace_count col_status df.

(** Reading a column after writing it gives what was written, and the last
    write wins. *)
Definition lawful {A} (col : column A) : Prop :=
  (forall r v, get col (set col r v) = v)
  /\ (forall r v w, set col (set col r v) w = set col r w).

(** An address that matches the e-mail pattern in full: a local part, an at
    sign, a domain, a dot and a top-level label of two letters or more. *)
Definition email_shape (e : string) : Prop :=
  exists local domain tld,
    e = local ++ "@" ++ domain ++ "." ++ tld
    /\ local <> "" /\ sforall local_char local = true
    /\ domain <> "" /\ sforall domain_char domain = true
    /\ (2 <= String.length tld)%nat /\ sforall isalpha tld = true.

Definition newline : string := String "010" EmptyString.

(** The value a computation returns, [d] when it raises. *)
Definition value_or {A} (d : A) (c : result A) : A :=
  match c with
  | Ok a => a
  | Raise _ => d
  end.

(** What [standardize_dates], [clean_prices] and [clean_quantities] write in
    one cell, when they return. *)
Definition date_of (now : datetime) (c : cell string) : cell string :=
  value_or NaN (parse_date now c).
Definition price_of (c : cell scalar) : cell scalar :=
  value_or NaN (parse_price c).
Definition quantity_of (c : cell scalar) : cell scalar :=
  value_or NaN (parse_quantity c).

(** What [standardize_status] does to one cell. *)
Definition restatus (c : cell string) : cell string :=
  series_replace status_mapping c.

(** The distinct values a rewriting of a column removes. *)
Definition variations_removed (col : column string)
    (f : cell string -> cell string) (df : list Row) : Z :=
  nunique (getcol col df) - nunique (map f (getcol col df)).

(** One step seen from outside: the frame is rewritten by [f], [entries] are
    appended to the log and the original frame is kept. *)
Definition effect (f : list Row -> list Row) (entries : list LogEntry)
    (self self' : DataCleaner) : Prop :=
  df self' = f (df self)
  /\ cleaning_log self' = (cleaning_log self ++ entries)%list
  /\ original_df self' = original_df self.

(** What the whole pipeline does to one row that survives the removal of
    duplicates. *)
Definition cleaned_row (now : datetime) (r : Row) : Row :=
  mkRow (order_id r)
    (clean_text (customer_name r))
    (validate_email (clean_text (email r)))
    (format_phone (phone r))
    (date_of now (order_date r))
    (clean_text (product_name r))
    (categorize (clean_text (category r)))
    (quantity_of (quantity r))
    (price_of (price r))
    (restatus (clean_text (status r))).

(** The entries one run appends to the log, step by step. *)
Definition run_log (now : datetime) (raw : list Row) : list LogEntry :=
  let d := drop_duplicates raw in
  let w := map clean_whitespace_row d in
  (logged "remove_duplicates" "Duplicate rows removed" (len raw - len d)
   ++ [mkLogEntry "clean_whitespace" "Whitespace cleaned in text fields"
         (total_whitespace d)]
   ++ logged "standardize_emails" "Invalid emails removed"
        (newly_missing col_email validate_email w)
   ++ logged "clean_phone_numbers" "Invalid phone numbers removed"
        (newly_missing col_phone format_phone d)
   ++ logged "standardize_dates" "Invalid dates removed"
        (newly_missing col_order_date (date_of now) d)
   ++ logged "clean_prices" "Invalid prices removed"
        (newly_missing col_price price_of d)
   ++ logged "clean_quantities" "Invalid quantities removed"
        (newly_missing col_quantity quantity_of d)
   ++ logged "standardize_categories" "Category variations consolidated"
        (variations_removed col_category categorize w)
   ++ logged "standardize_status" "Status variations consolidated"
        (variations_removed col_status restatus w))%list.

(** A row whose text cells are all the same text and whose other cells are
    missing; used for examples. *)
Definition text_row (customer email category status : string) : Row :=
  mkRow NaN (Val customer) (Val email) NaN NaN (Val "Lamp") (Val category)
    NaN NaN (Val status).

(** A row with the given price, to follow a price through the pipeline. *)
Definition priced_row (p : string) : Row :=
  mkRow (Val (Str "ORD1")) (Val "Ann Lee") (Val "ann@example.com")
    (Val "555-123-4567") (Val "2024-01-15") (Val "Lamp") (Val "Books")
    (Val (Str "1")) (Val (Str p)) (Val "Pending").

(** The text [parse_price] hands to [float]. *)
Definition price_text (s : string) : string :=
  replace "," "" (replace "$" "" (strip s)).

(** [k] hundredths is a value with two decimals nearest to [q]. *)
Definition rounded_to_cents (q : Q) (k : Z) : Prop :=
  (Qabs (q * 100 - inject_Z k) <= 1 # 2)%Q.

(** The price contract: what becomes of a present price. *)
Inductive price_spec (v : scalar) : cell scalar -> Prop :=
| price_unparseable :
    float_of_str price_text v = Raise ValueError -> price_spec v NaN
| price_not_a_number :
    float_of_str price_text v = Ok NaN -> price_spec v NaN
| price_not_positive x :
    float_of_str price_text v = Ok x -> le0 x = true -> price_spec v NaN
| price_infinite :
    float_of_str price_text v = Ok (Val (Inf false)) ->
    price_spec v (Val (Num (Inf false)))
| price_rounded (q : Qc) k :
    float_of_str price_text v = Ok (Val (Fin q)) -> (0 < q)%Q ->
    rounded_to_cents q k ->
    price_spec v (Val (Num (Fin (Q2Qc (k # 100))))).

(** The date contract: the formats are tried in order on the stripped text,
    the first one that reads it decides, and a date after [now] is
    rejected. *)
Inductive date_spec (now : datetime) (s : string) : cell string -> Prop :=
| date_unreadable :
    (forall fmt, In fmt date_formats ->
                 strptime (strip s) fmt = Raise ValueError) ->
    date_spec now s NaN
| date_in_future tried fmt rest d :
    date_formats = (tried ++ fmt :: rest)%list ->
    (forall f, In f tried -> strptime (strip s) f = Raise ValueError) ->
    strptime (strip s) fmt = Ok d ->
    datetime_gtb d now = true ->
    date_spec now s NaN
| date_rewritten tried fmt rest d :
    date_formats = (tried ++ fmt :: rest)%list ->
    (forall f, In f tried -> strptime (strip s) f = Raise ValueError) ->
    strptime (strip s) fmt = Ok d ->
    datetime_gtb d now = false ->
    date_spec now s (Val (strftime_Ymd d)).

(** The character of a decimal digit. *)
Definition digit (k : Z) : ascii := ascii_of_nat (Z.to_nat (48 + k)).

(** YYYY-MM-DD with the given digits. *)
Definition iso_text (y1 y2 y3 y4 m1 m2 d1 d2 : Z) : string :=
  String (digit y1) (String (digit y2) (String (digit y3) (String (digit y4)
    (String "-" (String (digit m1) (String (digit m2)
      (String "-" (String (digit d1) (String (digit d2) EmptyString))))))))).

(** [s] is the year, the month and the day written YYYY-MM-DD, zero-padded. *)
Definition iso_date (y m d : Z) (s : string) : Prop :=
  exists y1 y2 y3 y4 m1 m2 d1 d2,
    Forall (fun k => 0 <= k <= 9) [y1; y2; y3; y4; m1; m2; d1; d2]
    /\ y = 1000 * y1 + 100 * y2 + 10 * y3 + y4
    /\ m = 10 * m1 + m2
    /\ d = 10 * d1 + d2
    /\ s = iso_text y1 y2 y3 y4 m1 m2 d1 d2.

(** The keys of [category_mapping] that are their own title case: what the
    title-casing of an unknown category can produce and a later run would
    map. *)
Definition title_case_keys : list (cell string) :=
  [Val "Elec"; Val "Clot"; Val "Home"; Val "Book"].

(** A text cell that [clean_whitespace] leaves as it is and does not count. *)
Definition settled_text (c : cell string) : Prop :=
  clean_text c = c /\ has_whitespace c = false.

(** A row that every step, run at the time [now], leaves as it is. *)
Definition settled (now : datetime) (r : Row) : Prop :=
  settled_text (customer_name r)
  /\ settled_text (product_name r)
  /\ settled_text (category r)
  /\ settled_text (status r)
  /\ has_whitespace (email r) = false
  /\ validate_email (clean_text (email r)) = email r
  /\ format_phone (phone r) = phone r
  /\ date_of now (order_date r) = order_date r
  /\ price_of (price r) = price r
  /\ parse_quantity (quantity r) = Ok (quantity r)
  /\ categorize (category r) = category r
  /\ restatus (status r) = status r.

(** The entries of a run on a frame of settled rows. *)
Definition settled_log (df : list Row) : list LogEntry :=
  (mkLogEntry "clean_whitespace" "Whitespace cleaned in text fields" 0
   :: logged "standardize_emails" "Invalid emails removed"
        (len (filter (fun r => isna (email r)) df)))%list.

(** * Further properties: definitions *)

(** The four statuses [status_mapping] maps to. *)
Definition canonical_statuses : list string :=
  ["Pending"; "Shipped"; "Delivered"; "Cancelled"].

(** The number of times [c] occurs in [s] ([s.count(c)]). *)
Fixpoint occurrences (c : ascii) (s : string) : nat :=
  match s with
  | EmptyString => O
  | String a s' => ((if Ascii.eqb a c then 1 else 0) + occurrences c s')%nat
  end.


(** Text that [float] reads as an infinity: blanks around an optional sign
    and the word inf or infinity, in any case. *)
Definition infinity_text (s : string) : bool :=
  let w := lower (snd (sign (strip s))) in
  String.eqb w "inf" || String.eqb w "infinity".

(** A quantity cell that holds an infinity, as a number or as text. *)
Definition infinite_quantity (c : cell scalar) : bool :=
  match c with
  | NaN => false
  | Val (Num (Inf _)) => true
  | Val (Num (Fin _)) => false
  | Val (Str s) => infinity_text s
  end.

(** The names under which the steps of [run_cleaning_pipeline] log, in the
    order of the calls. *)
Definition pipeline_steps : list string :=
  ["remove_duplicates"; "clean_whitespace"; "standardize_emails";
   "clean_phone_numbers"; "standardize_dates"; "clean_prices";
   "clean_quantities"; "standardize_categories"; "standardize_status"].

(** Whether [l] is [names] with some elements left out. *)
Fixpoint subsequence (l names : list string) : bool :=
  match l, names with
  | [], _ => true
  | _ :: _, [] => false
  | a :: l', b :: names' =>
      if String.eqb a b then subsequence l' names' else subsequence l names'
  end.

(** The classes of characters that tell the five date formats apart. *)
Inductive char_class := Digit | Blank | Slash | Dash | Letter | Other.

Definition classify (c : ascii) : char_class :=
  if isdigit c then Digit
  else if isspace c then Blank
  else if Ascii.eqb c "/" then Slash
  else if Ascii.eqb c "-" then Dash
  else if isalpha c then Letter
  else Other.

(** The classes of the first [n] characters. *)
Fixpoint classes (n : nat) (s : string) : list char_class :=
  match n, s with
  | S n', String c s' => classify c :: classes n' s'
  | _, _ => []
  end.

(** The format of [date_formats] that the first three characters of a text
    leave possible. *)
Definition format_for (s : string) : option string :=
  match classes 3 s with
  | Digit :: Slash :: _ | Digit :: Digit :: Slash :: _ => Some "%m/%d/%Y"
  | Digit :: Dash :: _ | Digit :: Digit :: Dash :: _
  | Blank :: Digit :: Dash :: _ => Some "%d-%m-%Y"
  | Digit :: Digit :: Digit :: _ => Some "%Y-%m-%d"
  | Letter :: _ => Some "%b %d, %Y"
  | Digit :: Blank :: _ | Digit :: Digit :: Blank :: _
  | Blank :: Digit :: Blank :: _ => Some "%d %B %Y"
  | _ => None
  end.

(** [s.split()]: the maximal runs of characters that are not blanks. *)
Fixpoint words (s : string) : list string :=
  match s with
  | EmptyString => []
  | String c s' =>
      if isspace c then words s'
      else match words s', s' with
           | w :: l, String c' _ =>
               if isspace c' then String c EmptyString :: w :: l
               else String c w :: l
           | _, _ => [String c EmptyString]
           end
  end.

(** [sep.join(l)] *)
Fixpoint join (sep : string) (l : list string) : string :=
  match l with
  | [] => EmptyString
  | [w] => w
  | w :: l' => w ++ sep ++ join sep l'
  end.
(** * Properties *)

(** ** Characters *)

Ltac by_cases_on_char c :=
  destruct c as [[] [] [] [] [] [] [] []]; try reflexivity; try discriminate.

Lemma lower_char_idem c : lower_char (lower_char c) = lower_char c.
Proof. by_cases_on_char c. Qed.

Lemma isspace_lower_char c : isspace (lower_char c) = isspace c.
Proof. by_cases_on_char c. Qed.

Lemma isspace_upper_char c : isspace (upper_char c) = isspace c.
Proof. by_cases_on_char c. Qed.

Lemma isalpha_lower_char c : isalpha (lower_char c) = isalpha c.
Proof. by_cases_on_char c. Qed.

Lemma isalpha_upper_char c : isalpha (upper_char c) = isalpha c.
Proof. by_cases_on_char c. Qed.

Lemma upper_idem_char c : upper_char (upper_char c) = upper_char c.
Proof. by_cases_on_char c. Qed.

(** ** The library models on concrete inputs *)

Example strip_examples :
  strip "  a b 	" = "a b" /\ strip "" = "" /\ strip "   " = ""
  /\ sub_ws_runs false "a  b 	 c" = "a b c".
Proof. repeat split; reflexivity. Qed.

Example title_examples :
  title "outdoor gear" = "Outdoor Gear" /\ title "HOME & GARDEN" = "Home & Garden"
  /\ title "o'neil 3d" = "O'Neil 3D" /\ lower "JOHN.Doe@Example.COM" = "john.doe@example.com".
Proof. repeat split; reflexivity. Qed.

Example strptime_examples :
  strptime "01/15/2024" "%m/%d/%Y" = Ok (mkdatetime 2024 1 15 0 0 0 0)
  /\ strptime "1/5/2024" "%m/%d/%Y" = Ok (mkdatetime 2024 1 5 0 0 0 0)
  /\ strptime "15-01-2024" "%d-%m-%Y" = Ok (mkdatetime 2024 1 15 0 0 0 0)
  /\ strptime "2024-02-29" "%Y-%m-%d" = Ok (mkdatetime 2024 2 29 0 0 0 0)
  /\ strptime "2023-02-29" "%Y-%m-%d" = Raise ValueError
  /\ strptime "jan  5, 2024" "%b %d, %Y" = Ok (mkdatetime 2024 1 5 0 0 0 0)
  /\ strptime "Jan 5,2024" "%b %d, %Y" = Raise ValueError
  /\ strptime "15 JANUARY 2024" "%d %B %Y" = Ok (mkdatetime 2024 1 15 0 0 0 0)
  /\ strptime "2024-01-15 " "%Y-%m-%d" = Raise ValueError
  /\ strptime "0000-01-15" "%Y-%m-%d" = Raise ValueError.
Proof. repeat split; vm_compute; reflexivity. Qed.

Example float_examples :
  float "1299.99" = Ok (Val (Fin (Q2Qc (129999 # 100))))
  /\ float " -5 " = Ok (Val (Fin (Q2Qc (- 5 # 1))))
  /\ float "1e3" = Ok (Val (Fin (Q2Qc (1000 # 1))))
  /\ float ".5" = Ok (Val (Fin (Q2Qc (1 # 2))))
  /\ float "1_000." = Ok (Val (Fin (Q2Qc (1000 # 1))))
  /\ float "-Infinity" = Ok (Val (Inf true))
  /\ float "NaN" = Ok NaN
  /\ float "" = Raise ValueError
  /\ float "1,5" = Raise ValueError
  /\ float "5e" = Raise ValueError
  /\ float "1__0" = Raise ValueError.
Proof.
  repeat split; vm_compute;
    first [reflexivity | do 3 f_equal; apply Qc_is_canon; reflexivity].
Qed.

Example re_match_examples :
  re_match email_pattern "john.doe@example.com" = true
  /\ re_match email_pattern "john.doe@example" = false
  /\ re_match email_pattern "@example.com" = false
  /\ re_match email_pattern "john doe@example.com" = false
  /\ re_match email_pattern "john@example.c" = false
  /\ re_match email_pattern "John@Example.com" = true.
Proof. repeat split; reflexivity. Qed.

(** ** Columns *)

Lemma setcol_map {A} (col : column A) (f : cell A -> cell A) df :
  setcol col df (map f (getcol col df)) = on_column col f df.
Proof.
  unfold getcol, on_column.
  induction df as [|r df IH]; simpl; [reflexivity | now rewrite IH].
Qed.

Lemma apply_total {A B} (f : A -> result B) (g : A -> B) col :
  (forall a, f a = Ok (g a)) -> apply f col = Ok (map g col).
Proof.
  intros H. induction col as [|a col IH]; simpl; [reflexivity|].
  now rewrite H, IH.
Qed.

(** A step that never fills a missing cell loses exactly the cells it turns
    missing. *)
Lemma notna_count_diff {A} (f : cell A -> cell A) (col : list (cell A)) :
  f NaN = NaN ->
  List.length (filter notna col)
  = (List.length (filter notna (map f col))
     + List.length (filter (fun c => notna c && isna (f c)) col))%nat.
Proof.
  intros HN. induction col as [|c col IH]; [reflexivity|].
  destruct c as [|a]; simpl.
  - rewrite HN. exact IH.
  - destruct (f (Val a)); simpl; lia.
Qed.

Lemma notna_sum_diff {A} (f : cell A -> cell A) (col : list (cell A)) :
  f NaN = NaN ->
  notna_sum col - notna_sum (map f col)
  = len (filter (fun c => notna c && isna (f c)) col).
Proof.
  intros HN. unfold notna_sum, len.
  rewrite (notna_count_diff f col HN). lia.
Qed.

Lemma filter_getcol {A} (col : column A) (p : cell A -> bool) df :
  List.length (filter p (getcol col df))
  = List.length (filter (fun r => p (get col r)) df).
Proof.
  unfold getcol. induction df as [|r df IH]; simpl; [reflexivity|].
  destruct (p (get col r)); simpl; now rewrite IH.
Qed.

Lemma notna_sum_newly_missing {A} (col : column A) (f : cell A -> cell A) df :
  f NaN = NaN ->
  notna_sum (getcol col df) - notna_sum (map f (getcol col df))
  = newly_missing col f df.
Proof.
  intros HN. rewrite (notna_sum_diff f _ HN).
  unfold newly_missing, len. now rewrite filter_getcol.
Qed.

Lemma gtb_ltb (a : Z) : (a >? 0) = (0 <? a).
Proof. apply Z.gtb_ltb. Qed.

(** What a guarded [log_change] leaves in the log. *)
Lemma guarded_log self s d n :
  cleaning_log (if n >? 0 then log_change self s d n else self)
  = (cleaning_log self ++ logged s d n)%list.
Proof.
  unfold logged. rewrite gtb_ltb. destruct (0 <? n); simpl.
  - reflexivity.
  - now rewrite app_nil_r.
Qed.

Lemma guarded_df self s d n :
  df (if n >? 0 then log_change self s d n else self) = df self.
Proof. now destruct (n >? 0). Qed.

(** ** Phone numbers *)

Lemma sub_nondigits_digits p : sforall isdigit (sub_nondigits p) = true.
Proof.
  unfold sub_nondigits. induction p as [|c p IH]; simpl; [reflexivity|].
  destruct (isdigit c) eqn:E; simpl; [now rewrite E | exact IH].
Qed.

Lemma format_phone_refines p : phone_spec p (format_phone (Val p)).
Proof.
  unfold format_phone.
  destruct (sub_nondigits p)
    as [|a [|b [|c [|d [|e [|f [|g [|h [|i [|j [|k [|l r]]]]]]]]]]]] eqn:E;
    try (apply phone_other; rewrite E; simpl;
         [lia | intros [H _]; simpl in H; lia]).
  - (* ten digits *)
    simpl. now apply phone_ten.
  - (* eleven digits *)
    cbn [String.length Nat.eqb startswith andb].
    destruct (Ascii.eqb "1" a) eqn:Ha; cbn [andb].
    + apply Ascii.eqb_eq in Ha. subst a. simpl. now apply phone_eleven.
    + simpl. apply phone_other; rewrite E; simpl; [lia|].
      intros [_ [r Hr]]. injection Hr as Hr _. subst a.
      now rewrite Ascii.eqb_refl in Ha.
Qed.

Lemma clean_phone_numbers_df self :
  df (clean_phone_numbers self) = on_column col_phone format_phone (df self).
Proof.
  unfold clean_phone_numbers. rewrite guarded_df. simpl.
  apply setcol_map.
Qed.

Lemma getcol_on_column_phone f df :
  getcol col_phone (on_column col_phone f df) = map f (getcol col_phone df).
Proof. unfold getcol, on_column. rewrite !map_map. reflexivity. Qed.

Lemma clean_phone_numbers_log self :
  cleaning_log (clean_phone_numbers self)
  = (cleaning_log self
     ++ logged "clean_phone_numbers" "Invalid phone numbers removed"
          (newly_missing col_phone format_phone (df self)))%list.
Proof.
  unfold clean_phone_numbers. rewrite guarded_log. simpl.
  rewrite setcol_map, getcol_on_column_phone.
  now rewrite notna_sum_newly_missing.
Qed.

(** C5. [clean_phone_numbers] rewrites the phone of every row with
    [format_phone]: a missing phone stays missing; a present one is reduced to
    its decimal digits, a leading 1 is dropped when exactly eleven digits
    remain, ten digits are written DDD-DDD-DDDD and any other number of digits
    gives a missing cell; "(555) 123-4567" becomes "555-123-4567".  The count
    it logs is the number of rows whose phone was present and came out
    missing, and it is logged when positive. *)
Theorem C5_clean_phone_numbers :
  (forall self,
      df (clean_phone_numbers self)
      = on_column col_phone format_phone (df self)
      /\ cleaning_log (clean_phone_numbers self)
         = (cleaning_log self
            ++ logged "clean_phone_numbers" "Invalid phone numbers removed"
                 (newly_missing col_phone format_phone (df self)))%list)
  /\ format_phone NaN = NaN
  /\ (forall p, phone_spec p (format_phone (Val p)))
  /\ (forall p, sforall isdigit (sub_nondigits p) = true)
  /\ format_phone (Val "(555) 123-4567") = Val "555-123-4567".
Proof.
  split; [|split; [|split; [|split]]].
  - intros self. split.
    + apply clean_phone_numbers_df.
    + apply clean_phone_numbers_log.
  - reflexivity.
  - apply format_phone_refines.
  - apply sub_nondigits_digits.
  - reflexivity.
Qed.

(** ** Categories *)

Lemma lookup_Some d k v : lookup d k = Some v -> In (k, v) d.
Proof.
  induction d as [|[k' v'] d IH]; simpl; [discriminate|].
  destruct (String.eqb k k') eqn:E.
  - apply String.eqb_eq in E. subst k'. intros [= ->]. now left.
  - intros H. right. now apply IH.
Qed.

Lemma lookup_None d k : lookup d k = None -> forall v, ~ In (k, v) d.
Proof.
  induction d as [|[k' v'] d IH]; simpl; [now intros _ v []|].
  destruct (String.eqb k k') eqn:E; [discriminate|].
  intros H v [[= <- <-]|Hin].
  - now rewrite String.eqb_refl in E.
  - now apply (IH H v).
Qed.

Ltac in_list := simpl; repeat (first [left; reflexivity | right]).

(** Every value of [category_mapping] is canonical and is its own title
    case. *)
Lemma category_values_canonical k v :
  In (k, v) category_mapping -> In v canonical_categories /\ title v = v.
Proof.
  intros H. simpl in H.
  repeat (destruct H as [[= <- <-]|H]; [split; [in_list | reflexivity]|]).
  destruct H.
Qed.

Lemma categorize_refines s :
  exists v, categorize (Val s) = Val v /\ category_spec s v.
Proof.
  unfold categorize, series_replace, str_method.
  destruct (lookup category_mapping s) as [v|] eqn:E.
  - exists v. apply lookup_Some in E.
    destruct (category_values_canonical _ _ E) as [Hc Ht].
    rewrite Ht. split; [reflexivity|]. now apply category_known with (v := v).
  - exists (title s). split; [reflexivity|].
    apply category_unknown. now apply lookup_None.
Qed.

Lemma on_column_compose {A} (col : column A) (f g : cell A -> cell A) df :
  (forall r v, get col (set col r v) = v) ->
  (forall r v w, set col (set col r v) w = set col r w) ->
  on_column col g (on_column col f df)
  = on_column col (fun c => g (f c)) df.
Proof.
  intros Hget Hset. unfold on_column. rewrite map_map.
  apply map_ext. intros r. now rewrite Hget, Hset.
Qed.

Lemma standardize_categories_df self :
  df (standardize_categories self) = on_column col_category categorize (df self).
Proof.
  unfold standardize_categories. rewrite guarded_df. simpl.
  rewrite !setcol_map.
  now rewrite on_column_compose by reflexivity.
Qed.


(** ** Whitespace *)

Lemma ends_blank_cons b c s : ends_blank b (String c s) = ends_blank (isspace c) s.
Proof. reflexivity. Qed.

Lemma lstrip_head s :
  match lstrip s with
  | EmptyString => True
  | String c _ => isspace c = false
  end.
Proof.
  induction s as [|c s IH]; simpl; [exact I|].
  destruct (isspace c) eqn:E; [exact IH | exact E].
Qed.

Lemma rstrip_ends b s : ends_blank b (rstrip s) = b \/ ends_blank b (rstrip s) = false.
Proof.
  revert b. induction s as [|c s IH]; intros b; simpl; [now left|].
  destruct (rstrip s) as [|d r] eqn:E.
  - destruct (isspace c) eqn:Ec; simpl; [now left | right; exact Ec].
  - right. rewrite ends_blank_cons.
    destruct (IH (isspace c)) as [H|H]; rewrite ends_blank_cons in *.
    + (* the rest is not empty, so its end does not depend on [b] *)
      destruct (IH false) as [H'|H']; rewrite ends_blank_cons in H'; exact H'.
    + exact H.
Qed.

Lemma rstrip_ends_false s : ends_blank false (rstrip s) = false.
Proof. now destruct (rstrip_ends false s). Qed.

Lemma rstrip_head c s :
  isspace c = false -> exists r, rstrip (String c s) = String c r.
Proof.
  intros Hc. simpl. destruct (rstrip s) as [|d r].
  - rewrite Hc. now exists EmptyString.
  - now exists (String d r).
Qed.

Lemma strip_head s :
  match strip s with
  | EmptyString => True
  | String c _ => isspace c = false
  end.
Proof.
  unfold strip. pose proof (lstrip_head s) as H.
  destruct (lstrip s) as [|c t]; [exact I|].
  destruct (rstrip_head c t H) as [r ->]. exact H.
Qed.

Lemma strip_ends s : ends_blank false (strip s) = false.
Proof. apply rstrip_ends_false. Qed.

Lemma sub_ws_runs_tidy_from s : forall b,
  ends_blank b s = false -> tidy_from b (sub_ws_runs b s) = true.
Proof.
  induction s as [|c s IH]; intros b H; simpl in *.
  - now rewrite H.
  - destruct (isspace c) eqn:Ec.
    + destruct b; simpl.
      * now apply IH.
      * now rewrite IH.
    + simpl. rewrite Ec. now apply IH.
Qed.

Lemma sub_ws_runs_head c s :
  isspace c = false ->
  sub_ws_runs false (String c s) = String c (sub_ws_runs false s).
Proof. intros H. simpl. now rewrite H. Qed.

Lemma tidy_sub_ws_runs_strip s : tidy (sub_ws_runs false (strip s)) = true.
Proof.
  pose proof (strip_head s) as Hh. pose proof (strip_ends s) as He.
  destruct (strip s) as [|c t]; [reflexivity|].
  pose proof (sub_ws_runs_tidy_from (String c t) false He) as Ht.
  rewrite sub_ws_runs_head in * by exact Hh.
  unfold tidy. now rewrite Hh, Ht.
Qed.

Lemma tidy_from_no_tab s : forall b,
  tidy_from b s = true -> replace tab " " s = s.
Proof.
  induction s as [|c s IH]; intros b H; simpl in *; [reflexivity|].
  destruct (Ascii.eqb c tab) eqn:Et.
  - apply Ascii.eqb_eq in Et. subst c. discriminate H.
  - f_equal. destruct (isspace c).
    + apply andb_prop in H as [_ H]. now apply (IH true).
    + now apply (IH false).
Qed.

Lemma tidy_tidy_from s : tidy s = true -> tidy_from false s = true.
Proof.
  destruct s as [|c s]; [reflexivity|].
  unfold tidy. intros H. now apply andb_prop in H as [_ H].
Qed.

Lemma tidy_no_tab s : tidy s = true -> replace tab " " s = s.
Proof. intros H. apply (tidy_from_no_tab s false). now apply tidy_tidy_from. Qed.

Lemma tidy_from_sub_ws_runs s : forall b,
  tidy_from b s = true -> sub_ws_runs b s = s.
Proof.
  induction s as [|c s IH]; intros b H; simpl in *; [reflexivity|].
  destruct (isspace c) eqn:Ec.
  - apply andb_prop in H as [H Hs]. apply andb_prop in H as [Hc Hb].
    apply Ascii.eqb_eq in Hc. subst c.
    destruct b; [discriminate|]. now rewrite IH.
  - now rewrite IH.
Qed.

Lemma tidy_from_ends s : forall b, tidy_from b s = true -> ends_blank b s = false.
Proof.
  induction s as [|c s IH]; intros b H; simpl in *.
  - now destruct b.
  - destruct (isspace c) eqn:Ec.
    + apply andb_prop in H as [_ H]. now apply IH.
    + now apply IH.
Qed.

Lemma rstrip_fixed s : forall b, ends_blank b s = false -> rstrip s = s.
Proof.
  induction s as [|c s IH]; intros b H; simpl in *; [reflexivity|].
  rewrite (IH _ H). destruct s as [|d s]; [|reflexivity].
  simpl in H. now rewrite H.
Qed.

Lemma tidy_strip s : tidy s = true -> strip s = s.
Proof.
  intros H. unfold strip.
  destruct s as [|c s]; [reflexivity|].
  unfold tidy in H. apply andb_prop in H as [Hc H].
  apply negb_true_iff in Hc. simpl lstrip. rewrite Hc.
  apply (rstrip_fixed _ false). now apply tidy_from_ends.
Qed.

(** The text of a cleaned cell, and that cleaning a tidy text changes
    nothing. *)
Lemma clean_text_tidy c : exists s, clean_text c = Val s /\ tidy s = true.
Proof.
  unfold clean_text. eexists. split; [reflexivity|].
  rewrite tidy_no_tab; apply tidy_sub_ws_runs_strip.
Qed.

Lemma clean_text_fixed s : tidy s = true -> clean_text (Val s) = Val s.
Proof.
  intros H. unfold clean_text. simpl.
  rewrite (tidy_strip s H).
  rewrite (tidy_from_sub_ws_runs s false (tidy_tidy_from s H)).
  now rewrite tidy_no_tab.
Qed.

Lemma has_whitespace_tidy s : tidy s = true -> has_whitespace (Val s) = false.
Proof.
  intros H. unfold has_whitespace. simpl.
  now rewrite (tidy_strip s H), String.eqb_refl.
Qed.

Lemma tidy_from_smap f s : forall b,
  (forall c, isspace (f c) = isspace c) ->
  (forall c, isspace c = true -> f c = c) ->
  tidy_from b (smap f s) = tidy_from b s.
Proof.
  intros b Hs Hf. revert b.
  induction s as [|c s IH]; intros b; simpl; [reflexivity|].
  rewrite Hs. destruct (isspace c) eqn:Ec.
  - now rewrite (Hf c Ec), IH.
  - apply IH.
Qed.

Lemma lower_char_space c : isspace c = true -> lower_char c = c.
Proof. by_cases_on_char c. Qed.

Lemma upper_char_space c : isspace c = true -> upper_char c = c.
Proof. by_cases_on_char c. Qed.

Lemma tidy_lower s : tidy (lower s) = tidy s.
Proof.
  destruct s as [|c s]; [reflexivity|].
  unfold tidy, lower. cbn [smap]. rewrite isspace_lower_char. f_equal.
  apply (tidy_from_smap lower_char (String c s) false);
    [apply isspace_lower_char | apply lower_char_space].
Qed.

Lemma tidy_from_title s : forall b p,
  tidy_from b (title_from p s) = tidy_from b s.
Proof.
  induction s as [|c s IH]; intros b p; simpl; [reflexivity|].
  destruct p.
  - rewrite isspace_lower_char. destruct (isspace c) eqn:Ec.
    + now rewrite (lower_char_space c Ec), IH.
    + apply IH.
  - rewrite isspace_upper_char. destruct (isspace c) eqn:Ec.
    + now rewrite (upper_char_space c Ec), IH.
    + apply IH.
Qed.

Lemma tidy_title s : tidy (title s) = tidy s.
Proof.
  destruct s as [|c s]; [reflexivity|].
  unfold tidy, title. cbn [title_from]. rewrite isspace_upper_char. f_equal.
  apply (tidy_from_title (String c s) false false).
Qed.

(** *** The step *)

Lemma getcol_on_column {A} (col : column A) f df :
  lawful col ->
  getcol col (on_column col f df) = map f (getcol col df).
Proof.
  intros [Hget _]. unfold getcol, on_column. rewrite !map_map.
  apply map_ext. intros r. apply Hget.
Qed.

Lemma mask_sum_map {A} (p : A -> bool) (l : list A) :
  mask_sum (map p l) = len (filter p l).
Proof.
  unfold mask_sum, len. f_equal.
  induction l as [|a l IH]; simpl; [reflexivity|].
  destruct (p a); simpl; now rewrite IH.
Qed.

Lemma len_nonneg {A} (l : list A) : 0 <= len l.
Proof. unfold len. lia. Qed.

Lemma clean_whitespace_col_eq df total col :
  lawful col ->
  clean_whitespace_col (df, total) col
  = (on_column col clean_text df, total + whitespace_count col df).
Proof.
  intros L. unfold clean_whitespace_col. cbv zeta.
  f_equal.
  - rewrite !setcol_map.
    rewrite !on_column_compose by apply L.
    reflexivity.
  - assert (E : mask_sum
                 (map (fun c => negb (String.eqb (strip (astype_str c))
                                                 (astype_str c)))
                      (getcol col df))
               = whitespace_count col df).
    { unfold whitespace_count, getcol. rewrite map_map.
      apply (mask_sum_map (fun r => has_whitespace (get col r))). }
    rewrite E. clear E.
    pose proof (len_nonneg (filter (fun r => has_whitespace (get col r)) df)) as Hn.
    fold (whitespace_count col df) in Hn.
    destruct (whitespace_count col df >? 0) eqn:E; [reflexivity|].
    rewrite gtb_ltb in E. apply Z.ltb_ge in E. lia.
Qed.

Ltac lawful_col := split; intros; reflexivity.

Lemma whitespace_count_other (col col' : column string) f df :
  (forall r v, get col (set col' r v) = get col r) ->
  whitespace_count col (on_column col' f df) = whitespace_count col df.
Proof.
  intros H. unfold whitespace_count, on_column, len. f_equal.
  induction df as [|r df IH]; simpl; [reflexivity|].
  rewrite H. destruct (has_whitespace (get col r)); simpl; now rewrite IH.
Qed.

Lemma clean_whitespace_eq self :
  clean_whitespace self
  = log_change (with_df self (map clean_whitespace_row (df self)))
      "clean_whitespace" "Whitespace cleaned in text fields"
      (total_whitespace (df self)).
Proof.
  unfold clean_whitespace, text_columns. cbn [fold_left].
  rewrite !clean_whitespace_col_eq by lawful_col.
  rewrite !whitespace_count_other by reflexivity.
  replace (0 + whitespace_count col_customer_name (df self)
           + whitespace_count col_email (df self)
           + whitespace_count col_product_name (df self)
           + whitespace_count col_category (df self)
           + whitespace_count col_status (df self))
    with (total_whitespace (df self)) by (unfold total_whitespace; lia).
  unfold on_column. rewrite !map_map. reflexivity.
Qed.

(** ** Regular expressions: matching by derivatives is sound and complete *)

Lemma nullable_lang r : nullable r = true <-> lang r "".
Proof.
  split.
  - induction r; simpl; intros H; try discriminate.
    + constructor.
    + apply andb_prop in H as [H1 H2].
      change "" with ("" ++ ""). constructor; auto.
    + apply orb_prop in H as [H|H]; [apply lang_alt_l | apply lang_alt_r]; auto.
    + constructor.
  - intros H. remember "" as s eqn:Es.
    induction H; simpl; try reflexivity; try discriminate.
    + destruct s1; [|discriminate]. destruct s2; [|discriminate].
      now rewrite IHlang1, IHlang2.
    + now rewrite IHlang.
    + rewrite IHlang by assumption. apply orb_true_r.
Qed.

Lemma lang_star_cons r c s :
  lang (Star r) (String c s) ->
  exists s1 s2, s = s1 ++ s2 /\ lang r (String c s1) /\ lang (Star r) s2.
Proof.
  intros H. remember (Star r) as r' eqn:Er. remember (String c s) as t eqn:Et.
  revert c s Et. induction H; intros c0 s0 Et; try discriminate.
  injection Er as ->.
  destruct s1 as [|d s1].
  - simpl in Et. now apply IHlang2.
  - simpl in Et. injection Et as -> <-. now exists s1, s2.
Qed.

Lemma deriv_sound c r : forall s, lang (deriv c r) s -> lang r (String c s).
Proof.
  induction r; intros s H; simpl in H.
  - inversion H.
  - inversion H.
  - destruct (p c) eqn:E; inversion H; subst. now constructor.
  - destruct (nullable r1) eqn:N.
    + inversion H; subst.
      * match goal with Hc : lang (Cat _ _) _ |- _ => inversion Hc; subst end.
        change (String c (s1 ++ s2)) with (String c s1 ++ s2).
        constructor; auto.
      * change (String c s) with ("" ++ String c s).
        constructor; [now apply nullable_lang | auto].
    + inversion H; subst.
      change (String c (s1 ++ s2)) with (String c s1 ++ s2).
      constructor; auto.
  - inversion H; subst; [apply lang_alt_l | apply lang_alt_r]; auto.
  - inversion H; subst.
    change (String c (s1 ++ s2)) with (String c s1 ++ s2).
    constructor; auto.
Qed.

Lemma deriv_complete c r : forall s, lang r (String c s) -> lang (deriv c r) s.
Proof.
  induction r; intros s H; simpl.
  - inversion H.
  - inversion H.
  - inversion H; subst.
    match goal with Hp : p c = true |- _ => rewrite Hp end. constructor.
  - inversion H; subst.
    destruct s1 as [|d s1].
    + match goal with
      | Hs : "" ++ _ = String _ _ |- _ => simpl in Hs; subst s2
      end.
      match goal with
      | Hn : lang r1 "" |- _ => apply nullable_lang in Hn; rewrite Hn
      end.
      apply lang_alt_r. auto.
    + match goal with
      | Hs : String d s1 ++ _ = String _ _ |- _ =>
          simpl in Hs; injection Hs as -> <-
      end.
      destruct (nullable r1); [apply lang_alt_l|]; constructor; auto.
  - inversion H; subst; [apply lang_alt_l | apply lang_alt_r]; auto.
  - apply lang_star_cons in H as (s1 & s2 & -> & H1 & H2).
    constructor; auto.
Qed.

Theorem fullmatch_lang r s : fullmatch r s = true <-> lang r s.
Proof.
  revert r. induction s as [|c s IH]; intros r; simpl.
  - apply nullable_lang.
  - rewrite IH. split; [apply deriv_sound | apply deriv_complete].
Qed.

(** ** E-mail addresses *)

Lemma append_empty_r s : s ++ "" = s.
Proof. induction s as [|c s IH]; simpl; [reflexivity | now rewrite IH]. Qed.

Lemma lang_cat_iff r1 r2 s :
  lang (Cat r1 r2) s <-> exists s1 s2, s = s1 ++ s2 /\ lang r1 s1 /\ lang r2 s2.
Proof.
  split.
  - intros H. inversion H; subst. now exists s1, s2.
  - intros (s1 & s2 & -> & H1 & H2). now constructor.
Qed.

Lemma lang_chr_iff p s :
  lang (Chr p) s <-> exists c, s = String c "" /\ p c = true.
Proof.
  split.
  - intros H. inversion H; subst. now exists c.
  - intros (c & -> & H). now constructor.
Qed.

Lemma lang_star_chr p s : lang (Star (Chr p)) s <-> sforall p s = true.
Proof.
  split.
  - intros H. remember (Star (Chr p)) as r eqn:Er.
    induction H; try discriminate; [reflexivity|].
    injection Er as ->.
    apply lang_chr_iff in H as (c & -> & Hc). simpl. rewrite Hc. now apply IHlang2.
  - induction s as [|c s IH]; simpl; intros H; [constructor|].
    apply andb_prop in H as [Hc Hs].
    change (String c s) with (String c "" ++ s).
    constructor; [now constructor | now apply IH].
Qed.

Lemma lang_plus_chr p s :
  lang (Plus (Chr p)) s <-> s <> "" /\ sforall p s = true.
Proof.
  unfold Plus. rewrite lang_cat_iff. split.
  - intros (s1 & s2 & -> & H1 & H2).
    apply lang_chr_iff in H1 as (c & -> & Hc). apply lang_star_chr in H2.
    simpl. rewrite Hc. now split.
  - intros [Hne H]. destruct s as [|c s]; [now elim Hne|].
    simpl in H. apply andb_prop in H as [Hc Hs].
    exists (String c ""), s. repeat split.
    + now apply lang_chr_iff; exists c.
    + now apply lang_star_chr.
Qed.

Lemma lang_atleast2_chr p s :
  lang (AtLeast2 (Chr p)) s <-> (2 <= String.length s)%nat /\ sforall p s = true.
Proof.
  unfold AtLeast2. rewrite lang_cat_iff. split.
  - intros (s1 & s2 & -> & H1 & H2).
    apply lang_chr_iff in H1 as (c & -> & Hc).
    apply lang_cat_iff in H2 as (s3 & s4 & -> & H3 & H4).
    apply lang_chr_iff in H3 as (d & -> & Hd). apply lang_star_chr in H4.
    simpl. rewrite Hc, Hd. split; [lia | assumption].
  - intros [Hl H]. destruct s as [|c [|d s]]; simpl in Hl; try lia.
    simpl in H. apply andb_prop in H as [Hc H]. apply andb_prop in H as [Hd Hs].
    exists (String c ""), (String d s). repeat split.
    + now apply lang_chr_iff; exists c.
    + apply lang_cat_iff. exists (String d ""), s. repeat split.
      * now apply lang_chr_iff; exists d.
      * now apply lang_star_chr.
Qed.

Lemma lang_one_char c0 s : lang (Chr (Ascii.eqb c0)) s <-> s = String c0 "".
Proof.
  rewrite lang_chr_iff. split.
  - intros (c & -> & H). apply Ascii.eqb_eq in H. now subst.
  - intros ->. exists c0. split; [reflexivity | apply Ascii.eqb_refl].
Qed.

(** The body of the pattern denotes the addresses of the contract. *)
Lemma email_body_shape s : lang email_body s <-> email_shape s.
Proof.
  unfold email_body, email_shape. rewrite lang_cat_iff. split.
  - intros (l & s1 & -> & Hl & H).
    apply lang_cat_iff in H as (a & s2 & -> & Ha & H).
    apply lang_cat_iff in H as (d & s3 & -> & Hd & H).
    apply lang_cat_iff in H as (o & t & -> & Ho & Ht).
    apply lang_one_char in Ha, Ho. subst a o.
    apply lang_plus_chr in Hl as [? ?], Hd as [? ?].
    apply lang_atleast2_chr in Ht as [? ?].
    exists l, d, t. repeat split; assumption.
  - intros (l & d & t & -> & ? & ? & ? & ? & ? & ?).
    exists l, ("@" ++ d ++ "." ++ t). repeat split.
    + now apply lang_plus_chr.
    + apply lang_cat_iff. exists "@", (d ++ "." ++ t). repeat split.
      * now apply lang_one_char.
      * apply lang_cat_iff. exists d, ("." ++ t). repeat split.
        -- now apply lang_plus_chr.
        -- apply lang_cat_iff. exists ".", t. repeat split.
           ++ now apply lang_one_char.
           ++ now apply lang_atleast2_chr.
Qed.

(** What [re.match] accepts with the pattern: an address, or an address
    followed by one newline (the [$] of Python stands before a final
    newline too). *)
Lemma re_match_email s :
  re_match email_pattern s = true
  <-> email_shape s \/ exists e, s = e ++ newline /\ email_shape e.
Proof.
  unfold re_match, email_pattern. rewrite fullmatch_lang, lang_cat_iff.
  split.
  - intros (e & t & -> & He & Ht). apply email_body_shape in He.
    inversion Ht; subst.
    + match goal with Hx : lang Eps _ |- _ => inversion Hx; subst end.
      left. now rewrite append_empty_r.
    + match goal with Hx : lang (Chr _) _ |- _ =>
        apply lang_one_char in Hx; subst end.
      right. now exists e.
  - intros [H|(e & -> & H)]; apply email_body_shape in H.
    + exists s, "". repeat split; [now rewrite append_empty_r | assumption|].
      apply lang_alt_l. constructor.
    + exists e, newline. repeat split; [assumption|].
      apply lang_alt_r. now apply lang_one_char.
Qed.

Lemma ends_blank_append_newline b e : ends_blank b (e ++ newline) = true.
Proof.
  revert b. induction e as [|c e IH]; intros b; simpl; [reflexivity | apply IH].
Qed.

Lemma tidy_not_newline_ended e : tidy (e ++ newline) = false.
Proof.
  destruct (tidy (e ++ newline)) eqn:E; [|reflexivity].
  apply tidy_tidy_from, tidy_from_ends in E.
  now rewrite ends_blank_append_newline in E.
Qed.

(** On tidy text, as [clean_whitespace] leaves it, [re.match] accepts exactly
    the addresses. *)
Lemma re_match_email_tidy s :
  tidy s = true -> re_match email_pattern s = true -> email_shape s.
Proof.
  intros Ht H. apply re_match_email in H as [H|(e & -> & _)]; [exact H|].
  now rewrite tidy_not_newline_ended in Ht.
Qed.

Lemma lower_idem s : lower (lower s) = lower s.
Proof.
  unfold lower. induction s as [|c s IH]; simpl; [reflexivity|].
  now rewrite lower_char_idem, IH.
Qed.

(** *** The step *)

Lemma invalid_mask_map (f : cell string -> bool) col :
  invalid_mask (map f col) col = map (fun c => negb (f c) && notna c) col.
Proof.
  unfold invalid_mask. induction col as [|c col IH]; simpl; [reflexivity|].
  now rewrite IH.
Qed.

Lemma loc_set_nan_map {A} (col : column A) (m : cell A -> bool) df :
  loc_set_nan col (map m (getcol col df)) df
  = map (fun r => if m (get col r) then set col r NaN else r) df.
Proof.
  unfold getcol. induction df as [|r df IH]; simpl; [reflexivity|].
  now rewrite IH.
Qed.

Lemma standardize_emails_df self :
  df (standardize_emails self) = on_column col_email validate_email (df self).
Proof.
  unfold standardize_emails. rewrite guarded_df. cbn [df with_df].
  rewrite setcol_map, invalid_mask_map, loc_set_nan_map.
  unfold on_column. rewrite map_map. apply map_ext. intros r.
  cbn [get set col_email email].
  destruct (email r) as [|s]; cbn [str_method validate_email str_match notna isna negb andb].
  - reflexivity.
  - rewrite andb_true_r. now destruct (re_match email_pattern (lower s)).
Qed.

Lemma filter_length_ext {A} (p q : A -> bool) l :
  (forall a, p a = q a) ->
  List.length (filter p l) = List.length (filter q l).
Proof. intros H. now rewrite (filter_ext p q H). Qed.

Lemma filter_length_map {A B} (g : A -> B) (p : B -> bool) l :
  List.length (filter p (map g l))
  = List.length (filter (fun a => p (g a)) l).
Proof.
  induction l as [|a l IH]; simpl; [reflexivity|].
  destruct (p (g a)); simpl; now rewrite IH.
Qed.

Lemma standardize_emails_log self :
  cleaning_log (standardize_emails self)
  = (cleaning_log self
     ++ logged "standardize_emails" "Invalid emails removed"
          (newly_missing col_email validate_email (df self)))%list.
Proof.
  unfold standardize_emails. rewrite guarded_log. cbn [df with_df cleaning_log].
  f_equal. f_equal.
  rewrite setcol_map, invalid_mask_map, mask_sum_map.
  unfold newly_missing, len, getcol, on_column. f_equal.
  rewrite map_map, filter_length_map.
  apply filter_length_ext. intros r.
  cbn [get set col_email email].
  destruct (email r) as [|s];
    cbn [str_method validate_email str_match notna isna negb andb].
  - reflexivity.
  - rewrite andb_true_r.
    now destruct (re_match email_pattern (lower s)).
Qed.

(** ** The other steps, one by one *)

Lemma guarded_original self s d n :
  original_df (if n >? 0 then log_change self s d n else self) = original_df self.
Proof. now destruct (n >? 0). Qed.

Lemma clean_whitespace_effect self :
  effect (map clean_whitespace_row)
    [mkLogEntry "clean_whitespace" "Whitespace cleaned in text fields"
       (total_whitespace (df self))]
    self (clean_whitespace self).
Proof. rewrite clean_whitespace_eq. now repeat split. Qed.

Lemma standardize_emails_effect self :
  effect (on_column col_email validate_email)
    (logged "standardize_emails" "Invalid emails removed"
       (newly_missing col_email validate_email (df self)))
    self (standardize_emails self).
Proof.
  repeat split.
  - apply standardize_emails_df.
  - apply standardize_emails_log.
  - unfold standardize_emails. now rewrite guarded_original.
Qed.

Lemma clean_phone_numbers_effect self :
  effect (on_column col_phone format_phone)
    (logged "clean_phone_numbers" "Invalid phone numbers removed"
       (newly_missing col_phone format_phone (df self)))
    self (clean_phone_numbers self).
Proof.
  repeat split.
  - apply clean_phone_numbers_df.
  - apply clean_phone_numbers_log.
  - unfold clean_phone_numbers. now rewrite guarded_original.
Qed.

Lemma remove_duplicates_effect self :
  effect drop_duplicates
    (logged "remove_duplicates" "Duplicate rows removed"
       (len (df self) - len (drop_duplicates (df self))))
    self (remove_duplicates self).
Proof.
  unfold remove_duplicates. repeat split.
  - now rewrite guarded_df.
  - now rewrite guarded_log.
  - now rewrite guarded_original.
Qed.

Lemma standardize_categories_effect self :
  effect (on_column col_category categorize)
    (logged "standardize_categories" "Category variations consolidated"
       (variations_removed col_category categorize (df self)))
    self (standardize_categories self).
Proof.
  repeat split.
  - apply standardize_categories_df.
  - unfold standardize_categories. rewrite guarded_log. cbn [df with_df cleaning_log].
    do 2 f_equal. unfold variations_removed. f_equal.
    rewrite !setcol_map.
    rewrite on_column_compose by reflexivity.
    now rewrite getcol_on_column by lawful_col.
  - unfold standardize_categories. now rewrite guarded_original.
Qed.

Lemma standardize_status_effect self :
  effect (on_column col_status restatus)
    (logged "standardize_status" "Status variations consolidated"
       (variations_removed col_status restatus (df self)))
    self (standardize_status self).
Proof.
  unfold standardize_status. repeat split.
  - rewrite guarded_df. cbn [df with_df]. apply setcol_map.
  - rewrite guarded_log. cbn [df with_df cleaning_log].
    do 2 f_equal. unfold variations_removed. f_equal.
    rewrite setcol_map. now rewrite getcol_on_column by lawful_col.
  - now rewrite guarded_original.
Qed.

(** *** Steps that call a function that may raise *)

Lemma apply_Ok {A B} (f : A -> result B) (d : B) col l :
  apply f col = Ok l -> l = map (fun a => value_or d (f a)) col.
Proof.
  revert l. induction col as [|a col IH]; simpl; intros l H.
  - now injection H as <-.
  - destruct (f a) as [b|e]; [|discriminate]. simpl in H.
    destruct (apply f col) as [bs|e]; [|discriminate]. simpl in H.
    injection H as <-. simpl. f_equal. now apply IH.
Qed.

Lemma apply_Raise {A B} (f : A -> result B) col e :
  apply f col = Raise e -> exists a, In a col /\ f a = Raise e.
Proof.
  induction col as [|a col IH]; simpl; [discriminate|].
  destruct (f a) as [b|e'] eqn:E; simpl.
  - destruct (apply f col) as [bs|e'']; simpl; [discriminate|].
    intros [= ->]. destruct (IH eq_refl) as (a' & Hin & Ha').
    exists a'. split; [now right | assumption].
  - intros [= ->]. exists a. split; [now left | assumption].
Qed.

Lemma strptime_raises s fmt e : strptime s fmt = Raise e -> e = ValueError.
Proof.
  unfold strptime.
  destruct (compile false fmt); [|now intros [= <-]].
  destruct (regex_match _ _ _) as [[[[y m] d] rest]|]; [|now intros [= <-]].
  destruct (negb (String.eqb rest "")); [now intros [= <-]|].
  destruct (valid_date y m d); [discriminate | now intros [= <-]].
Qed.

Lemma try_formats_total now s fmts : exists c, try_formats now s fmts = Ok c.
Proof.
  induction fmts as [|fmt fmts IH]; simpl; [now exists NaN|].
  destruct (strptime s fmt) as [d|e] eqn:E; simpl.
  - destruct (datetime_gtb d now); eexists; reflexivity.
  - apply strptime_raises in E. subst e. simpl. exact IH.
Qed.

Lemma parse_date_total now c : parse_date now c = Ok (date_of now c).
Proof.
  unfold date_of.
  assert (H : exists v, parse_date now c = Ok v).
  { destruct c as [|s]; [now exists NaN | apply try_formats_total]. }
  destruct H as [v ->]. reflexivity.
Qed.

Lemma float_raises s e : float s = Raise e -> e = ValueError.
Proof.
  unfold float. destruct (sign (strip s)) as [neg r].
  destruct (_ || _); [discriminate|].
  destruct (String.eqb _ _); [discriminate|].
  destruct (pointfloat r) as [[[m nfrac] r']|]; [|now intros [= <-]].
  destruct (exponent r'); [discriminate | now intros [= <-]].
Qed.

Lemma float_of_str_raises prep v e :
  float_of_str prep v = Raise e -> e = ValueError.
Proof. destruct v; simpl; [apply float_raises | discriminate]. Qed.

Lemma parse_price_total c : parse_price c = Ok (price_of c).
Proof.
  unfold price_of.
  assert (H : exists v, parse_price c = Ok v).
  { destruct c as [|v]; simpl; [now exists NaN|].
    destruct (float_of_str _ v) as [x|e] eqn:E; simpl.
    - destruct (le0 x); eexists; reflexivity.
    - apply float_of_str_raises in E. subst e. simpl. now exists NaN. }
  destruct H as [v ->]. reflexivity.
Qed.

(** [parse_quantity] returns, or raises [OverflowError]. *)
Lemma parse_quantity_cases c :
  parse_quantity c = Ok (quantity_of c) \/ parse_quantity c = Raise OverflowError.
Proof.
  unfold quantity_of. destruct c as [|v]; simpl; [now left|].
  destruct (float_of_str strip v) as [x|e] eqn:E; simpl.
  - destruct x as [|[q|neg]]; simpl; [now left | | now right].
    destruct (_ <=? 0); now left.
  - apply float_of_str_raises in E. subst e. simpl. now left.
Qed.

Lemma guarded_ok self s d n :
  (if n >? 0 then Ok (log_change self s d n) else Ok self)
  = Ok (if n >? 0 then log_change self s d n else self).
Proof. now destruct (n >? 0). Qed.

Lemma guarded_effect {A} (col : column A) f self s d n :
  effect (on_column col f) (logged s d n) self
    (if n >? 0
     then log_change (with_df self (on_column col f (df self))) s d n
     else with_df self (on_column col f (df self))).
Proof.
  repeat split.
  - now rewrite guarded_df.
  - now rewrite guarded_log.
  - now rewrite guarded_original.
Qed.

Lemma standardize_dates_effect now self :
  exists self',
    standardize_dates now self = Ok self'
    /\ effect (on_column col_order_date (date_of now))
         (logged "standardize_dates" "Invalid dates removed"
            (newly_missing col_order_date (date_of now) (df self)))
         self self'.
Proof.
  unfold standardize_dates.
  rewrite (apply_total _ (date_of now) _ (parse_date_total now)). cbn [bind].
  rewrite setcol_map. cbn [df with_df].
  rewrite getcol_on_column by lawful_col.
  rewrite notna_sum_newly_missing by reflexivity.
  rewrite guarded_ok. eexists. split; [reflexivity | apply guarded_effect].
Qed.

Lemma clean_prices_effect self :
  exists self',
    clean_prices self = Ok self'
    /\ effect (on_column col_price price_of)
         (logged "clean_prices" "Invalid prices removed"
            (newly_missing col_price price_of (df self)))
         self self'.
Proof.
  unfold clean_prices.
  rewrite (apply_total _ price_of _ parse_price_total). cbn [bind].
  rewrite setcol_map. cbn [df with_df].
  rewrite getcol_on_column by lawful_col.
  rewrite notna_sum_newly_missing by reflexivity.
  rewrite guarded_ok. eexists. split; [reflexivity | apply guarded_effect].
Qed.

Lemma clean_quantities_effect self self' :
  clean_quantities self = Ok self' ->
  effect (on_column col_quantity quantity_of)
    (logged "clean_quantities" "Invalid quantities removed"
       (newly_missing col_quantity quantity_of (df self)))
    self self'.
Proof.
  unfold clean_quantities.
  destruct (apply parse_quantity _) as [qs|e] eqn:E; [|discriminate].
  apply (apply_Ok _ NaN) in E. subst qs. cbn [bind].
  fold quantity_of. change (fun a => quantity_of a) with quantity_of.
  rewrite setcol_map. cbn [df with_df].
  rewrite getcol_on_column by lawful_col.
  rewrite notna_sum_newly_missing by reflexivity.
  rewrite guarded_ok. intros [= <-]. apply guarded_effect.
Qed.

(** [clean_quantities] raises exactly when [parse_quantity] raises on the
    quantity of some row, and the exception is [OverflowError]. *)
Lemma clean_quantities_raises self e :
  clean_quantities self = Raise e ->
  e = OverflowError
  /\ exists r, In r (df self) /\ parse_quantity (quantity r) = Raise OverflowError.
Proof.
  unfold clean_quantities.
  destruct (apply parse_quantity _) as [qs|e'] eqn:E; cbn [bind].
  - now destruct (_ >? 0).
  - intros [= ->]. apply apply_Raise in E as (c & Hin & Hc).
    unfold getcol in Hin. apply in_map_iff in Hin as (r & <- & Hr).
    destruct (parse_quantity_cases (get col_quantity r)) as [H|H];
      rewrite H in Hc; [discriminate|].
    injection Hc as <-. split; [reflexivity|]. now exists r.
Qed.

(** ** The pipeline as a whole *)

Lemma newly_missing_map {A} (col : column A) f (g : Row -> Row) df :
  (forall r, get col (g r) = get col r) ->
  newly_missing col f (map g df) = newly_missing col f df.
Proof.
  intros H. unfold newly_missing, len. f_equal.
  rewrite filter_length_map. apply filter_length_ext.
  intros r. now rewrite H.
Qed.

Lemma getcol_map {A} (col : column A) (g : Row -> Row) df :
  (forall r, get col (g r) = get col r) ->
  getcol col (map g df) = getcol col df.
Proof.
  intros H. unfold getcol. rewrite map_map. now apply map_ext.
Qed.

Lemma variations_removed_map col f (g : Row -> Row) df :
  (forall r, get col (g r) = get col r) ->
  variations_removed col f (map g df) = variations_removed col f df.
Proof. intros H. unfold variations_removed. now rewrite getcol_map. Qed.

(** When the run returns, the frame is the duplicate-free input rewritten row
    by row, the original frame is the input and the log has grown by
    [run_log]. *)
Theorem run_cleaning_pipeline_Ok now raw self self' :
  run_cleaning_pipeline now raw self = Ok self' ->
  df self' = map (cleaned_row now) (drop_duplicates raw)
  /\ original_df self' = raw
  /\ cleaning_log self' = (cleaning_log self ++ run_log now raw)%list.
Proof.
  unfold run_cleaning_pipeline. cbv zeta.
  set (s0 := load_data raw self).
  destruct (remove_duplicates_effect s0) as (D1 & L1 & O1).
  set (s1 := remove_duplicates s0) in *.
  destruct (clean_whitespace_effect s1) as (D2 & L2 & O2).
  set (s2 := clean_whitespace s1) in *.
  destruct (standardize_emails_effect s2) as (D3 & L3 & O3).
  set (s3 := standardize_emails s2) in *.
  destruct (clean_phone_numbers_effect s3) as (D4 & L4 & O4).
  set (s4 := clean_phone_numbers s3) in *.
  destruct (standardize_dates_effect now s4) as (s5 & -> & D5 & L5 & O5).
  cbn [bind].
  destruct (clean_prices_effect s5) as (s6 & -> & D6 & L6 & O6).
  cbn [bind].
  destruct (clean_quantities s6) as [s7|e] eqn:E7; cbn [bind]; [|discriminate].
  apply clean_quantities_effect in E7 as (D7 & L7 & O7).
  destruct (standardize_categories_effect s7) as (D8 & L8 & O8).
  set (s8 := standardize_categories s7) in *.
  destruct (standardize_status_effect s8) as (D9 & L9 & O9).
  intros [= <-].
  change (df s0) with raw in *. change (original_df s0) with raw in *.
  change (cleaning_log s0) with (cleaning_log self) in *.
  repeat split.
  - rewrite D9, D8, D7, D6, D5, D4, D3, D2, D1.
    unfold on_column. rewrite !map_map. reflexivity.
  - congruence.
  - rewrite L9, L8, L7, L6, L5, L4, L3, L2, L1.
    rewrite D8, D7, D6, D5, D4, D3, D2, D1.
    unfold run_log. cbv zeta. rewrite <- !app_assoc.
    unfold on_column.
    repeat (rewrite (newly_missing_map col_phone) by reflexivity).
    repeat (rewrite (newly_missing_map col_order_date) by reflexivity).
    repeat (rewrite (newly_missing_map col_price) by reflexivity).
    repeat (rewrite (newly_missing_map col_quantity) by reflexivity).
    repeat (rewrite (variations_removed_map col_category) by reflexivity).
    repeat (rewrite (variations_removed_map col_status) by reflexivity).
    reflexivity.
Qed.

Lemma run_cleaning_pipeline_raises now raw self e :
  run_cleaning_pipeline now raw self = Raise e ->
  e = OverflowError
  /\ exists r, In r (drop_duplicates raw)
               /\ parse_quantity (quantity r) = Raise OverflowError.
Proof.
  unfold run_cleaning_pipeline. cbv zeta.
  set (s0 := load_data raw self).
  destruct (remove_duplicates_effect s0) as (D1 & _).
  set (s1 := remove_duplicates s0) in *.
  destruct (clean_whitespace_effect s1) as (D2 & _).
  set (s2 := clean_whitespace s1) in *.
  destruct (standardize_emails_effect s2) as (D3 & _).
  set (s3 := standardize_emails s2) in *.
  destruct (clean_phone_numbers_effect s3) as (D4 & _).
  set (s4 := clean_phone_numbers s3) in *.
  destruct (standardize_dates_effect now s4) as (s5 & -> & D5 & _).
  cbn [bind].
  destruct (clean_prices_effect s5) as (s6 & -> & D6 & _).
  cbn [bind].
  destruct (clean_quantities s6) as [s7|e'] eqn:E7; cbn [bind]; [discriminate|].
  intros [= ->]. apply clean_quantities_raises in E7 as (-> & r & Hin & Hr).
  split; [reflexivity|].
  rewrite D6, D5, D4, D3, D2, D1 in Hin. change (df s0) with raw in Hin.
  unfold on_column in Hin. rewrite !map_map in Hin.
  apply in_map_iff in Hin as (r0 & <- & Hin).
  exists r0. split; [exact Hin | exact Hr].
Qed.

(** The run returns when no quantity makes [parse_quantity] raise. *)
Theorem run_cleaning_pipeline_returns now raw self :
  (forall r, In r (drop_duplicates raw) ->
             parse_quantity (quantity r) = Ok (quantity_of (quantity r))) ->
  exists self', run_cleaning_pipeline now raw self = Ok self'.
Proof.
  intros H. destruct (run_cleaning_pipeline now raw self) as [s|e] eqn:E.
  - now exists s.
  - apply run_cleaning_pipeline_raises in E as (_ & r & Hin & Hr).
    rewrite (H r Hin) in Hr. discriminate.
Qed.

(** ** Missing text after [clean_whitespace] *)

Lemma validate_nan_text : validate_email (clean_text NaN) = NaN.
Proof. reflexivity. Qed.

Lemma filter_length_disjoint {A} (p q1 q2 : A -> bool) l :
  (forall a, p a = q1 a || q2 a) ->
  (forall a, q1 a && q2 a = false) ->
  List.length (filter p l)
  = (List.length (filter q1 l) + List.length (filter q2 l))%nat.
Proof.
  intros Hp Hd. induction l as [|a l IH]; [reflexivity|].
  simpl. rewrite Hp. specialize (Hd a).
  destruct (q1 a), (q2 a); try discriminate; simpl; lia.
Qed.

Lemma invalid_after_cleaning df :
  newly_missing col_email validate_email (map clean_whitespace_row df)
  = len (filter (fun r => isna (email r)) df)
    + len (filter (fun r => notna (email r)
                            && isna (validate_email (clean_text (email r)))) df).
Proof.
  unfold newly_missing, len. rewrite filter_length_map.
  rewrite <- Nat2Z.inj_add. f_equal.
  apply filter_length_disjoint; intros r;
    cbn [get col_email clean_whitespace_row email];
    destruct (email r) as [|s]; reflexivity.
Qed.

(** C10. After [clean_whitespace] every cell of customer_name, email,
    product_name, category and status holds text: a missing cell has become the
    text "nan".  A row whose email was missing therefore reaches
    [standardize_emails] with the text "nan", which fails the pattern; the row
    is counted among the invalid emails and its email is missing again. *)
Theorem C10_missing_text_becomes_nan :
  (forall self,
      df (clean_whitespace self) = map clean_whitespace_row (df self))
  /\ (forall c, exists s, clean_text c = Val s)
  /\ clean_text NaN = Val "nan"
  /\ re_match email_pattern (lower "nan") = false
  /\ validate_email (clean_text NaN) = NaN
  /\ (forall self,
        let cleaned := clean_whitespace self in
        df (standardize_emails cleaned)
        = map (fun r => set col_email (clean_whitespace_row r)
                          (validate_email (clean_text (email r)))) (df self)
        /\ cleaning_log (standardize_emails cleaned)
           = (cleaning_log cleaned
              ++ logged "standardize_emails" "Invalid emails removed"
                   (len (filter (fun r => isna (email r)) (df self))
                    + len (filter
                             (fun r => notna (email r)
                                       && isna (validate_email
                                                  (clean_text (email r))))
                             (df self))))%list).
Proof.
  split; [|split; [|split; [|split; [|split]]]]; try reflexivity.
  - intros self. now rewrite clean_whitespace_eq.
  - intros c. destruct (clean_text_tidy c) as (s & Hs & _). now exists s.
  - intros self cleaned. subst cleaned. split.
    + rewrite standardize_emails_df, clean_whitespace_eq. cbn [df with_df log_change].
      unfold on_column. rewrite map_map. reflexivity.
    + rewrite standardize_emails_log. do 2 f_equal.
      rewrite clean_whitespace_eq. cbn [df with_df log_change].
      apply invalid_after_cleaning.
Qed.

(** ** E-mail addresses in the cleaned output *)

Lemma validate_email_cases s :
  ((email_shape (lower s) \/ exists e, lower s = e ++ newline /\ email_shape e)
   /\ validate_email (Val s) = Val (lower s))
  \/ (~ (email_shape (lower s)
         \/ exists e, lower s = e ++ newline /\ email_shape e)
      /\ validate_email (Val s) = NaN).
Proof.
  unfold validate_email.
  destruct (re_match email_pattern (lower s)) eqn:E.
  - left. split; [now apply re_match_email | reflexivity].
  - right. split; [|reflexivity].
    intros H. apply re_match_email in H. congruence.
Qed.

Lemma cleaned_email_shape c :
  match validate_email (clean_text c) with
  | NaN => True
  | Val e => lower e = e /\ email_shape e
  end.
Proof.
  destruct (clean_text_tidy c) as (s & -> & Ht).
  unfold validate_email.
  destruct (re_match email_pattern (lower s)) eqn:E; [|exact I].
  split; [apply lower_idem|].
  apply re_match_email_tidy; [now rewrite tidy_lower | exact E].
Qed.



(** ** Duplicates *)

Lemma number_eqb_eq x y : number_eqb x y = true <-> x = y.
Proof.
  destruct x as [p|a], y as [q|b]; simpl; split; try discriminate.
  - intros H. apply Qeq_bool_iff in H. f_equal. now apply Qc_is_canon.
  - intros [= ->]. apply Qeq_bool_iff. reflexivity.
  - intros H. apply Bool.eqb_prop in H. now subst.
  - intros [= ->]. apply Bool.eqb_reflx.
Qed.

Lemma scalar_eqb_eq x y : scalar_eqb x y = true <-> x = y.
Proof.
  destruct x as [s|a], y as [t|b]; simpl; split; try discriminate.
  - intros H. apply String.eqb_eq in H. now subst.
  - intros [= ->]. apply String.eqb_refl.
  - intros H. apply number_eqb_eq in H. now subst.
  - intros [= ->]. now apply number_eqb_eq.
Qed.

Lemma cell_eqb_eq {A} (eqb : A -> A -> bool) :
  (forall a b, eqb a b = true <-> a = b) ->
  forall x y, cell_eqb eqb x y = true <-> x = y.
Proof.
  intros H [|a] [|b]; simpl; split; try discriminate; try reflexivity.
  - intros E. apply H in E. now subst.
  - intros [= ->]. now apply H.
Qed.

(** Two rows are equal for [drop_duplicates] exactly when they are the same
    in every column. *)
Lemma row_eqb_eq r1 r2 : row_eqb r1 r2 = true <-> r1 = r2.
Proof.
  pose proof (cell_eqb_eq scalar_eqb scalar_eqb_eq) as Hs.
  pose proof (cell_eqb_eq String.eqb String.eqb_eq) as Ht.
  unfold row_eqb. split.
  - intros H.
    repeat match type of H with
           | _ && _ = true => let H' := fresh in apply andb_prop in H as [H H']
           end.
    destruct r1, r2; cbn [order_id customer_name email phone order_date
                          product_name category quantity price status] in *.
    repeat match goal with
           | E : cell_eqb scalar_eqb _ _ = true |- _ => apply Hs in E; subst
           | E : cell_eqb String.eqb _ _ = true |- _ => apply Ht in E; subst
           end.
    reflexivity.
  - intros ->.
    repeat match goal with
           | |- _ && _ = true => apply andb_true_intro; split
           end;
      first [now apply Hs | now apply Ht].
Qed.

Lemma row_eqb_refl r : row_eqb r r = true.
Proof. now apply row_eqb_eq. Qed.

Lemma existsb_row_eqb r l : existsb (row_eqb r) l = true <-> In r l.
Proof.
  rewrite existsb_exists. split.
  - intros (x & Hin & E). apply row_eqb_eq in E. now subst.
  - intros H. exists r. split; [assumption | apply row_eqb_refl].
Qed.

Lemma drop_duplicates_from_snoc l : forall seen r,
  drop_duplicates_from seen (l ++ [r])
  = (drop_duplicates_from seen l
     ++ (if existsb (row_eqb r) seen || existsb (row_eqb r) l
         then [] else [r]))%list.
Proof.
  induction l as [|a l IH]; intros seen r.
  - simpl. rewrite orb_false_r. now destruct (existsb (row_eqb r) seen).
  - cbn [app drop_duplicates_from].
    destruct (existsb (row_eqb a) seen) eqn:Ea.
    + rewrite IH. f_equal. cbn [existsb].
      destruct (row_eqb r a) eqn:Era; [|reflexivity].
      apply row_eqb_eq in Era. subst a. now rewrite Ea.
    + cbn [app]. rewrite IH. f_equal. f_equal. cbn [existsb].
      destruct (row_eqb r a), (existsb (row_eqb r) seen); reflexivity.
Qed.

(** A row is dropped exactly when it is identical to an earlier row. *)
Lemma drop_duplicates_snoc l r :
  drop_duplicates (l ++ [r])
  = if existsb (row_eqb r) l then drop_duplicates l
    else (drop_duplicates l ++ [r])%list.
Proof.
  unfold drop_duplicates. rewrite drop_duplicates_from_snoc. cbn [existsb orb].
  destruct (existsb (row_eqb r) l); [apply app_nil_r | reflexivity].
Qed.

Lemma drop_duplicates_from_length seen l :
  (List.length (drop_duplicates_from seen l) <= List.length l)%nat.
Proof.
  revert seen. induction l as [|a l IH]; intros seen; simpl; [lia|].
  destruct (existsb (row_eqb a) seen); simpl.
  - specialize (IH seen). lia.
  - specialize (IH (a :: seen)). lia.
Qed.

Lemma drop_duplicates_length l : len (drop_duplicates l) <= len l.
Proof.
  unfold len, drop_duplicates.
  pose proof (drop_duplicates_from_length [] l). lia.
Qed.

Lemma effect_map_length g e self self' :
  effect (map g) e self self' -> len (df self') = len (df self).
Proof. intros (D & _). unfold len. now rewrite D, length_map. Qed.

(** C8. [remove_duplicates] drops a row exactly when it is identical, in
    every column, to an earlier row, and so keeps the first of any group of
    identical rows; two identical rows leave one row and a logged count of 1.
    Every other step keeps the number of rows, so the cleaned frame never has
    more rows than the input. *)
Theorem C8_remove_duplicates :
  (forall self,
      effect drop_duplicates
        (logged "remove_duplicates" "Duplicate rows removed"
           (len (df self) - len (drop_duplicates (df self))))
        self (remove_duplicates self))
  /\ drop_duplicates [] = []
  /\ (forall l r,
        drop_duplicates (l ++ [r])
        = if existsb (row_eqb r) l then drop_duplicates l
          else (drop_duplicates l ++ [r])%list)
  /\ (forall r1 r2, row_eqb r1 r2 = true <-> r1 = r2)
  /\ (forall r,
        let self' := remove_duplicates (mkDataCleaner [r; r] [r; r] []) in
        df self' = [r]
        /\ cleaning_log self'
           = [mkLogEntry "remove_duplicates" "Duplicate rows removed" 1])
  /\ (forall now self,
        len (df (clean_whitespace self)) = len (df self)
        /\ len (df (standardize_emails self)) = len (df self)
        /\ len (df (clean_phone_numbers self)) = len (df self)
        /\ len (df (standardize_categories self)) = len (df self)
        /\ len (df (standardize_status self)) = len (df self)
        /\ (exists self', standardize_dates now self = Ok self'
                          /\ len (df self') = len (df self))
        /\ (exists self', clean_prices self = Ok self'
                          /\ len (df self') = len (df self))
        /\ ((exists self', clean_quantities self = Ok self'
                           /\ len (df self') = len (df self))
            \/ clean_quantities self = Raise OverflowError))
  /\ (forall now raw self,
        (exists self',
            run_cleaning_pipeline now raw self = Ok self'
            /\ len (df self') <= len raw)
        \/ run_cleaning_pipeline now raw self = Raise OverflowError).
Proof.
  split; [|split; [|split; [|split; [|split; [|split]]]]].
  - apply remove_duplicates_effect.
  - reflexivity.
  - apply drop_duplicates_snoc.
  - apply row_eqb_eq.
  - intros r self'. subst self'. unfold remove_duplicates.
    cbn [df with_df]. unfold drop_duplicates.
    cbn [drop_duplicates_from existsb]. rewrite row_eqb_refl.
    cbn [orb]. split; reflexivity.
  - intros now self.
    split; [apply (effect_map_length _ _ _ _ (clean_whitespace_effect self))|].
    split; [apply (effect_map_length _ _ _ _ (standardize_emails_effect self))|].
    split; [apply (effect_map_length _ _ _ _ (clean_phone_numbers_effect self))|].
    split; [apply (effect_map_length _ _ _ _ (standardize_categories_effect self))|].
    split; [apply (effect_map_length _ _ _ _ (standardize_status_effect self))|].
    split; [|split].
    + destruct (standardize_dates_effect now self) as (s & E & H).
      exists s. split; [exact E | apply (effect_map_length _ _ _ _ H)].
    + destruct (clean_prices_effect self) as (s & E & H).
      exists s. split; [exact E | apply (effect_map_length _ _ _ _ H)].
    + destruct (clean_quantities self) as [s|e] eqn:E.
      * left. exists s. split; [reflexivity|].
        apply (effect_map_length _ _ _ _ (clean_quantities_effect _ _ E)).
      * right. now apply clean_quantities_raises in E as (-> & _).
  - intros now raw self.
    destruct (run_cleaning_pipeline now raw self) as [s|e] eqn:E.
    + left. exists s. split; [reflexivity|].
      apply run_cleaning_pipeline_Ok in E as (D & _).
      unfold len. rewrite D, length_map.
      apply (drop_duplicates_length raw).
    + right. now apply run_cleaning_pipeline_raises in E as (-> & _).
Qed.

(** ** The change log *)

(** C2 at the failing input: one row without any blank to clean.  No step
    finds anything to change, and the log of the run still has an entry: the
    one of [clean_whitespace], with count 0, since that step logs without a
    test on its count, on every frame.  The log of a run is [run_log]: the
    eight other steps log when their count is positive. *)
Theorem C2_clean_whitespace_logs_zero :
  (forall self,
      cleaning_log (clean_whitespace self)
      = (cleaning_log self
         ++ [mkLogEntry "clean_whitespace" "Whitespace cleaned in text fields"
               (total_whitespace (df self))])%list)
  /\ (forall now raw self,
        (exists self',
            run_cleaning_pipeline now raw self = Ok self'
            /\ cleaning_log self' = (cleaning_log self ++ run_log now raw)%list)
        \/ run_cleaning_pipeline now raw self = Raise OverflowError)
  /\ (forall now,
        let raw := [text_row "Ann Lee" "ann@example.com" "Books" "Pending"] in
        exists self',
          run_cleaning_pipeline now raw new_cleaner = Ok self'
          /\ df self' = raw
          /\ cleaning_log self'
             = [mkLogEntry "clean_whitespace"
                  "Whitespace cleaned in text fields" 0]).
Proof.
  split; [|split].
  - intros self. now rewrite clean_whitespace_eq.
  - intros now raw self.
    destruct (run_cleaning_pipeline now raw self) as [s|e] eqn:E.
    + left. exists s. split; [reflexivity|].
      now apply run_cleaning_pipeline_Ok in E.
    + right. now apply run_cleaning_pipeline_raises in E as (-> & _).
  - intros now raw.
    destruct (run_cleaning_pipeline now raw new_cleaner) as [s|e] eqn:E.
    + exists s. apply run_cleaning_pipeline_Ok in E as (D & _ & L).
      split; [reflexivity|]. rewrite D, L. split; now vm_compute.
    + apply run_cleaning_pipeline_raises in E as (_ & r & Hin & Hr).
      vm_compute in Hin. destruct Hin as [<-|[]]. discriminate Hr.
Qed.

(** ** Prices *)

Lemma round_half_even_near q :
  (Qabs (q - inject_Z (round_half_even q)) <= 1 # 2)%Q.
Proof.
  unfold round_half_even.
  pose proof (Qfloor_le q) as Hlo. pose proof (Qlt_floor q) as Hhi.
  rewrite inject_Z_plus in Hhi. change (inject_Z 1) with 1%Q in Hhi.
  set (f := Qfloor q) in *.
  assert (Hf1 : inject_Z (f + 1) == inject_Z f + 1)
    by (rewrite inject_Z_plus; reflexivity).
  apply Qabs_Qle_condition.
  destruct (Qcompare (q - inject_Z f) (1 # 2)) eqn:C.
  - apply Qeq_alt in C.
    destruct (Z.even f); [|rewrite Hf1]; split; lra.
  - apply Qlt_alt in C. split; lra.
  - apply Qgt_alt in C. rewrite Hf1. split; lra.
Qed.

Lemma Qle_bool_false (q : Q) : Qle_bool q 0 = false -> (0 < q)%Q.
Proof.
  intros H. apply Qnot_le_lt. intros Hle.
  apply Qle_bool_iff in Hle. congruence.
Qed.

Lemma parse_price_refines v : price_spec v (price_of (Val v)).
Proof.
  unfold price_of, parse_price.
  change (fun s => replace "," "" (replace "$" "" (strip s))) with price_text.
  destruct (float_of_str price_text v) as [x|e] eqn:E; cbn [bind try_except].
  - destruct (le0 x) eqn:L; cbn [value_or].
    + now apply price_not_positive with (x := x).
    + destruct x as [|[q|neg]]; cbn [round2 of_float].
      * now apply price_not_a_number.
      * apply (price_rounded v q (round_half_even (q * 100)));
          [exact E | now apply Qle_bool_false|].
        unfold rounded_to_cents. apply round_half_even_near.
      * simpl in L. subst neg. now apply price_infinite.
  - pose proof (float_of_str_raises _ _ _ E). subst e.
    cbn [existsb exn_eqb orb value_or]. now apply price_unparseable.
Qed.

Ltac number_eq :=
  repeat match goal with
         | |- Ok _ = Ok _ => apply f_equal
         | |- Val _ = Val _ => apply f_equal
         | |- Num _ = Num _ => apply f_equal
         | |- Fin _ = Fin _ => apply f_equal
         | |- cons _ _ = cons _ _ => apply f_equal2
         end;
  try reflexivity; apply Qc_is_canon; reflexivity.

Lemma price_examples :
  price_of (Val (Str "$1,299.99")) = Val (Num (Fin (Q2Qc (129999 # 100))))
  /\ price_of (Val (Str "-5")) = NaN
  /\ price_of (Val (Str "twelve")) = NaN.
Proof.
  split; [|split]; vm_compute; first [reflexivity | number_eq].
Qed.


(** ** Quantities *)

(** A quantity that [parse_quantity] returns is a positive integer. *)
Lemma parse_quantity_positive c v :
  parse_quantity c = Ok (Val v) -> exists n, 0 < n /\ v = Num (of_Z n).
Proof.
  destruct c as [|u]; [discriminate|]. unfold parse_quantity.
  destruct (float_of_str strip u) as [x|e]; cbn [bind].
  - destruct (int x) as [n|e]; cbn [bind].
    + destruct (n <=? 0) eqn:L; cbn [try_except]; [discriminate|].
      intros [= <-]. exists n. split; [now apply Z.leb_gt | reflexivity].
    + destruct e; cbn [try_except existsb exn_eqb orb]; discriminate.
  - destruct e; cbn [try_except existsb exn_eqb orb]; discriminate.
Qed.

Lemma quantity_of_positive c :
  match quantity_of c with
  | NaN => True
  | Val v => exists n, 0 < n /\ v = Num (of_Z n)
  end.
Proof.
  unfold quantity_of.
  destruct (parse_quantity c) as [[|v]|e] eqn:E; cbn [value_or]; try exact I.
  now apply (parse_quantity_positive c).
Qed.

(** In the cleaned output every present quantity is a positive integer. *)
Lemma cleaned_quantities_positive now raw self self' :
  run_cleaning_pipeline now raw self = Ok self' ->
  Forall (fun r => match quantity r with
                   | NaN => True
                   | Val v => exists n, 0 < n /\ v = Num (of_Z n)
                   end) (df self').
Proof.
  intros E. apply run_cleaning_pipeline_Ok in E as (-> & _).
  apply Forall_map, Forall_forall. intros r _.
  apply (quantity_of_positive (quantity r)).
Qed.

(** An infinite quantity is not caught: [int] raises [OverflowError] and the
    step, with it the run, aborts. *)
Lemma parse_quantity_infinity :
  parse_quantity (Val (Str "inf")) = Raise OverflowError
  /\ parse_quantity (Val (Num (Inf false))) = Raise OverflowError.
Proof. split; reflexivity. Qed.

(** C7 at the failing input: the price "0.001" is above zero, so it passes the
    test, and is then rounded to 0.00; the cleaned frame holds a present price
    that is not positive. *)
Theorem C7_price_rounds_to_zero :
  parse_price (Val (Str "0.001")) = Ok (Val (Num (of_Z 0)))
  /\ forall now,
       exists self',
         run_cleaning_pipeline now [priced_row "0.001"] new_cleaner = Ok self'
         /\ map price (df self') = [Val (Num (of_Z 0))].
Proof.
  split.
  - vm_compute. first [reflexivity | number_eq].
  - intros now.
    destruct (run_cleaning_pipeline now [priced_row "0.001"] new_cleaner)
      as [s|e] eqn:E.
    + exists s. apply run_cleaning_pipeline_Ok in E as (D & _).
      split; [reflexivity|]. rewrite D. vm_compute.
      first [reflexivity | number_eq].
    + apply run_cleaning_pipeline_raises in E as (_ & r & Hin & Hr).
      vm_compute in Hin. destruct Hin as [<-|[]]. vm_compute in Hr.
      discriminate Hr.
Qed.

(** ** Dates *)

Lemma try_formats_refines now s : forall fmts tried,
  date_formats = (tried ++ fmts)%list ->
  (forall f, In f tried -> strptime (strip s) f = Raise ValueError) ->
  date_spec now s (value_or NaN (try_formats now (strip s) fmts)).
Proof.
  induction fmts as [|fmt fmts IH]; intros tried Hsplit Htried.
  - simpl. apply date_unreadable. intros fmt Hin. apply Htried.
    rewrite Hsplit, app_nil_r in Hin. exact Hin.
  - cbn [try_formats].
    destruct (strptime (strip s) fmt) as [d|e] eqn:E; cbn [bind].
    + destruct (datetime_gtb d now) eqn:G; cbn [try_except value_or].
      * now apply (date_in_future now s tried fmt fmts d).
      * now apply (date_rewritten now s tried fmt fmts d).
    + apply strptime_raises in E as E'. subst e.
      cbn [try_except existsb exn_eqb orb].
      apply (IH (tried ++ [fmt])%list).
      * now rewrite <- app_assoc.
      * intros f Hin. apply in_app_or in Hin as [Hin|[<-|[]]]; auto.
Qed.

Lemma parse_date_refines now s : date_spec now s (date_of now (Val s)).
Proof. apply (try_formats_refines now s date_formats []); [reflexivity | now intros]. Qed.

Lemma strptime_valid s fmt t :
  strptime s fmt = Ok t ->
  valid_date (year t) (month t) (day t) = true
  /\ t = mkdatetime (year t) (month t) (day t) 0 0 0 0.
Proof.
  unfold strptime.
  destruct (compile false fmt); [|discriminate].
  destruct (regex_match _ _ _) as [[[[y m] d] rest]|]; [|discriminate].
  destruct (negb (String.eqb rest "")); [discriminate|].
  destruct (valid_date y m d) eqn:V; [|discriminate].
  intros [= <-]. now split.
Qed.

Lemma valid_date_bounds y m d :
  valid_date y m d = true -> 1 <= y <= 9999 /\ 1 <= m <= 12 /\ 1 <= d <= 31.
Proof.
  unfold valid_date. intros H.
  repeat match type of H with
         | _ && _ = true => let H' := fresh in apply andb_prop in H as [H H']
         end.
  repeat match goal with
         | E : (_ <=? _) = true |- _ => apply Z.leb_le in E
         end.
  assert (days_in_month y m <= 31).
  { unfold days_in_month. destruct m as [|[[[[]|[]|]|[[]|[]|]|]|[[[]|[]|]|[[]|[]|]|]|]|];
      try destruct (is_leap y); lia. }
  lia.
Qed.

Lemma digit_char_digit k : 0 <= k <= 9 -> digit_char k = digit k.
Proof.
  intros H. unfold digit_char, digit. now rewrite Z.mod_small by lia.
Qed.

Lemma strftime_iso y m d :
  0 <= y <= 9999 -> 0 <= m <= 99 -> 0 <= d <= 99 ->
  strftime_Ymd (mkdatetime y m d 0 0 0 0)
  = iso_text (y / 1000) ((y / 100) mod 10) ((y / 10) mod 10) (y mod 10)
      (m / 10) (m mod 10) (d / 10) (d mod 10).
Proof.
  intros Hy Hm Hd. unfold strftime_Ymd, pad4, pad2, iso_text. cbn [year month day].
  simpl append.
  assert (E : forall k, digit_char k = digit (k mod 10)) by reflexivity.
  rewrite !E.
  rewrite (Z.mod_small (y / 1000)), (Z.mod_small (m / 10)), (Z.mod_small (d / 10));
    [reflexivity | | |]; Z.div_mod_to_equations; lia.
Qed.

(** A date that [strptime] returns is written by [strftime] as YYYY-MM-DD. *)
Lemma strptime_strftime_iso s fmt t :
  strptime s fmt = Ok t ->
  iso_date (year t) (month t) (day t) (strftime_Ymd t).
Proof.
  intros H. apply strptime_valid in H as [V E].
  apply valid_date_bounds in V as (Hy & Hm & Hd).
  rewrite E at 4. cbn [year month day].
  rewrite strftime_iso by lia.
  exists (year t / 1000), ((year t / 100) mod 10), ((year t / 10) mod 10),
    (year t mod 10), (month t / 10), (month t mod 10),
    (day t / 10), (day t mod 10).
  split; [|split; [|split; [|split]]]; [| | | |reflexivity].
  - repeat constructor; Z.div_mod_to_equations; lia.
  - Z.div_mod_to_equations; lia.
  - Z.div_mod_to_equations; lia.
  - Z.div_mod_to_equations; lia.
Qed.

Lemma try_formats_app now s tried fmts :
  (forall f, In f tried -> strptime s f = Raise ValueError) ->
  try_formats now s (tried ++ fmts) = try_formats now s fmts.
Proof.
  induction tried as [|f tried IH]; intros H; [reflexivity|].
  cbn [app try_formats]. rewrite (H f) by now left.
  cbn [bind try_except existsb exn_eqb orb].
  apply IH. intros g Hg. apply H. now right.
Qed.

Lemma try_formats_hit now s fmt fmts d :
  strptime s fmt = Ok d ->
  try_formats now s (fmt :: fmts)
  = Ok (if datetime_gtb d now then NaN else Val (strftime_Ymd d)).
Proof.
  intros H. cbn [try_formats]. rewrite H. cbn [bind].
  now destruct (datetime_gtb d now).
Qed.

Ltac each_format H :=
  simpl in H;
  repeat (destruct H as [<-|H]; [vm_compute; reflexivity|]);
  destruct H.

Lemma date_example_general now :
  date_of now (Val "15 January 2024")
  = if datetime_gtb (mkdatetime 2024 1 15 0 0 0 0) now then NaN
    else Val "2024-01-15".
Proof.
  unfold date_of, parse_date.
  replace (strip "15 January 2024") with "15 January 2024"
    by (vm_compute; reflexivity).
  change date_formats
    with (["%m/%d/%Y"; "%d-%m-%Y"; "%Y-%m-%d"; "%b %d, %Y"] ++ ["%d %B %Y"])%list.
  rewrite try_formats_app by (intros f Hf; each_format Hf).
  rewrite (try_formats_hit _ _ _ _ (mkdatetime 2024 1 15 0 0 0 0))
    by (vm_compute; reflexivity).
  cbn [value_or]. now destruct (datetime_gtb _ now).
Qed.

Lemma date_examples :
  date_of (mkdatetime 2026 11 3 10 30 0 0) (Val "15 January 2024")
  = Val "2024-01-15"
  /\ date_of (mkdatetime 2026 11 3 10 30 0 0) (Val "11/03/2036") = NaN
  /\ date_of (mkdatetime 2026 11 3 10 30 0 0) (Val "not a date") = NaN.
Proof.
  split; [|split]; vm_compute; reflexivity.
Qed.


(** ** Running the steps again on cleaned cells *)

(** *** Categories and status *)

Lemma title_from_idem s : forall p,
  title_from p (title_from p s) = title_from p s.
Proof.
  induction s as [|c s IH]; intros p; simpl; [reflexivity|].
  destruct p.
  - rewrite lower_char_idem, isalpha_lower_char. now rewrite IH.
  - rewrite upper_idem_char, isalpha_upper_char. now rewrite IH.
Qed.

Lemma title_idem s : title (title s) = title s.
Proof. apply title_from_idem. Qed.

Lemma category_values_tidy k v : In (k, v) category_mapping -> tidy v = true.
Proof.
  intros H. simpl in H.
  repeat (destruct H as [[= <- <-]|H]; [reflexivity|]). destruct H.
Qed.

(** A text that is its own title case is no key of the table, the four
    title-case keys apart. *)
Lemma title_fixed_not_key v :
  title v = v -> ~ In (Val v) title_case_keys ->
  lookup category_mapping v = None.
Proof.
  intros Ht Hk. destruct (lookup category_mapping v) as [w|] eqn:E; [|reflexivity].
  exfalso. apply lookup_Some in E. simpl in E.
  repeat (destruct E as [[= <- <-]|E];
          [first [discriminate Ht | apply Hk; in_list]|]).
  destruct E.
Qed.

Lemma categorize_clean_text c :
  exists v, categorize (clean_text c) = Val v /\ tidy v = true /\ title v = v.
Proof.
  destruct (clean_text_tidy c) as (s & -> & Ht).
  unfold categorize, series_replace, str_method.
  destruct (lookup category_mapping s) as [w|] eqn:E.
  - apply lookup_Some in E.
    exists (title w). split; [reflexivity|]. split.
    + rewrite tidy_title. now apply (category_values_tidy s).
    + apply title_idem.
  - exists (title s). split; [reflexivity|]. split.
    + now rewrite tidy_title.
    + apply title_idem.
Qed.

Lemma categorize_again c :
  ~ In (categorize (clean_text c)) title_case_keys ->
  categorize (clean_text (categorize (clean_text c))) = categorize (clean_text c).
Proof.
  destruct (categorize_clean_text c) as (v & -> & Ht & Hv). intros Hk.
  rewrite (clean_text_fixed v Ht).
  unfold categorize, series_replace, str_method.
  rewrite (title_fixed_not_key v Hv Hk). now rewrite Hv.
Qed.

Lemma status_values k v :
  In (k, v) status_mapping ->
  tidy v = true /\ lookup status_mapping v = None.
Proof.
  intros H. simpl in H.
  repeat (destruct H as [[= <- <-]|H]; [split; reflexivity|]). destruct H.
Qed.

Lemma restatus_clean_text c :
  exists v, restatus (clean_text c) = Val v
            /\ tidy v = true /\ lookup status_mapping v = None.
Proof.
  destruct (clean_text_tidy c) as (s & -> & Ht).
  unfold restatus, series_replace.
  destruct (lookup status_mapping s) as [w|] eqn:E.
  - apply lookup_Some in E. exists w. split; [reflexivity|].
    now apply (status_values s).
  - now exists s.
Qed.

Lemma restatus_again c :
  restatus (clean_text (restatus (clean_text c))) = restatus (clean_text c).
Proof.
  destruct (restatus_clean_text c) as (v & -> & Ht & Hv).
  rewrite (clean_text_fixed v Ht). unfold restatus, series_replace.
  now rewrite Hv.
Qed.

(** *** E-mail addresses *)

Lemma validate_clean_text c :
  validate_email (clean_text c) = NaN
  \/ exists e, validate_email (clean_text c) = Val e
               /\ tidy e = true /\ lower e = e
               /\ re_match email_pattern e = true.
Proof.
  destruct (clean_text_tidy c) as (s & -> & Ht). unfold validate_email.
  destruct (re_match email_pattern (lower s)) eqn:E; [right | now left].
  exists (lower s). split; [reflexivity|]. split; [now rewrite tidy_lower|].
  split; [apply lower_idem | exact E].
Qed.

Lemma validate_again c :
  validate_email (clean_text (validate_email (clean_text c)))
  = validate_email (clean_text c).
Proof.
  destruct (validate_clean_text c) as [->|(e & -> & Ht & Hl & Hm)];
    [reflexivity|].
  rewrite (clean_text_fixed e Ht). unfold validate_email.
  now rewrite Hl, Hm.
Qed.

(** *** Phone numbers *)

Lemma format_phone_cases c :
  format_phone c = NaN
  \/ exists a b c' d e f g h i j,
       format_phone c = Val (dashed a b c' d e f g h i j)
       /\ sforall isdigit (str10 a b c' d e f g h i j) = true.
Proof.
  destruct c as [|p]; [now left|].
  pose proof (sub_nondigits_digits p) as Hd.
  destruct (format_phone_refines p) as [a b c d e f g h i j E
                                       |a b c d e f g h i j E|]; [| |now left];
    right; exists a, b, c, d, e, f, g, h, i, j; (split; [reflexivity|]);
    rewrite E in Hd.
  - exact Hd.
  - simpl in Hd. exact Hd.
Qed.

Lemma format_phone_again c : format_phone (format_phone c) = format_phone c.
Proof.
  destruct (format_phone_cases c)
    as [->|(a & b & c' & d & e & f & g & h & i & j & -> & Hd)]; [reflexivity|].
  simpl in Hd.
  repeat match type of Hd with
         | _ && _ = true => let H' := fresh in apply andb_prop in Hd as [H' Hd]
         end.
  unfold format_phone, sub_nondigits, dashed. cbn [sfilter].
  repeat match goal with E : isdigit _ = true |- _ => rewrite E; clear E end.
  replace (isdigit "-") with false by reflexivity.
  reflexivity.
Qed.

(** *** Quantities *)

Lemma this_of_Z n : this (Q2Qc (inject_Z n)) = inject_Z n.
Proof.
  cbn [this Q2Qc]. apply Qred_identity. cbn [Qnum Qden inject_Z].
  apply Z.gcd_1_r.
Qed.

Lemma parse_quantity_of_Z n :
  0 < n -> parse_quantity (Val (Num (of_Z n))) = Ok (Val (Num (of_Z n))).
Proof.
  intros Hn. unfold parse_quantity, of_Z. cbn [float_of_str bind PyFloat.int].
  rewrite this_of_Z. cbn [Qnum Qden inject_Z]. rewrite Z.quot_1_r.
  apply Z.leb_gt in Hn. now rewrite Hn.
Qed.

Lemma quantity_of_again c : quantity_of (quantity_of c) = quantity_of c.
Proof.
  pose proof (quantity_of_positive c) as H.
  destruct (quantity_of c) as [|v]; [reflexivity|].
  destruct H as (n & Hn & ->).
  unfold quantity_of. now rewrite parse_quantity_of_Z.
Qed.

Lemma parse_quantity_cleaned c :
  parse_quantity (quantity_of c) = Ok (quantity_of (quantity_of c)).
Proof.
  rewrite quantity_of_again.
  pose proof (quantity_of_positive c) as H.
  destruct (quantity_of c) as [|v]; [reflexivity|].
  destruct H as (n & Hn & ->). now apply parse_quantity_of_Z.
Qed.

(** *** Prices *)

Lemma round_half_even_Z q k : q == inject_Z k -> round_half_even q = k.
Proof.
  intros H. unfold round_half_even.
  assert (Hf : Qfloor q = k) by (rewrite H; apply Qfloor_Z).
  rewrite Hf.
  assert (C : Qcompare (q - inject_Z k) (1 # 2) = Lt).
  { apply (proj1 (Qlt_alt _ _)). rewrite H. lra. }
  now rewrite C.
Qed.

(** What [parse_price] returns: nothing, plus infinity, or a whole number of
    hundredths that is not negative. *)
Lemma price_of_cases c :
  price_of c = NaN
  \/ price_of c = Val (Num (Inf false))
  \/ exists k, 0 <= k /\ price_of c = Val (Num (Fin (Q2Qc (k # 100)))).
Proof.
  destruct c as [|v]; [now left|].
  destruct (parse_price_refines v) as [| | | |q k E Hq Hk];
    [now left | now left | now left | right; now left|].
  right. right. exists k. split; [|reflexivity].
  unfold rounded_to_cents in Hk. apply Qabs_Qle_condition in Hk as [_ Hk].
  assert (H : (- (1 # 2) < inject_Z k)%Q) by lra.
  unfold Qlt in H. cbn in H. lia.
Qed.

Lemma cents_zero k : Q2Qc (k # 100) = Q2Qc (inject_Z 0) -> k = 0.
Proof.
  intros H. apply Q2Qc_eq_iff in H. unfold Qeq in H. cbn in H. lia.
Qed.

Lemma price_of_again c :
  price_of c <> Val (Num (of_Z 0)) -> price_of (price_of c) = price_of c.
Proof.
  intros Hz.
  destruct (price_of_cases c) as [E|[E|(k & Hk & E)]]; rewrite E in *;
    try reflexivity.
  assert (Hpos : 0 < k).
  { destruct (Z.eq_dec k 0) as [->|]; [|lia].
    exfalso. apply Hz. unfold of_Z. do 3 f_equal.
    apply Q2Qc_eq_iff. reflexivity. }
  unfold price_of, parse_price.
  cbn [float_of_str bind le0 this Q2Qc].
  assert (Hle : Qle_bool (Qred (k # 100)) 0 = false).
  { destruct (Qle_bool (Qred (k # 100)) 0) eqn:L; [|reflexivity].
    apply Qle_bool_iff in L. rewrite Qred_correct in L.
    unfold Qle in L. cbn in L. lia. }
  rewrite Hle. cbn [try_except round2 of_float value_or this Q2Qc].
  do 3 f_equal. apply Q2Qc_eq_iff.
  rewrite (round_half_even_Z (Qred (k # 100) * 100) k); [reflexivity|].
  rewrite Qred_correct. unfold Qeq. cbn. lia.
Qed.

(** *** Dates *)

Ltac each_digit k :=
  match goal with
  | H : 0 <= k <= 9 |- _ =>
      let C := fresh in
      assert (C : k = 0 \/ k = 1 \/ k = 2 \/ k = 3 \/ k = 4 \/ k = 5 \/ k = 6
                  \/ k = 7 \/ k = 8 \/ k = 9) by lia;
      clear H;
      repeat (destruct C as [->|C]); [..|subst k]
  end.

Lemma isdigit_digit k : 0 <= k <= 9 -> isdigit (digit k) = true.
Proof. intros H. each_digit k; reflexivity. Qed.

Lemma isspace_digit k : 0 <= k <= 9 -> isspace (digit k) = false.
Proof. intros H. each_digit k; reflexivity. Qed.

Lemma digit_val_digit k : 0 <= k <= 9 -> digit_val (digit k) = k.
Proof. intros H. each_digit k; reflexivity. Qed.

Lemma first_match_one {A B} (k : A -> option B) a : first_match k [a] = k a.
Proof. simpl. now destruct (k a). Qed.

Lemma regex_match_year y1 y2 y3 y4 r ds f :
  0 <= y1 <= 9 -> 0 <= y2 <= 9 -> 0 <= y3 <= 9 -> 0 <= y4 <= 9 ->
  regex_match (dir_Y :: ds)
    (String (digit y1) (String (digit y2) (String (digit y3)
       (String (digit y4) r)))) f
  = regex_match ds r
      (record_capture (cap_Y (1000 * y1 + 100 * y2 + 10 * y3 + y4)) f).
Proof.
  intros H1 H2 H3 H4. cbn [regex_match alts].
  rewrite !isdigit_digit, !digit_val_digit by assumption.
  cbn [andb]. now rewrite first_match_one.
Qed.

Lemma regex_match_month_day m d f :
  1 <= m <= 12 -> 1 <= d <= 31 ->
  regex_match [lit "-"; dir_m; lit "-"; dir_d]
    (String "-" (String (digit (m / 10)) (String (digit (m mod 10))
       (String "-" (String (digit (d / 10)) (String (digit (d mod 10))
          EmptyString)))))) f
  = Some (record_capture (cap_d d) (record_capture (cap_m m) f), "").
Proof.
  intros Hm Hd.
  assert (Cm : In m [1; 2; 3; 4; 5; 6; 7; 8; 9; 10; 11; 12]) by (simpl; lia).
  assert (Cd : In d [1; 2; 3; 4; 5; 6; 7; 8; 9; 10; 11; 12; 13; 14; 15; 16;
                     17; 18; 19; 20; 21; 22; 23; 24; 25; 26; 27; 28; 29; 30;
                     31]) by (simpl; lia).
  clear Hm Hd. simpl in Cm, Cd.
  repeat (destruct Cm as [<-|Cm]); try (now destruct Cm);
    (repeat (destruct Cd as [<-|Cd]); try (now destruct Cd); reflexivity).
Qed.

(** The formats with the month or the day first do not read a text that
    starts with three digits. *)
Lemma regex_match_three_digits d1 d2 d3 r c ds f :
  0 <= d1 <= 9 -> 0 <= d2 <= 9 -> 0 <= d3 <= 9 ->
  c = "/"%char \/ c = "-"%char ->
  regex_match (dir_m :: lit c :: ds)
    (String (digit d1) (String (digit d2) (String (digit d3) r))) f = None
  /\ regex_match (dir_d :: lit c :: ds)
       (String (digit d1) (String (digit d2) (String (digit d3) r))) f = None.
Proof.
  intros H1 H2 H3 [->| ->]; each_digit d1; each_digit d2; each_digit d3;
    split; reflexivity.
Qed.

Lemma iso_text_tidy y1 y2 y3 y4 m1 m2 d1 d2 :
  Forall (fun k => 0 <= k <= 9) [y1; y2; y3; y4; m1; m2; d1; d2] ->
  tidy (iso_text y1 y2 y3 y4 m1 m2 d1 d2) = true.
Proof.
  intros H.
  repeat match goal with
         | F : Forall _ (_ :: _) |- _ =>
             let Hk := fresh in
             apply Forall_cons_iff in F as [Hk F];
             apply isspace_digit in Hk
         end.
  unfold tidy, iso_text. cbn [tidy_from].
  repeat match goal with E : isspace _ = false |- _ => rewrite E; clear E end.
  reflexivity.
Qed.

Lemma strptime_iso_text y m d :
  valid_date y m d = true ->
  let s := strftime_Ymd (mkdatetime y m d 0 0 0 0) in
  strip s = s
  /\ strptime s "%m/%d/%Y" = Raise ValueError
  /\ strptime s "%d-%m-%Y" = Raise ValueError
  /\ strptime s "%Y-%m-%d" = Ok (mkdatetime y m d 0 0 0 0).
Proof.
  intros V s. subst s. pose proof (valid_date_bounds y m d V) as (Hy & Hm & Hd).
  rewrite strftime_iso by lia.
  assert (D : Forall (fun k => 0 <= k <= 9)
                [y / 1000; (y / 100) mod 10; (y / 10) mod 10; y mod 10;
                 m / 10; m mod 10; d / 10; d mod 10])
    by (repeat constructor; Z.div_mod_to_equations; lia).
  split; [apply tidy_strip, iso_text_tidy, D|].
  repeat match goal with
         | F : Forall _ (_ :: _) |- _ =>
             let Hk := fresh "K" in apply Forall_cons_iff in F as [Hk F]
         end.
  unfold strptime, iso_text.
  replace (compile false "%m/%d/%Y")
    with (Some [dir_m; lit "/"; dir_d; lit "/"; dir_Y]) by reflexivity.
  replace (compile false "%d-%m-%Y")
    with (Some [dir_d; lit "-"; dir_m; lit "-"; dir_Y]) by reflexivity.
  replace (compile false "%Y-%m-%d")
    with (Some [dir_Y; lit "-"; dir_m; lit "-"; dir_d]) by reflexivity.
  split; [|split].
  - now rewrite (proj1 (regex_match_three_digits _ _ _ _ "/" _ _ K K0 K1
                          (or_introl eq_refl))).
  - now rewrite (proj2 (regex_match_three_digits _ _ _ _ "-" _ _ K K0 K1
                          (or_intror eq_refl))).
  - rewrite regex_match_year by assumption.
    rewrite regex_match_month_day by lia.
    cbn [record_capture fst snd String.eqb negb].
    replace (1000 * (y / 1000) + 100 * ((y / 100) mod 10)
             + 10 * ((y / 10) mod 10) + y mod 10) with y
      by (Z.div_mod_to_equations; lia).
    now rewrite V.
Qed.

Lemma lex_gtb_trans a : forall b c,
  List.length a = List.length b -> List.length b = List.length c ->
  lex_gtb a b = false -> lex_gtb b c = false -> lex_gtb a c = false.
Proof.
  induction a as [|x a IH]; intros [|y b] [|z c]; simpl; try discriminate;
    try reflexivity.
  intros [= La] [= Lb] Hab Hbc.
  apply orb_false_iff in Hab as [Hab1 Hab2], Hbc as [Hbc1 Hbc2].
  apply Z.ltb_ge in Hab1, Hbc1.
  apply orb_false_iff. split; [apply Z.ltb_ge; lia|].
  destruct (x =? z) eqn:Exz; [|reflexivity]. apply Z.eqb_eq in Exz. subst z.
  assert (x = y) by lia. subst y. rewrite Z.eqb_refl in Hab2, Hbc2.
  simpl in *. now apply (IH b c).
Qed.

(** A date that was not after the time of one run is not after the time of a
    later run. *)
Lemma datetime_gtb_later t now1 now2 :
  datetime_gtb t now1 = false -> datetime_gtb now1 now2 = false ->
  datetime_gtb t now2 = false.
Proof. unfold datetime_gtb. now apply lex_gtb_trans. Qed.

Lemma date_of_cases now c :
  date_of now c = NaN
  \/ exists y m d,
       valid_date y m d = true
       /\ datetime_gtb (mkdatetime y m d 0 0 0 0) now = false
       /\ date_of now c = Val (strftime_Ymd (mkdatetime y m d 0 0 0 0)).
Proof.
  destruct c as [|s]; [now left|].
  destruct (parse_date_refines now s) as [|? ? ? t _ _ E G|? ? ? t _ _ E G];
    [now left | now left | right].
  apply strptime_valid in E as [V E].
  exists (year t), (month t), (day t). rewrite <- E. now repeat split.
Qed.

Lemma date_of_iso now y m d :
  valid_date y m d = true ->
  datetime_gtb (mkdatetime y m d 0 0 0 0) now = false ->
  date_of now (Val (strftime_Ymd (mkdatetime y m d 0 0 0 0)))
  = Val (strftime_Ymd (mkdatetime y m d 0 0 0 0)).
Proof.
  intros V G. destruct (strptime_iso_text y m d V) as (S & F1 & F2 & F3).
  unfold date_of, parse_date. rewrite S.
  change date_formats
    with (["%m/%d/%Y"; "%d-%m-%Y"] ++ "%Y-%m-%d" :: ["%b %d, %Y"; "%d %B %Y"])%list.
  rewrite try_formats_app.
  - rewrite (try_formats_hit _ _ _ _ _ F3), G. reflexivity.
  - intros f [<-|[<-|[]]]; assumption.
Qed.

Lemma date_of_again now1 now2 c :
  datetime_gtb now1 now2 = false ->
  date_of now2 (date_of now1 c) = date_of now1 c.
Proof.
  intros L. destruct (date_of_cases now1 c) as [->|(y & m & d & V & G & ->)];
    [reflexivity|].
  apply date_of_iso; [exact V|]. now apply (datetime_gtb_later _ now1).
Qed.

(** ** A second run *)

Lemma settled_text_tidy s : tidy s = true -> settled_text (Val s).
Proof.
  intros H. split; [now apply clean_text_fixed | now apply has_whitespace_tidy].
Qed.

Lemma settled_clean_text c : settled_text (clean_text c).
Proof. destruct (clean_text_tidy c) as (s & -> & H). now apply settled_text_tidy. Qed.

(** A row out of the pipeline is settled for any later run, unless its
    category is a title-case key or its price is zero. *)
Lemma cleaned_row_settled now1 now2 r :
  datetime_gtb now1 now2 = false ->
  ~ In (category (cleaned_row now1 r)) title_case_keys ->
  price (cleaned_row now1 r) <> Val (Num (of_Z 0)) ->
  settled now2 (cleaned_row now1 r).
Proof.
  intros L Hc Hp. unfold settled, cleaned_row in *.
  cbn [customer_name email phone order_date product_name category quantity
       price status] in *.
  split; [apply settled_clean_text|].
  split; [apply settled_clean_text|].
  split.
  { destruct (categorize_clean_text (category r)) as (v & -> & Ht & _).
    now apply settled_text_tidy. }
  split.
  { destruct (restatus_clean_text (status r)) as (v & -> & Ht & _).
    now apply settled_text_tidy. }
  split.
  { destruct (validate_clean_text (email r)) as [->|(e & -> & Ht & _)];
      [reflexivity | now apply has_whitespace_tidy]. }
  split; [apply validate_again|].
  split; [apply format_phone_again|].
  split; [now apply date_of_again|].
  split; [now apply price_of_again|].
  split; [rewrite parse_quantity_cleaned; now rewrite quantity_of_again|].
  split.
  { pose proof (categorize_again (category r) Hc) as H.
    destruct (categorize_clean_text (category r)) as (v & E & Ht & _).
    rewrite E in *. now rewrite (clean_text_fixed v Ht) in H. }
  { pose proof (restatus_again (status r)) as H.
    destruct (restatus_clean_text (status r)) as (v & E & Ht & _).
    rewrite E in *. now rewrite (clean_text_fixed v Ht) in H. }
Qed.

Lemma settled_row_fixed now r : settled now r -> cleaned_row now r = r.
Proof.
  intros ((Hn & _) & (Hp & _) & (Hc & _) & (Hs & _) & _ & He & Hph & Hd & Hpr
          & Hq & Hcat & Hst).
  unfold cleaned_row, quantity_of.
  rewrite Hn, Hp, Hc, Hs, He, Hph, Hd, Hpr, Hq, Hcat, Hst.
  now destruct r.
Qed.

Lemma drop_duplicates_from_NoDup l : forall seen,
  NoDup l -> (forall r, In r l -> ~ In r seen) ->
  drop_duplicates_from seen l = l.
Proof.
  induction l as [|a l IH]; intros seen Hnd Hdis; [reflexivity|].
  inversion Hnd as [|? ? Ha Hl]; subst. cbn [drop_duplicates_from].
  destruct (existsb (row_eqb a) seen) eqn:E.
  - apply existsb_row_eqb in E. now elim (Hdis a (or_introl eq_refl)).
  - f_equal. apply IH; [assumption|].
    intros r Hr [<-|Hs]; [contradiction|].
    apply (Hdis r); [now right | assumption].
Qed.

Lemma drop_duplicates_NoDup l : NoDup l -> drop_duplicates l = l.
Proof. intros H. now apply drop_duplicates_from_NoDup. Qed.

Lemma filter_nothing {A} (p : A -> bool) l :
  Forall (fun a => p a = false) l -> len (filter p l) = 0.
Proof.
  intros H. unfold len. induction H as [|a l Ha _ IH]; [reflexivity|].
  simpl. now rewrite Ha.
Qed.

Lemma logged_zero s d : logged s d 0 = [].
Proof. reflexivity. Qed.

Lemma map_fixed {A} (f : A -> A) l : Forall (fun a => f a = a) l -> map f l = l.
Proof.
  intros H. induction H as [|a l Ha _ IH]; [reflexivity|].
  simpl. now rewrite Ha, IH.
Qed.

Lemma Forall_settled {P : Row -> Prop} now df :
  Forall (settled now) df -> (forall r, settled now r -> P r) -> Forall P df.
Proof. intros H HP. now apply (Forall_impl P HP). Qed.

(** On a frame of settled rows without duplicates a run returns the frame and
    logs [settled_log]. *)
Theorem run_on_settled now df0 self :
  NoDup df0 -> Forall (settled now) df0 ->
  exists self',
    run_cleaning_pipeline now df0 self = Ok self'
    /\ df self' = df0
    /\ cleaning_log self' = (cleaning_log self ++ settled_log df0)%list.
Proof.
  intros Hnd Hs.
  pose proof (drop_duplicates_NoDup df0 Hnd) as Hdd.
  destruct (run_cleaning_pipeline_returns now df0 self) as [self' E].
  { rewrite Hdd. intros r Hr. rewrite Forall_forall in Hs.
    destruct (Hs r Hr) as (_ & _ & _ & _ & _ & _ & _ & _ & _ & Hq & _).
    unfold quantity_of. now rewrite Hq. }
  exists self'. split; [exact E|].
  apply run_cleaning_pipeline_Ok in E as (D & _ & L).
  rewrite Hdd in D. split.
  - rewrite D. apply map_fixed.
    apply (Forall_settled now df0 Hs). apply settled_row_fixed.
  - rewrite L. f_equal. unfold run_log, settled_log. cbv zeta. rewrite Hdd.
    replace (len df0 - len df0) with 0 by lia. rewrite logged_zero.
    cbn [app].
    assert (W : total_whitespace df0 = 0).
    { unfold total_whitespace, whitespace_count.
      rewrite !filter_nothing; [reflexivity|..];
        apply (Forall_settled now df0 Hs); intros r H; cbn [get];
        unfold col_customer_name, col_email, col_product_name, col_category,
          col_status; cbn [get]; apply H. }
    rewrite W. f_equal.
    assert (E1 : newly_missing col_email validate_email
                   (map clean_whitespace_row df0)
                 = len (filter (fun r => isna (email r)) df0)).
    { rewrite invalid_after_cleaning, (filter_nothing (fun r => notna _ && _));
        [lia|].
      apply (Forall_settled now df0 Hs).
      intros r (_ & _ & _ & _ & _ & He & _). rewrite He.
      now destruct (email r). }
    rewrite E1.
    assert (Z0 : forall {A} (col : column A) f,
               (forall r, settled now r -> f (get col r) = get col r) ->
               newly_missing col f df0 = 0).
    { intros A col f H. unfold newly_missing. apply filter_nothing.
      apply (Forall_settled now df0 Hs). intros r Hr. rewrite (H r Hr).
      now destruct (get col r). }
    rewrite (Z0 _ col_phone format_phone) by (intros r H; apply H).
    rewrite (Z0 _ col_order_date (date_of now)) by (intros r H; apply H).
    rewrite (Z0 _ col_price price_of) by (intros r H; apply H).
    rewrite (Z0 _ col_quantity quantity_of).
    2:{ intros r (_ & _ & _ & _ & _ & _ & _ & _ & _ & Hq & _).
        unfold quantity_of. cbn [get col_quantity]. now rewrite Hq. }
    assert (V0 : forall col f,
               (forall r, settled now r ->
                          get col (clean_whitespace_row r) = get col r) ->
               (forall r, settled now r -> f (get col r) = get col r) ->
               variations_removed col f (map clean_whitespace_row df0) = 0).
    { intros col f Hw Hf. unfold variations_removed, getcol.
      rewrite !map_map.
      rewrite (map_ext_in _ (get col)), (map_ext_in (fun x => f _) (get col));
        [lia| |].
      - intros r Hr. rewrite Forall_forall in Hs.
        rewrite (Hw r (Hs r Hr)). apply (Hf r (Hs r Hr)).
      - intros r Hr. rewrite Forall_forall in Hs. apply (Hw r (Hs r Hr)). }
    rewrite (V0 col_category categorize), (V0 col_status restatus);
      try (intros r H; apply H).
    rewrite !logged_zero, !app_nil_r. reflexivity.
Qed.




(** * Further properties of the steps *)

Lemma DataCleaner_eq a b :
  df a = df b -> original_df a = original_df b ->
  cleaning_log a = cleaning_log b -> a = b.
Proof. destruct a, b; simpl; intros -> -> ->; reflexivity. Qed.

(** A step with the effect of rewriting the frame by [f] and logging [n] when
    positive changes nothing on a frame that [f] fixes and where [n] is 0. *)
Lemma effect_nothing f s d self self' :
  effect f (logged s d 0) self self' -> f (df self) = df self -> self' = self.
Proof.
  intros (D & L & O) F. apply DataCleaner_eq; [congruence | assumption|].
  rewrite L, logged_zero. apply app_nil_r.
Qed.

(** ** Duplicates *)

Lemma row_eq_dec (r1 r2 : Row) : r1 = r2 \/ r1 <> r2.
Proof.
  destruct (row_eqb r1 r2) eqn:E.
  - left. now apply row_eqb_eq.
  - right. intros H. apply row_eqb_eq in H. congruence.
Qed.

Lemma drop_duplicates_from_In l : forall seen r,
  In r (drop_duplicates_from seen l) <-> In r l /\ ~ In r seen.
Proof.
  induction l as [|a l IH]; intros seen r; cbn [drop_duplicates_from].
  - simpl. tauto.
  - destruct (existsb (row_eqb a) seen) eqn:E.
    + apply existsb_row_eqb in E. rewrite IH. simpl. split.
      * tauto.
      * intros [[<-|H] Hs]; [contradiction | tauto].
    + assert (Ha : ~ In a seen).
      { intros H. apply existsb_row_eqb in H. congruence. }
      simpl. rewrite IH. simpl. split.
      * intros [<-|[H Hs]]; [tauto|]. split; [tauto|]. intros Hr. apply Hs. now right.
      * intros [[<-|H] Hs]; [now left|].
        destruct (row_eq_dec a r) as [<-|Hne]; [now left|].
        right. split; [assumption|]. intros [Hr|Hr]; [contradiction | contradiction].
Qed.

Lemma drop_duplicates_from_NoDup_out l : forall seen,
  NoDup (drop_duplicates_from seen l).
Proof.
  induction l as [|a l IH]; intros seen; cbn [drop_duplicates_from].
  - constructor.
  - destruct (existsb (row_eqb a) seen); [apply IH|].
    constructor; [|apply IH].
    rewrite drop_duplicates_from_In. intros [_ H]. apply H. now left.
Qed.

(** X1. [drop_duplicates] leaves no two identical rows, keeps exactly the rows
    that occur in the frame, and changes nothing when applied again. *)
Theorem drop_duplicates_distinct l :
  NoDup (drop_duplicates l)
  /\ (forall r, In r (drop_duplicates l) <-> In r l)
  /\ drop_duplicates (drop_duplicates l) = drop_duplicates l.
Proof.
  assert (N : NoDup (drop_duplicates l)) by apply drop_duplicates_from_NoDup_out.
  split; [exact N|]. split.
  - intros r. unfold drop_duplicates. rewrite drop_duplicates_from_In. simpl. tauto.
  - now apply drop_duplicates_NoDup.
Qed.

(** X2. Running [remove_duplicates] a second time changes neither the frame
    nor the log. *)
Theorem remove_duplicates_idempotent self :
  remove_duplicates (remove_duplicates self) = remove_duplicates self.
Proof.
  set (s1 := remove_duplicates self).
  pose proof (remove_duplicates_effect self) as (D1 & _).
  fold s1 in D1.
  assert (F : drop_duplicates (df s1) = df s1).
  { rewrite D1. apply drop_duplicates_NoDup, drop_duplicates_from_NoDup_out. }
  pose proof (remove_duplicates_effect s1) as E. rewrite F in E.
  replace (len (df s1) - len (df s1)) with 0 in E by lia.
  now apply (effect_nothing _ _ _ _ _ E).
Qed.

(** ** Whitespace *)

Lemma clean_whitespace_row_tidy r :
  let r' := clean_whitespace_row r in
  settled_text (customer_name r') /\ settled_text (email r')
  /\ settled_text (product_name r') /\ settled_text (category r')
  /\ settled_text (status r').
Proof. repeat split; apply settled_clean_text. Qed.

Lemma clean_whitespace_row_again r :
  clean_whitespace_row (clean_whitespace_row r) = clean_whitespace_row r.
Proof.
  destruct (clean_whitespace_row_tidy r) as ((H1 & _) & (H2 & _) & (H3 & _)
                                             & (H4 & _) & (H5 & _)).
  unfold clean_whitespace_row in *.
  cbn [order_id customer_name email phone order_date product_name category
       quantity price status] in *.
  now rewrite H1, H2, H3, H4, H5.
Qed.

(** X3. After [clean_whitespace] every cell of the five text columns is a
    text without a blank at either end whose only blanks are single spaces,
    and running the step again leaves the frame as it is and logs a count
    of 0. *)
Theorem clean_whitespace_idempotent self :
  let cleaned := clean_whitespace self in
  Forall (fun r =>
            Forall (fun c => exists s, c = Val s /\ tidy s = true)
              [customer_name r; email r; product_name r; category r; status r])
    (df cleaned)
  /\ df (clean_whitespace cleaned) = df cleaned
  /\ cleaning_log (clean_whitespace cleaned)
     = (cleaning_log cleaned
        ++ [mkLogEntry "clean_whitespace" "Whitespace cleaned in text fields" 0])%list.
Proof.
  intros cleaned. subst cleaned. rewrite !clean_whitespace_eq.
  cbn [df with_df log_change cleaning_log]. split; [|split].
  - apply Forall_map, Forall_forall. intros r _.
    unfold clean_whitespace_row.
    cbn [customer_name email product_name category status].
    repeat constructor;
      match goal with
      | |- exists s, clean_text ?c = _ /\ _ =>
          destruct (clean_text_tidy c) as (s & -> & Ht); now exists s
      end.
  - rewrite map_map. apply map_ext. intros r. apply clean_whitespace_row_again.
  - do 3 f_equal. unfold total_whitespace, whitespace_count.
    rewrite !filter_nothing; [reflexivity|..];
      apply Forall_map, Forall_forall; intros r _;
      apply (clean_whitespace_row_tidy r).
Qed.

(** ** E-mail addresses *)

Lemma validate_email_again c : validate_email (validate_email c) = validate_email c.
Proof.
  destruct c as [|s]; [reflexivity|]. unfold validate_email.
  destruct (re_match email_pattern (lower s)) eqn:E; [|reflexivity].
  now rewrite lower_idem, E.
Qed.

Lemma on_column_again {A} (col : column A) f df :
  lawful col -> (forall c, f (f c) = f c) ->
  on_column col f (on_column col f df) = on_column col f df.
Proof.
  intros L H. rewrite on_column_compose by apply L.
  unfold on_column. apply map_ext. intros r. now rewrite H.
Qed.

Lemma newly_missing_again {A} (col : column A) f df :
  lawful col -> (forall c, f (f c) = f c) ->
  newly_missing col f (on_column col f df) = 0.
Proof.
  intros [Hget _] H. unfold newly_missing, on_column.
  apply filter_nothing, Forall_map, Forall_forall. intros r _.
  rewrite Hget, H. now destruct (f (get col r)).
Qed.

(** A step that rewrites one column by an idempotent function, and logs the
    cells it makes missing, does nothing when it runs again. *)
Lemma step_again {A} (col : column A) f s d (step : DataCleaner -> DataCleaner) :
  lawful col -> (forall c, f (f c) = f c) ->
  (forall self,
      effect (on_column col f) (logged s d (newly_missing col f (df self)))
        self (step self)) ->
  forall self, step (step self) = step self.
Proof.
  intros L H E self.
  destruct (E self) as (D1 & _). destruct (E (step self)) as (D2 & L2 & O2).
  apply DataCleaner_eq; [|assumption|].
  - now rewrite D2, D1, on_column_again.
  - rewrite L2, D1, newly_missing_again by assumption.
    rewrite logged_zero. apply app_nil_r.
Qed.

(** X4. Running [standardize_emails] a second time changes neither the frame
    nor the log. *)
Theorem standardize_emails_idempotent self :
  standardize_emails (standardize_emails self) = standardize_emails self.
Proof.
  revert self.
  apply (step_again col_email validate_email
           "standardize_emails" "Invalid emails removed").
  - split; intros; reflexivity.
  - apply validate_email_again.
  - apply standardize_emails_effect.
Qed.

Lemma occurrences_app c s t :
  occurrences c (s ++ t) = (occurrences c s + occurrences c t)%nat.
Proof. induction s as [|a s IH]; simpl; [reflexivity | rewrite IH; lia]. Qed.

Lemma occurrences_none p c s :
  p c = false -> sforall p s = true -> occurrences c s = O.
Proof.
  intros Hp. induction s as [|a s IH]; simpl; [reflexivity|].
  intros H. apply andb_prop in H as [Ha Hs].
  destruct (Ascii.eqb a c) eqn:E.
  - apply Ascii.eqb_eq in E. subst a. congruence.
  - now rewrite IH.
Qed.

Lemma email_shape_one_at e : email_shape e -> occurrences "@" e = 1%nat.
Proof.
  intros (l & d & t & -> & _ & Hl & _ & Hd & _ & Ht).
  rewrite !occurrences_app.
  rewrite (occurrences_none local_char "@" l), (occurrences_none domain_char "@" d),
    (occurrences_none isalpha "@" t) by (reflexivity || assumption).
  reflexivity.
Qed.

(** X5. An address that [standardize_emails] keeps is lower-case and holds
    exactly one at sign. *)
Theorem kept_email_one_at s e :
  validate_email (Val s) = Val e ->
  e = lower s /\ lower e = e /\ occurrences "@" e = 1%nat.
Proof.
  intros H.
  destruct (validate_email_cases s) as [[Hs E]|[_ E]]; rewrite E in H;
    [|discriminate].
  injection H as <-. split; [reflexivity|]. split; [apply lower_idem|].
  destruct Hs as [Hs|(e & -> & He)].
  - now apply email_shape_one_at.
  - rewrite occurrences_app, (email_shape_one_at e He). reflexivity.
Qed.

Lemma kept_email_one_at_witness :
  "ann@example.com" = lower "Ann@Example.COM"
  /\ lower "ann@example.com" = "ann@example.com"
  /\ occurrences "@" "ann@example.com" = 1%nat.
Proof. apply (kept_email_one_at "Ann@Example.COM"). reflexivity. Defined.

(** ** Phone numbers *)

(** X6. Running [clean_phone_numbers] a second time changes neither the frame
    nor the log. *)
Theorem clean_phone_numbers_idempotent self :
  clean_phone_numbers (clean_phone_numbers self) = clean_phone_numbers self.
Proof.
  revert self.
  apply (step_again col_phone format_phone
           "clean_phone_numbers" "Invalid phone numbers removed").
  - split; intros; reflexivity.
  - apply format_phone_again.
  - apply clean_phone_numbers_effect.
Qed.

(** X7. A phone that [format_phone] returns is DDD-DDD-DDDD made of the
    decimal digits of the value, in their order, a leading 1 left out when the
    value has eleven digits. *)
Theorem format_phone_keeps_digits p q :
  format_phone (Val p) = Val q ->
  exists a b c d e f g h i j,
    q = dashed a b c d e f g h i j
    /\ sforall isdigit (str10 a b c d e f g h i j) = true
    /\ sub_nondigits q = str10 a b c d e f g h i j
    /\ (sub_nondigits p = sub_nondigits q
        \/ sub_nondigits p = String "1" (sub_nondigits q)).
Proof.
  intros H. pose proof (sub_nondigits_digits p) as Hd.
  assert (K : forall a b c d e f g h i j,
             sforall isdigit (str10 a b c d e f g h i j) = true ->
             sub_nondigits (dashed a b c d e f g h i j)
             = str10 a b c d e f g h i j).
  { intros a b c d e f g h i j K. simpl in K.
    repeat match type of K with
           | _ && _ = true => let H' := fresh in apply andb_prop in K as [H' K]
           end.
    unfold sub_nondigits, dashed. cbn [sfilter].
    repeat match goal with E : isdigit _ = true |- _ => rewrite E; clear E end.
    reflexivity. }
  pose proof (format_phone_refines p) as R. rewrite H in R.
  inversion R as [a b c d e f g h i j E|a b c d e f g h i j E|]; subst;
    rewrite E in Hd; [|simpl in Hd];
    exists a, b, c, d, e, f, g, h, i, j;
    rewrite (K _ _ _ _ _ _ _ _ _ _ Hd); auto.
Qed.

Lemma format_phone_keeps_digits_witness :
  exists a b c d e f g h i j,
    "555-123-4567" = dashed a b c d e f g h i j
    /\ sforall isdigit (str10 a b c d e f g h i j) = true
    /\ sub_nondigits "555-123-4567" = str10 a b c d e f g h i j
    /\ (sub_nondigits "+1 (555) 123-4567" = sub_nondigits "555-123-4567"
        \/ sub_nondigits "+1 (555) 123-4567"
           = String "1" (sub_nondigits "555-123-4567")).
Proof. apply (format_phone_keeps_digits "+1 (555) 123-4567"). reflexivity. Defined.

(** ** Status *)

Lemma status_values_canonical k v :
  In (k, v) status_mapping -> In v canonical_statuses.
Proof.
  intros H. simpl in H.
  repeat (destruct H as [[= <- <-]|H]; [in_list|]). destruct H.
Qed.

Lemma restatus_idem c : restatus (restatus c) = restatus c.
Proof.
  destruct c as [|s]; [reflexivity|]. unfold restatus, series_replace.
  destruct (lookup status_mapping s) as [w|] eqn:E.
  - apply lookup_Some in E. now rewrite (proj2 (status_values s w E)).
  - now rewrite E.
Qed.

(** X8. [standardize_status] rewrites the status of every row: a key of the
    table becomes the status the table gives, one of Pending, Shipped,
    Delivered and Cancelled; any other text, and a missing cell, stay as they
    are.  What it writes is never a key of the table. *)
Theorem standardize_status_canonical :
  (forall self,
      effect (on_column col_status restatus)
        (logged "standardize_status" "Status variations consolidated"
           (variations_removed col_status restatus (df self)))
        self (standardize_status self))
  /\ restatus NaN = NaN
  /\ (forall s,
        (exists w, In (s, w) status_mapping /\ In w canonical_statuses
                   /\ restatus (Val s) = Val w)
        \/ ((forall w, ~ In (s, w) status_mapping) /\ restatus (Val s) = Val s))
  /\ (forall c s, restatus c = Val s -> forall w, ~ In (s, w) status_mapping).
Proof.
  split; [apply standardize_status_effect|]. split; [reflexivity|]. split.
  - intros s. unfold restatus, series_replace.
    destruct (lookup status_mapping s) as [w|] eqn:E.
    + left. exists w. apply lookup_Some in E.
      split; [assumption|]. split; [now apply (status_values_canonical s) | reflexivity].
    + right. split; [now apply lookup_None | reflexivity].
  - intros c s H. apply lookup_None.
    destruct c as [|t]; [discriminate|]. unfold restatus, series_replace in H.
    destruct (lookup status_mapping t) as [w|] eqn:E; injection H as <-.
    + apply lookup_Some in E. apply (status_values t w E).
    + exact E.
Qed.

Lemma getcol_on_column_same {A} (col : column A) f df :
  lawful col -> (forall c, f (f c) = f c) ->
  map f (getcol col (on_column col f df)) = getcol col (on_column col f df).
Proof.
  intros L H. rewrite (getcol_on_column col f df L), map_map.
  apply map_ext. intros c. apply H.
Qed.

(** A step that rewrites one column by an idempotent function, and logs the
    distinct values it removes, does nothing when it runs again. *)
Lemma mapping_step_again (col : column string) f s d
    (step : DataCleaner -> DataCleaner) :
  lawful col -> (forall c, f (f c) = f c) ->
  (forall self,
      effect (on_column col f) (logged s d (variations_removed col f (df self)))
        self (step self)) ->
  forall self, step (step self) = step self.
Proof.
  intros L H E self.
  destruct (E self) as (D1 & _). destruct (E (step self)) as (D2 & L2 & O2).
  apply DataCleaner_eq; [|assumption|].
  - now rewrite D2, D1, on_column_again.
  - rewrite L2, D1. unfold variations_removed.
    rewrite getcol_on_column_same by assumption.
    rewrite Z.sub_diag, logged_zero. apply app_nil_r.
Qed.

(** X9. Running [standardize_status] a second time changes neither the frame
    nor the log. *)
Theorem standardize_status_idempotent self :
  standardize_status (standardize_status self) = standardize_status self.
Proof.
  revert self.
  apply (mapping_step_again col_status restatus
           "standardize_status" "Status variations consolidated").
  - split; intros; reflexivity.
  - apply restatus_idem.
  - apply standardize_status_effect.
Qed.

(** ** Categories *)

Lemma category_values_not_keys k v :
  In (k, v) category_mapping -> lookup category_mapping v = None.
Proof.
  intros H. simpl in H.
  repeat (destruct H as [[= <- <-]|H]; [reflexivity|]). destruct H.
Qed.

(** After one pass a category is its own title case; after two it is a fixed
    point of [categorize]. *)
Lemma categorize_twice_fixed c :
  categorize (categorize (categorize c)) = categorize (categorize c).
Proof.
  destruct c as [|s]; [reflexivity|].
  assert (H1 : exists v, categorize (Val s) = Val v /\ title v = v).
  { unfold categorize, series_replace, str_method.
    destruct (lookup category_mapping s); eexists; split;
      try reflexivity; apply title_idem. }
  destruct H1 as (v & -> & Hv).
  unfold categorize at 2 3. unfold series_replace, str_method.
  destruct (lookup category_mapping v) as [w|] eqn:E.
  - apply lookup_Some in E.
    destruct (category_values_canonical _ _ E) as [_ Hw].
    rewrite Hw. unfold categorize, series_replace, str_method.
    now rewrite (category_values_not_keys _ _ E), Hw.
  - rewrite Hv. unfold categorize, series_replace, str_method.
    now rewrite E, Hv.
Qed.

(** X10. One pass of [standardize_categories] is not always enough, two
    are: a third pass changes neither the frame nor the log. *)
Theorem standardize_categories_settles self :
  let twice := standardize_categories (standardize_categories self) in
  standardize_categories twice = twice.
Proof.
  intros twice. subst twice.
  set (s1 := standardize_categories self).
  destruct (standardize_categories_effect self) as (D1 & _). fold s1 in D1.
  destruct (standardize_categories_effect s1) as (D2 & _).
  set (s2 := standardize_categories s1) in *.
  destruct (standardize_categories_effect s2) as (D3 & L3 & O3).
  assert (L : lawful col_category) by (split; intros; reflexivity).
  assert (F : on_column col_category categorize (df s2) = df s2).
  { rewrite D2, D1. rewrite !on_column_compose by apply L.
    unfold on_column. apply map_ext. intros r.
    now rewrite categorize_twice_fixed. }
  apply DataCleaner_eq; [congruence | assumption|].
  rewrite L3. unfold variations_removed.
  assert (G : map categorize (getcol col_category (df s2))
              = getcol col_category (df s2)).
  { rewrite <- F at 2. now rewrite getcol_on_column. }
  rewrite G, Z.sub_diag, logged_zero. apply app_nil_r.
Qed.

(** ** Dates *)



(** A step in the error monad that rewrites one column by [f] and logs the
    cells it makes missing returns its own result unchanged when it runs on
    it with [g], provided [g] fixes what [f] writes. *)
Lemma newly_missing_fixed {A} (col : column A) f g df :
  lawful col -> (forall c, g (f c) = f c) ->
  newly_missing col g (on_column col f df) = 0.
Proof.
  intros [Hget _] H. unfold newly_missing, on_column.
  apply filter_nothing, Forall_map, Forall_forall. intros r _.
  rewrite Hget, H. now destruct (f (get col r)).
Qed.

Lemma on_column_fixed {A} (col : column A) f g df :
  lawful col -> (forall c, g (f c) = f c) ->
  on_column col g (on_column col f df) = on_column col f df.
Proof.
  intros L H. rewrite on_column_compose by apply L.
  unfold on_column. apply map_ext. intros r. now rewrite H.
Qed.



(** ** Prices *)

Lemma price_of_twice_not_zero c :
  price_of (price_of c) <> Val (Num (of_Z 0)).
Proof.
  destruct (price_of_cases c) as [E|[E|(k & Hk & E)]].
  - rewrite E. discriminate.
  - rewrite E. vm_compute. discriminate.
  - assert (Hc : k = 0 \/ 0 < k) by lia. destruct Hc as [->|Hpos].
    + rewrite E.
      replace (Q2Qc (0 # 100)) with (Q2Qc (inject_Z 0))
        by (apply Qc_is_canon; reflexivity).
      vm_compute. discriminate.
    + assert (N : price_of c <> Val (Num (of_Z 0))).
      { rewrite E. intros [= F].
        assert (Q : (k # 100 == inject_Z 0)%Q).
        { apply Q2Qc_eq_iff. apply Qc_is_canon. simpl. now rewrite F. }
        unfold Qeq in Q. simpl in Q. lia. }
      now rewrite (price_of_again c N).
Qed.

Lemma price_of_settles c :
  price_of (price_of (price_of c)) = price_of (price_of c).
Proof. apply price_of_again, price_of_twice_not_zero. Qed.

(** X13. [clean_prices] never raises.  One pass is not always enough, since
    it rounds after it has tested the sign, and two are: a third pass changes
    neither the frame nor the log. *)
Theorem clean_prices_settles self :
  exists self1 self2,
    clean_prices self = Ok self1
    /\ clean_prices self1 = Ok self2
    /\ clean_prices self2 = Ok self2.
Proof.
  destruct (clean_prices_effect self) as (s1 & R1 & D1 & _).
  destruct (clean_prices_effect s1) as (s2 & R2 & D2 & _).
  destruct (clean_prices_effect s2) as (s3 & R3 & E3).
  exists s1, s2. split; [assumption|]. split; [assumption|].
  rewrite R3. f_equal.
  assert (L : lawful col_price) by (split; intros; reflexivity).
  assert (D : df s2 = on_column col_price (fun c => price_of (price_of c)) (df self)).
  { rewrite D2, D1. now rewrite on_column_compose by apply L. }
  assert (F : on_column col_price price_of (df s2) = df s2).
  { rewrite D. rewrite on_column_compose by apply L.
    unfold on_column. apply map_ext. intros r. now rewrite price_of_settles. }
  assert (N : newly_missing col_price price_of (df s2) = 0).
  { rewrite D. apply (newly_missing_fixed col_price
                        (fun c => price_of (price_of c)) price_of _ L).
    apply price_of_settles. }
  rewrite N in E3. now apply (effect_nothing _ _ _ _ _ E3).
Qed.

(** ** Quantities *)

Lemma strip_strip s : strip (strip s) = strip s.
Proof.
  unfold strip at 1.
  assert (L : lstrip (strip s) = strip s).
  { pose proof (strip_head s) as H. destruct (strip s) as [|c r]; [reflexivity|].
    simpl. now rewrite H. }
  rewrite L. apply (rstrip_fixed _ false), strip_ends.
Qed.

Lemma float_infinity s :
  (exists b, float (strip s) = Ok (Val (Inf b))) <-> infinity_text s = true.
Proof.
  unfold float, infinity_text. rewrite strip_strip.
  destruct (sign (strip s)) as [neg r]. cbn [snd].
  destruct (String.eqb (lower r) "inf" || String.eqb (lower r) "infinity").
  - split; [reflexivity|]. intros _. now exists neg.
  - split; [|discriminate]. intros [b H].
    destruct (String.eqb (lower r) "nan"); [discriminate|].
    destruct (pointfloat r) as [[[m n] r']|]; [|discriminate].
    destruct (exponent r'); discriminate.
Qed.

Lemma parse_quantity_overflow c :
  parse_quantity c = Raise OverflowError <-> infinite_quantity c = true.
Proof.
  destruct c as [|[s|[q|b]]]; simpl.
  - split; discriminate.
  - rewrite <- float_infinity. split.
    + destruct (float (strip s)) as [[|[q|b]]|e] eqn:E; simpl;
        try discriminate.
      * now destruct (_ <=? 0).
      * intros _. now exists b.
      * apply float_raises in E. now subst e.
    + intros [b ->]. reflexivity.
  - split; [|discriminate]. now destruct (_ <=? 0).
  - split; reflexivity.
Qed.

Lemma apply_Ok_each {A B} (f : A -> result B) col l :
  apply f col = Ok l -> forall a, In a col -> exists b, f a = Ok b.
Proof.
  revert l. induction col as [|a0 col IH]; intros l H a Hin; [destruct Hin|].
  simpl in H. destruct (f a0) as [b0|e] eqn:E0; [|discriminate].
  cbn [bind] in H. destruct (apply f col) as [bs|e] eqn:E; [|discriminate].
  destruct Hin as [<-|Hin]; [now exists b0 | now apply (IH bs)].
Qed.

Lemma clean_quantities_Ok_each self self' :
  clean_quantities self = Ok self' ->
  forall r, In r (df self) -> parse_quantity (quantity r) = Ok (quantity_of (quantity r)).
Proof.
  unfold clean_quantities. intros H r Hin.
  destruct (apply parse_quantity _) as [qs|e] eqn:E; [|discriminate].
  destruct (apply_Ok_each _ _ _ E (quantity r)) as [b Hb].
  - unfold getcol. apply in_map_iff. now exists r.
  - destruct (parse_quantity_cases (quantity r)) as [K|K]; [assumption|].
    rewrite K in Hb. discriminate.
Qed.

Lemma existsb_infinite df :
  existsb (fun r => infinite_quantity (quantity r)) df = true
  <-> exists r, In r df /\ parse_quantity (quantity r) = Raise OverflowError.
Proof.
  rewrite existsb_exists. split; intros (r & Hin & H); exists r;
    (split; [assumption|]); now apply parse_quantity_overflow.
Qed.


Lemma In_drop_duplicates l r : In r (drop_duplicates l) <-> In r l.
Proof.
  unfold drop_duplicates. rewrite drop_duplicates_from_In. simpl. tauto.
Qed.

Lemma run_cleaning_pipeline_Ok_each now raw self self' :
  run_cleaning_pipeline now raw self = Ok self' ->
  forall r, In r (drop_duplicates raw) ->
            parse_quantity (quantity r) = Ok (quantity_of (quantity r)).
Proof.
  unfold run_cleaning_pipeline. cbv zeta.
  set (s0 := load_data raw self).
  destruct (remove_duplicates_effect s0) as (D1 & _).
  set (s1 := remove_duplicates s0) in *.
  destruct (clean_whitespace_effect s1) as (D2 & _).
  set (s2 := clean_whitespace s1) in *.
  destruct (standardize_emails_effect s2) as (D3 & _).
  set (s3 := standardize_emails s2) in *.
  destruct (clean_phone_numbers_effect s3) as (D4 & _).
  set (s4 := clean_phone_numbers s3) in *.
  destruct (standardize_dates_effect now s4) as (s5 & -> & D5 & _).
  cbn [bind].
  destruct (clean_prices_effect s5) as (s6 & -> & D6 & _).
  cbn [bind].
  destruct (clean_quantities s6) as [s7|e] eqn:E7; cbn [bind]; [|discriminate].
  intros _ r Hin.
  change (df s0) with raw in D1.
  pose proof (clean_quantities_Ok_each _ _ E7) as K.
  rewrite D6, D5, D4, D3, D2, D1 in K. unfold on_column in K.
  rewrite !map_map in K.
  specialize (K _ (in_map _ _ _ Hin)). exact K.
Qed.

Lemma quot_floor (q : Q) :
  (1 <= q)%Q -> Z.quot (Qnum q) (Zpos (Qden q)) = Qfloor q /\ 0 < Qfloor q.
Proof.
  destruct q as [n d]. unfold Qle. simpl. intros H.
  assert (P : 0 <= n) by lia.
  rewrite Z.quot_div_nonneg by lia. split; [reflexivity|].
  apply Z.div_str_pos. lia.
Qed.

Lemma quot_below_one (q : Q) :
  (q < 1)%Q -> Z.quot (Qnum q) (Zpos (Qden q)) <= 0.
Proof.
  destruct q as [n d]. unfold Qlt. simpl. intros H.
  destruct (Z.le_gt_cases 0 n) as [P|P].
  - rewrite Z.quot_small by lia. lia.
  - apply Z.quot_le_upper_bound; lia.
Qed.



(** X17. When [clean_quantities] returns, running it again on its result
    returns the same cleaner: neither the frame nor the log changes. *)
Theorem clean_quantities_again self self1 :
  clean_quantities self = Ok self1 -> clean_quantities self1 = Ok self1.
Proof.
  intros H. destruct (clean_quantities_effect _ _ H) as (D1 & _).
  assert (L : lawful col_quantity) by (split; intros; reflexivity).
  destruct (clean_quantities self1) as [s2|e] eqn:E.
  - f_equal. pose proof (clean_quantities_effect _ _ E) as E2.
    rewrite D1, (newly_missing_again col_quantity _ _ L quantity_of_again) in E2.
    apply (effect_nothing _ _ _ _ _ E2).
    rewrite D1. now apply on_column_again; [|apply quantity_of_again].
  - apply clean_quantities_raises in E as (_ & r & Hin & Hr).
    rewrite D1 in Hin. unfold on_column in Hin.
    apply in_map_iff in Hin as (r0 & <- & _).
    change (quantity (set col_quantity r0 (quantity_of (get col_quantity r0))))
      with (quantity_of (quantity r0)) in Hr.
    rewrite parse_quantity_cleaned in Hr. discriminate.
Qed.

Lemma clean_quantities_again_witness :
  clean_quantities
    (mkDataCleaner
       [mkRow NaN NaN NaN NaN NaN NaN NaN (Val (Str " 3.7 ")) NaN NaN;
        mkRow NaN NaN NaN NaN NaN NaN NaN (Val (Str "0")) NaN NaN;
        mkRow NaN NaN NaN NaN NaN NaN NaN (Val (Str "two")) NaN NaN]
       [] [])
  = Ok (mkDataCleaner
          [mkRow NaN NaN NaN NaN NaN NaN NaN (Val (Num (of_Z 3))) NaN NaN;
           mkRow NaN NaN NaN NaN NaN NaN NaN NaN NaN NaN;
           mkRow NaN NaN NaN NaN NaN NaN NaN NaN NaN NaN]
          []
          [mkLogEntry "clean_quantities" "Invalid quantities removed" 2])
  /\ clean_quantities
       (mkDataCleaner
          [mkRow NaN NaN NaN NaN NaN NaN NaN (Val (Num (of_Z 3))) NaN NaN;
           mkRow NaN NaN NaN NaN NaN NaN NaN NaN NaN NaN;
           mkRow NaN NaN NaN NaN NaN NaN NaN NaN NaN NaN]
          []
          [mkLogEntry "clean_quantities" "Invalid quantities removed" 2])
     = Ok (mkDataCleaner
          [mkRow NaN NaN NaN NaN NaN NaN NaN (Val (Num (of_Z 3))) NaN NaN;
           mkRow NaN NaN NaN NaN NaN NaN NaN NaN NaN NaN;
           mkRow NaN NaN NaN NaN NaN NaN NaN NaN NaN NaN]
          []
          [mkLogEntry "clean_quantities" "Invalid quantities removed" 2]).
Proof.
  assert (H : clean_quantities
    (mkDataCleaner
       [mkRow NaN NaN NaN NaN NaN NaN NaN (Val (Str " 3.7 ")) NaN NaN;
        mkRow NaN NaN NaN NaN NaN NaN NaN (Val (Str "0")) NaN NaN;
        mkRow NaN NaN NaN NaN NaN NaN NaN (Val (Str "two")) NaN NaN]
       [] [])
  = Ok (mkDataCleaner
          [mkRow NaN NaN NaN NaN NaN NaN NaN (Val (Num (of_Z 3))) NaN NaN;
           mkRow NaN NaN NaN NaN NaN NaN NaN NaN NaN NaN;
           mkRow NaN NaN NaN NaN NaN NaN NaN NaN NaN NaN]
          []
          [mkLogEntry "clean_quantities" "Invalid quantities removed" 2])).
  { vm_compute. reflexivity. }
  split; [exact H | exact (clean_quantities_again _ _ H)].
Defined.
(** ** The log of a run *)

Lemma total_whitespace_nonneg df : 0 <= total_whitespace df.
Proof.
  unfold total_whitespace, whitespace_count.
  repeat match goal with
         | |- context [len ?l] =>
             let H := fresh in pose proof (len_nonneg l) as H;
             generalize dependent (len l); intros
         end.
  lia.
Qed.

Lemma Forall_logged (P : LogEntry -> Prop) s d n :
  (0 < n -> P (mkLogEntry s d n)) -> Forall P (logged s d n).
Proof.
  intros H. unfold logged. destruct (0 <? n) eqn:E; constructor.
  - apply H. lia.
  - constructor.
Qed.

Lemma length_logged s d n : (List.length (logged s d n) <= 1)%nat.
Proof. unfold logged. destruct (0 <? n); simpl; lia. Qed.

Lemma run_log_steps now raw :
  subsequence (map step (run_log now raw)) pipeline_steps = true
  /\ (1 <= List.length (run_log now raw) <= 9)%nat.
Proof.
  unfold run_log. cbv zeta. split.
  - unfold logged.
    repeat match goal with
           | |- context [0 <? ?n] => destruct (0 <? n)
           end; reflexivity.
  - rewrite !length_app.
    repeat match goal with
           | |- context [List.length (logged ?s ?d ?n)] =>
               let H := fresh in
               pose proof (length_logged s d n) as H;
               generalize dependent (List.length (logged s d n)); intros
           end.
    simpl. lia.
Qed.

(** X18. The entries one run appends to the log: between one and nine, at
    most one for each step and in the order of the steps; the count of every
    entry is positive, except that of [clean_whitespace], which is logged in
    every run and may be 0. *)
Theorem run_log_shape now raw self self' :
  run_cleaning_pipeline now raw self = Ok self' ->
  exists entries,
    cleaning_log self' = (cleaning_log self ++ entries)%list
    /\ subsequence (map step entries) pipeline_steps = true
    /\ (1 <= List.length entries <= 9)%nat
    /\ In "clean_whitespace" (map step entries)
    /\ Forall (fun e => 0 <= count e
                        /\ (step e <> "clean_whitespace" -> 0 < count e))
         entries.
Proof.
  intros H. apply run_cleaning_pipeline_Ok in H as (_ & _ & L).
  exists (run_log now raw). split; [assumption|].
  destruct (run_log_steps now raw) as [S N].
  split; [assumption|]. split; [assumption|]. split.
  - unfold run_log. cbv zeta. rewrite !map_app. apply in_or_app. right.
    now left.
  - unfold run_log. cbv zeta.
    repeat (apply Forall_app; split);
      try (apply Forall_logged; intros P; simpl; split; [lia | intros _; exact P]).
    constructor; [|constructor]. simpl. split; [apply total_whitespace_nonneg|].
    intros C. now elim C.
Qed.

Lemma run_log_shape_witness :
  exists entries,
    cleaning_log
      (mkDataCleaner [text_row "Ann Lee" "ann@example.com" "Books" "Pending"]
         [text_row "Ann Lee" "ann@example.com" "Books" "Pending"]
         [mkLogEntry "clean_whitespace" "Whitespace cleaned in text fields" 0])
    = ([] ++ entries)%list
    /\ subsequence (map step entries) pipeline_steps = true
    /\ (1 <= List.length entries <= 9)%nat
    /\ In "clean_whitespace" (map step entries)
    /\ Forall (fun e => 0 <= count e
                        /\ (step e <> "clean_whitespace" -> 0 < count e))
         entries.
Proof.
  apply (run_log_shape (mkdatetime 2026 11 3 10 30 0 0)
           [text_row "Ann Lee" "ann@example.com" "Books" "Pending"]
           new_cleaner).
  vm_compute. reflexivity.
Defined.

Lemma drop_duplicates_from_same_length l : forall seen,
  List.length (drop_duplicates_from seen l) = List.length l ->
  drop_duplicates_from seen l = l.
Proof.
  induction l as [|a l IH]; intros seen H; [reflexivity|].
  cbn [drop_duplicates_from] in *. destruct (existsb (row_eqb a) seen).
  - pose proof (drop_duplicates_from_length seen l). simpl in H. lia.
  - simpl in H. f_equal. apply IH. lia.
Qed.

(** X19. After a run the cleaner still holds the frame as it was loaded, and
    the number of rows the report and the summary give as removed, the length
    of the original frame less that of the cleaned one, is the number of
    duplicate rows: it is never negative, it is 0 exactly when no two rows of
    the input are identical, and when it is positive it is the count of the
    [remove_duplicates] entry of the log. *)
Theorem rows_removed_are_duplicates now raw self self' :
  run_cleaning_pipeline now raw self = Ok self' ->
  original_df self' = raw
  /\ len (original_df self') - len (df self')
     = len raw - len (drop_duplicates raw)
  /\ 0 <= len (original_df self') - len (df self')
  /\ (0 < len (original_df self') - len (df self') ->
      In (mkLogEntry "remove_duplicates" "Duplicate rows removed"
            (len (original_df self') - len (df self')))
         (cleaning_log self'))
  /\ (len (original_df self') - len (df self') = 0 <-> NoDup raw).
Proof.
  intros H. apply run_cleaning_pipeline_Ok in H as (D & O & L).
  assert (E : len (df self') = len (drop_duplicates raw)).
  { rewrite D. unfold len. now rewrite length_map. }
  rewrite O, E. split; [reflexivity|]. split; [reflexivity|].
  pose proof (drop_duplicates_length raw) as K.
  split; [unfold len in *; lia|]. split.
  - intros P. rewrite L. apply in_or_app. right. unfold run_log. cbv zeta.
    apply in_or_app. left. unfold logged.
    destruct (0 <? _) eqn:T; [now left | lia].
  - split.
    + intros Z. rewrite <- (drop_duplicates_from_same_length raw []).
      * apply drop_duplicates_from_NoDup_out.
      * fold (drop_duplicates raw). unfold len in Z. lia.
    + intros N. rewrite (drop_duplicates_NoDup raw N). lia.
Qed.

Lemma rows_removed_are_duplicates_witness :
  original_df
    (mkDataCleaner [text_row "Ann Lee" "ann@example.com" "Books" "Pending"]
       [text_row "Ann Lee" "ann@example.com" "Books" "Pending";
        text_row "Ann Lee" "ann@example.com" "Books" "Pending"]
       [mkLogEntry "remove_duplicates" "Duplicate rows removed" 1;
        mkLogEntry "clean_whitespace" "Whitespace cleaned in text fields" 0])
  = [text_row "Ann Lee" "ann@example.com" "Books" "Pending";
     text_row "Ann Lee" "ann@example.com" "Books" "Pending"]
  /\ 2 - 1 = 2 - len (drop_duplicates
                         [text_row "Ann Lee" "ann@example.com" "Books" "Pending";
                          text_row "Ann Lee" "ann@example.com" "Books" "Pending"])
  /\ 0 <= 2 - 1
  /\ (0 < 2 - 1 ->
      In (mkLogEntry "remove_duplicates" "Duplicate rows removed" (2 - 1))
        [mkLogEntry "remove_duplicates" "Duplicate rows removed" 1;
         mkLogEntry "clean_whitespace" "Whitespace cleaned in text fields" 0])
  /\ (2 - 1 = 0
      <-> NoDup [text_row "Ann Lee" "ann@example.com" "Books" "Pending";
                 text_row "Ann Lee" "ann@example.com" "Books" "Pending"]).
Proof.
  apply (rows_removed_are_duplicates (mkdatetime 2026 11 3 10 30 0 0)
           [text_row "Ann Lee" "ann@example.com" "Books" "Pending";
            text_row "Ann Lee" "ann@example.com" "Books" "Pending"]
           new_cleaner
           (mkDataCleaner
              [text_row "Ann Lee" "ann@example.com" "Books" "Pending"]
              [text_row "Ann Lee" "ann@example.com" "Books" "Pending";
               text_row "Ann Lee" "ann@example.com" "Books" "Pending"]
              [mkLogEntry "remove_duplicates" "Duplicate rows removed" 1;
               mkLogEntry "clean_whitespace"
                 "Whitespace cleaned in text fields" 0])).
  vm_compute. reflexivity.
Defined.

(** ** The rows of the output *)

Lemma Forall2_map_right {A B} (P : A -> B -> Prop) (f : A -> B) l :
  (forall a, P a (f a)) -> Forall2 P l (map f l).
Proof. intros H. induction l; simpl; constructor; auto. Qed.

(** X20. What a run makes of missing cells, row by row of the frame without
    its duplicates: the order number is copied; a missing email, phone, date,
    price or quantity stays missing; the name, product, category and status
    are never missing in the output, a missing one having become the text
    nan, and Nan for the category. *)
Theorem missing_cells_after_run now raw self self' :
  run_cleaning_pipeline now raw self = Ok self' ->
  Forall2
    (fun r r' =>
       order_id r' = order_id r
       /\ (email r = NaN -> email r' = NaN)
       /\ (phone r = NaN -> phone r' = NaN)
       /\ (order_date r = NaN -> order_date r' = NaN)
       /\ (price r = NaN -> price r' = NaN)
       /\ (quantity r = NaN -> quantity r' = NaN)
       /\ notna (customer_name r') && notna (product_name r')
          && notna (category r') && notna (status r') = true
       /\ (customer_name r = NaN -> customer_name r' = Val "nan")
       /\ (product_name r = NaN -> product_name r' = Val "nan")
       /\ (category r = NaN -> category r' = Val "Nan")
       /\ (status r = NaN -> status r' = Val "nan"))
    (drop_duplicates raw) (df self').
Proof.
  intros H. apply run_cleaning_pipeline_Ok in H as (-> & _).
  apply Forall2_map_right. intros r. unfold cleaned_row. cbn [order_id email phone
    order_date price quantity customer_name product_name category status].
  split; [reflexivity|].
  repeat (split; [intros ->; reflexivity|]).
  split; [|repeat split; intros ->; reflexivity].
  destruct (categorize_clean_text (category r)) as (v & -> & _).
  destruct (restatus_clean_text (status r)) as (w & -> & _).
  reflexivity.
Qed.

Lemma missing_cells_after_run_witness :
  Forall2
    (fun r r' =>
       order_id r' = order_id r
       /\ (email r = NaN -> email r' = NaN)
       /\ (phone r = NaN -> phone r' = NaN)
       /\ (order_date r = NaN -> order_date r' = NaN)
       /\ (price r = NaN -> price r' = NaN)
       /\ (quantity r = NaN -> quantity r' = NaN)
       /\ notna (customer_name r') && notna (product_name r')
          && notna (category r') && notna (status r') = true
       /\ (customer_name r = NaN -> customer_name r' = Val "nan")
       /\ (product_name r = NaN -> product_name r' = Val "nan")
       /\ (category r = NaN -> category r' = Val "Nan")
       /\ (status r = NaN -> status r' = Val "nan"))
    (drop_duplicates [mkRow NaN NaN NaN NaN NaN NaN NaN NaN NaN NaN])
    [mkRow NaN (Val "nan") NaN NaN NaN (Val "nan") (Val "Nan") NaN NaN
       (Val "nan")].
Proof.
  apply (missing_cells_after_run (mkdatetime 2026 11 3 10 30 0 0)
           [mkRow NaN NaN NaN NaN NaN NaN NaN NaN NaN NaN] new_cleaner
           (mkDataCleaner
              [mkRow NaN (Val "nan") NaN NaN NaN (Val "nan") (Val "Nan") NaN NaN
                 (Val "nan")]
              [mkRow NaN NaN NaN NaN NaN NaN NaN NaN NaN NaN]
              [mkLogEntry "clean_whitespace"
                 "Whitespace cleaned in text fields" 0;
               mkLogEntry "standardize_emails" "Invalid emails removed" 1])).
  vm_compute. reflexivity.
Defined.


(** ** Distinct values *)

Lemma existsb_eqb_In s seen : existsb (String.eqb s) seen = true <-> In s seen.
Proof.
  rewrite existsb_exists. split.
  - intros (x & Hin & E). apply String.eqb_eq in E. now subst.
  - intros H. exists s. split; [assumption | apply String.eqb_refl].
Qed.

Lemma distinct_spec col : forall seen,
  NoDup seen ->
  NoDup (distinct seen col)
  /\ forall s, In s (distinct seen col) <-> In s seen \/ In (Val s) col.
Proof.
  induction col as [|[|t] col IH]; intros seen N; cbn [distinct].
  - split; [assumption|]. intros s. simpl. tauto.
  - destruct (IH seen N) as [N' I]. split; [assumption|].
    intros s. rewrite I. simpl. split; [tauto|].
    intros [H|[H|H]]; [tauto | discriminate | tauto].
  - destruct (existsb (String.eqb t) seen) eqn:E.
    + apply existsb_eqb_In in E. destruct (IH seen N) as [N' I].
      split; [assumption|]. intros s. rewrite I. simpl. split; [tauto|].
      intros [H|[[= <-]|H]]; tauto.
    + assert (Ht : ~ In t seen).
      { intros H. apply existsb_eqb_In in H. congruence. }
      destruct (IH (t :: seen) (NoDup_cons _ Ht N)) as [N' I].
      split; [assumption|]. intros s. rewrite I. simpl. split.
      * intros [[<-|H]|H]; tauto.
      * intros [H|[[= <-]|H]]; tauto.
Qed.

Lemma NoDup_map_Val (l : list string) : NoDup l -> NoDup (map (@Val string) l).
Proof.
  induction 1 as [|a l Ha _ IH]; simpl; constructor; [|assumption].
  intros H. apply in_map_iff in H as (b & [= ->] & Hb). contradiction.
Qed.

Lemma nunique_map_le (f : cell string -> cell string) col :
  f NaN = NaN -> nunique (map f col) <= nunique col.
Proof.
  intros HN. unfold nunique. apply inj_le.
  destruct (distinct_spec col [] (NoDup_nil _)) as [N1 I1].
  destruct (distinct_spec (map f col) [] (NoDup_nil _)) as [N2 I2].
  set (l1 := distinct [] col) in *. set (l2 := distinct [] (map f col)) in *.
  rewrite <- (length_map Val l2).
  rewrite <- (length_map (fun s => f (Val s)) l1).
  apply NoDup_incl_length.
  - now apply NoDup_map_Val.
  - intros c Hc. apply in_map_iff in Hc as (t & <- & Ht).
    apply I2 in Ht as [[]|Ht].
    apply in_map_iff in Ht as (c & Hc & Hin).
    destruct c as [|s]; [congruence|].
    apply in_map_iff. exists s. split; [assumption|].
    apply I1. now right.
Qed.

(** X22. A rewriting of a column cell by cell that keeps missing cells
    missing never adds distinct values.  So the number of variations that
    [standardize_categories] and [standardize_status] compute is never
    negative, the distinct values do not outnumber the rows, and each of the
    two steps logs exactly when distinct values have merged. *)
Theorem variations_never_negative :
  (forall f col, f NaN = NaN -> nunique (map f col) <= nunique col)
  /\ (forall col, 0 <= nunique col <= len col)
  /\ (forall df, 0 <= variations_removed col_category categorize df)
  /\ (forall df, 0 <= variations_removed col_status restatus df)
  /\ (forall self,
        cleaning_log (standardize_categories self) = cleaning_log self
        <-> nunique (map categorize (getcol col_category (df self)))
            = nunique (getcol col_category (df self)))
  /\ (forall self,
        cleaning_log (standardize_status self) = cleaning_log self
        <-> nunique (map restatus (getcol col_status (df self)))
            = nunique (getcol col_status (df self))).
Proof.
  assert (L : forall s d n l,
             0 <= n -> ((l ++ logged s d n)%list = l <-> n = 0)).
  { intros s d n l Hn. unfold logged. destruct (0 <? n) eqn:E.
    - split; [|lia]. intros H.
      apply (f_equal (@List.length _)) in H. rewrite length_app in H.
      simpl in H. lia.
    - rewrite app_nil_r. split; [lia | reflexivity]. }
  assert (B : forall col, 0 <= nunique col <= len col).
  { intros col. unfold nunique, len. split; [lia|]. apply inj_le.
    destruct (distinct_spec col [] (NoDup_nil _)) as [N I].
    rewrite <- (length_map Val (distinct [] col)).
    apply NoDup_incl_length.
    - now apply NoDup_map_Val.
    - intros c Hc. apply in_map_iff in Hc as (t & <- & Ht).
      apply I in Ht as [[]|Ht]. exact Ht. }
  assert (C : forall df, 0 <= variations_removed col_category categorize df).
  { intros df. unfold variations_removed.
    pose proof (nunique_map_le categorize (getcol col_category df) eq_refl). lia. }
  assert (S : forall df, 0 <= variations_removed col_status restatus df).
  { intros df. unfold variations_removed.
    pose proof (nunique_map_le restatus (getcol col_status df) eq_refl). lia. }
  split; [exact nunique_map_le|]. split; [exact B|].
  split; [exact C|]. split; [exact S|]. split; intros self.
  - destruct (standardize_categories_effect self) as (_ & -> & _).
    rewrite (L _ _ _ _ (C (df self))). unfold variations_removed. lia.
  - destruct (standardize_status_effect self) as (_ & -> & _).
    rewrite (L _ _ _ _ (S (df self))). unfold variations_removed. lia.
Qed.
(** ** The date formats *)

Lemma first_match_Some {A B} (k : A -> option B) l b :
  first_match k l = Some b -> exists a, In a l /\ k a = Some b.
Proof.
  induction l as [|a l IH]; simpl; [discriminate|].
  destruct (k a) as [b'|] eqn:E.
  - intros [= <-]. exists a. split; [now left | assumption].
  - intros H. destruct (IH H) as (a' & Hin & Ha). exists a'. split; [now right | assumption].
Qed.

Lemma regex_match_cons d ds s f x :
  regex_match (d :: ds) s f = Some x ->
  exists c r, In (c, r) (alts d s)
              /\ regex_match ds r (record_capture c f) = Some x.
Proof.
  cbn [regex_match]. intros H. apply first_match_Some in H as ([c r] & Hin & H).
  now exists c, r.
Qed.

Lemma in_range_isdigit lo hi c :
  isdigit lo = true -> isdigit hi = true -> in_range lo hi c = true ->
  isdigit c = true.
Proof.
  unfold in_range, isdigit. cbv zeta.
  rewrite !Bool.andb_true_iff, !Nat.leb_le. lia.
Qed.

Ltac digit_range :=
  match goal with
  | E : in_range ?lo ?hi ?b = true |- isdigit ?b = true =>
      apply (in_range_isdigit lo hi b eq_refl eq_refl E)
  end.

(** [%m] reads one or two digits. *)
Lemma alts_m_shape s c r :
  In (c, r) (alts dir_m s) ->
  (exists a, s = String a r /\ isdigit a = true)
  \/ (exists a b, s = String a (String b r) /\ isdigit a = true
                  /\ isdigit b = true).
Proof.
  cbn [alts]. rewrite !in_app_iff.
  destruct s as [|a [|b r0]].
  - cbn. tauto.
  - intros [H|[H|H]]; try (revert H;
      destruct a as [[] [] [] [] [] [] [] []]; cbn; tauto).
    destruct (in_range "1" "9" a) eqn:E; [|destruct H].
    destruct H as [[= <- <-]|[]]. left. exists a. split; [reflexivity|].
    digit_range.
  - intros [H|[H|H]].
    + revert H. destruct a as [[] [] [] [] [] [] [] []]; cbn; try tauto.
      destruct (in_range "0" "2" b) eqn:E; [|intros []].
      intros [[= <- <-]|[]]. right. exists "1"%char, b.
      split; [reflexivity|]. split; [reflexivity | digit_range].
    + revert H. destruct a as [[] [] [] [] [] [] [] []]; cbn; try tauto.
      destruct (in_range "1" "9" b) eqn:E; [|intros []].
      intros [[= <- <-]|[]]. right. exists "0"%char, b.
      split; [reflexivity|]. split; [reflexivity | digit_range].
    + destruct (in_range "1" "9" a) eqn:E; [|destruct H].
      destruct H as [[= <- <-]|[]]. left. exists a. split; [reflexivity|].
      digit_range.
Qed.

(** [%d] reads one digit, two digits, or a space and a digit. *)
Lemma alts_d_shape s c r :
  In (c, r) (alts dir_d s) ->
  (exists a, s = String a r /\ isdigit a = true)
  \/ (exists a b, s = String a (String b r)
                  /\ (isdigit a = true \/ a = " "%char) /\ isdigit b = true).
Proof.
  cbn [alts]. rewrite !in_app_iff.
  destruct s as [|a [|b r0]].
  - cbn. tauto.
  - intros [H|[H|[H|[H|H]]]]; try (revert H;
      destruct a as [[] [] [] [] [] [] [] []]; cbn; tauto).
    destruct (in_range "1" "9" a) eqn:E; [|destruct H].
    destruct H as [[= <- <-]|[]]. left. exists a. split; [reflexivity|].
    digit_range.
  - intros [H|[H|[H|[H|H]]]].
    + revert H. destruct a as [[] [] [] [] [] [] [] []]; cbn; try tauto.
      destruct (in_range "0" "1" b) eqn:E; [|intros []].
      intros [[= <- <-]|[]]. right. exists "3"%char, b.
      split; [reflexivity|]. split; [now left | digit_range].
    + destruct (in_range "1" "2" a) eqn:E; [|destruct H].
      destruct (isdigit b) eqn:D; [|destruct H].
      destruct H as [[= <- <-]|[]]. right. exists a, b.
      split; [reflexivity|]. split; [left; digit_range | assumption].
    + revert H. destruct a as [[] [] [] [] [] [] [] []]; cbn; try tauto.
      destruct (in_range "1" "9" b) eqn:E; [|intros []].
      intros [[= <- <-]|[]]. right. exists "0"%char, b.
      split; [reflexivity|]. split; [now left | digit_range].
    + destruct (in_range "1" "9" a) eqn:E; [|destruct H].
      destruct H as [[= <- <-]|[]]. left. exists a. split; [reflexivity|].
      digit_range.
    + revert H. destruct a as [[] [] [] [] [] [] [] []]; cbn; try tauto.
      destruct (in_range "1" "9" b) eqn:E; [|intros []].
      intros [[= <- <-]|[]]. right. exists " "%char, b.
      split; [reflexivity|]. split; [now right | digit_range].
Qed.

(** [%Y] reads four digits. *)
Lemma alts_Y_shape s c r :
  In (c, r) (alts dir_Y s) ->
  exists a b c' d, s = String a (String b (String c' (String d r)))
                   /\ isdigit a = true /\ isdigit b = true
                   /\ isdigit c' = true /\ isdigit d = true.
Proof.
  cbn [alts]. destruct s as [|a [|b [|c' [|d r0]]]]; try (intros []).
  destruct (isdigit a) eqn:Ea; [|intros []].
  destruct (isdigit b) eqn:Eb; [|intros []].
  destruct (isdigit c') eqn:Ec; [|intros []].
  destruct (isdigit d) eqn:Ed; [|intros []].
  intros [[= <- <-]|[]]. now exists a, b, c', d.
Qed.

Lemma lower_char_slash a : lower_char a = "/"%char -> a = "/"%char.
Proof. destruct a as [[] [] [] [] [] [] [] []]; intros H; try reflexivity; discriminate H. Qed.

Lemma lower_char_dash a : lower_char a = "-"%char -> a = "-"%char.
Proof. destruct a as [[] [] [] [] [] [] [] []]; intros H; try reflexivity; discriminate H. Qed.

(** A character of the format reads itself, in either case. *)
Lemma alts_lit_shape x s c r :
  In (c, r) (alts (lit x) s) ->
  exists a, s = String a r /\ lower_char a = lower_char x.
Proof.
  cbn [alts]. destruct s as [|a r0]; [intros []|].
  destruct (Ascii.eqb (lower_char a) (lower_char x)) eqn:E; [|intros []].
  intros [[= <- <-]|[]]. exists a. split; [reflexivity|].
  now apply Ascii.eqb_eq.
Qed.

(** A blank of the format reads at least one blank. *)
Lemma ws_alts_shape s c r :
  In (c, r) (ws_alts s) -> exists a s', s = String a s' /\ isspace a = true.
Proof.
  destruct s as [|a s']; [intros []|]. cbn [ws_alts].
  destruct (isspace a) eqn:E; [|intros []]. intros _. now exists a, s'.
Qed.

Lemma name_alts_shape names : forall idx s c r,
  In (c, r) (name_alts names idx s) ->
  exists n, In n names /\ startswith n (lower s) = true.
Proof.
  induction names as [|n names IH]; intros idx s c r; cbn [name_alts];
    [intros []|].
  rewrite in_app_iff. intros [H|H].
  - destruct (startswith n (lower s)) eqn:E; [|destruct H].
    exists n. split; [now left | assumption].
  - destruct (IH _ _ _ _ H) as (n' & Hin & Hn). exists n'.
    split; [now right | assumption].
Qed.

(** A month name, short or full, starts with a letter. *)
Lemma month_starts_letter n s :
  In n (month_abbr ++ month_name)%list -> startswith n (lower s) = true ->
  exists a s', s = String a s' /\ isalpha a = true.
Proof.
  intros Hin H. destruct s as [|a s'].
  - simpl in Hin.
    repeat (destruct Hin as [<-|Hin]; [discriminate H|]). destruct Hin.
  - exists a, s'. split; [reflexivity|].
    rewrite <- isalpha_lower_char. unfold lower in H. cbn [smap] in H.
    simpl in Hin.
    repeat (destruct Hin as [<-|Hin];
            [cbn [startswith] in H; apply Bool.andb_true_iff in H as [H _];
             apply Ascii.eqb_eq in H; rewrite <- H; reflexivity|]).
    destruct Hin.
Qed.

Lemma classify_digit a : isdigit a = true -> classify a = Digit.
Proof. unfold classify. now intros ->. Qed.

Lemma classify_blank a : isspace a = true -> classify a = Blank.
Proof.
  destruct a as [[] [] [] [] [] [] [] []]; intros H; try reflexivity;
    discriminate H.
Qed.

Lemma classify_letter a : isalpha a = true -> classify a = Letter.
Proof.
  destruct a as [[] [] [] [] [] [] [] []]; intros H; try reflexivity;
    discriminate H.
Qed.

Lemma classify_day a : isdigit a = true \/ a = " "%char ->
  classify a = Digit \/ classify a = Blank.
Proof. intros [H| ->]; [left; now apply classify_digit | now right]. Qed.

(** A format that starts with [%m] or [%d] reads one or two characters
    before it comes to its second directive. *)
Lemma regex_match_number_then x d ds s f res :
  d = dir_m \/ d = dir_d ->
  regex_match (d :: x :: ds) s f = Some res ->
  exists a t,
    s = String a t
    /\ ((classify a = Digit /\ exists c r, In (c, r) (alts x t))
        \/ exists b u,
             t = String b u
             /\ (classify a = Digit \/ (d = dir_d /\ classify a = Blank))
             /\ classify b = Digit
             /\ exists c r, In (c, r) (alts x u)).
Proof.
  intros Hd H. apply regex_match_cons in H as (c1 & r1 & H1 & H).
  apply regex_match_cons in H as (c2 & r2 & H2 & _).
  assert (S : (exists a, s = String a r1 /\ isdigit a = true)
              \/ (exists a b, s = String a (String b r1)
                    /\ (isdigit a = true \/ (d = dir_d /\ a = " "%char))
                    /\ isdigit b = true)).
  { destruct Hd as [-> | ->].
    - destruct (alts_m_shape _ _ _ H1) as [K|(a & b & E & Ha & Hb)];
        [now left|]. right. exists a, b. tauto.
    - destruct (alts_d_shape _ _ _ H1) as [K|(a & b & E & Ha & Hb)];
        [now left|]. right. exists a, b. tauto. }
  destruct S as [(a & -> & Ha)|(a & b & -> & Ha & Hb)].
  - exists a, r1. split; [reflexivity|]. left.
    split; [now apply classify_digit | now exists c2, r2].
  - exists a, (String b r1). split; [reflexivity|]. right. exists b, r1.
    split; [reflexivity|]. split.
    + destruct Ha as [Ha|[Hd' ->]]; [left; now apply classify_digit | now right].
    + split; [now apply classify_digit | now exists c2, r2].
Qed.

Lemma classify_after_lit x t cl :
  (forall a, lower_char a = lower_char x -> classify a = cl) ->
  (exists c r, In (c, r) (alts (lit x) t)) ->
  exists a r, t = String a r /\ classify a = cl.
Proof.
  intros K (c & r & H). apply alts_lit_shape in H as (a & -> & Ha).
  exists a, r. split; [reflexivity | now apply K].
Qed.

Lemma classify_after_ws t :
  (exists c r, In (c, r) (alts ws t)) ->
  exists a r, t = String a r /\ classify a = Blank.
Proof.
  intros (c & r & H). cbn [alts] in H.
  apply ws_alts_shape in H as (a & s' & -> & Ha).
  exists a, s'. split; [reflexivity | now apply classify_blank].
Qed.

Ltac strptime_matched H R :=
  unfold strptime in H;
  match type of H with
  | context [compile false ?fmt] =>
      let ds := eval vm_compute in (compile false fmt) in
      change (compile false fmt) with ds in H
  end;
  cbv iota beta in H;
  match type of H with
  | context [regex_match ?ds ?s ?f] =>
      destruct (regex_match ds s f) as [[[[? ?] ?] ?]|] eqn:R;
      [clear H | discriminate H]
  end.

Ltac format_for_classes :=
  unfold format_for; cbn [classes];
  repeat match goal with
         | E : classify ?a = _ |- context [classify ?a] => rewrite E
         end;
  reflexivity.

(** A text that a format of [parse_date] reads starts as [format_for]
    tells. *)
Lemma strptime_format_for s fmt t :
  In fmt date_formats -> strptime s fmt = Ok t -> format_for s = Some fmt.
Proof.
  intros Hin H. simpl in Hin.
  destruct Hin as [<-|[<-|[<-|[<-|[<-|[]]]]]]; strptime_matched H R.
  - apply (regex_match_number_then _ _ _ _ _ _ (or_introl eq_refl)) in R
      as (a & t' & -> & [(Ha & X)|(b & u & -> & [Ha|[[=] _]] & Hb & X)]);
      apply (classify_after_lit "/" _ Slash) in X as (a' & r' & -> & Ha');
      try format_for_classes;
      intros c Hc; apply lower_char_slash in Hc; now subst c.
  - apply (regex_match_number_then _ _ _ _ _ _ (or_intror eq_refl)) in R
      as (a & t' & -> & [(Ha & X)|(b & u & -> & [Ha|[_ Ha]] & Hb & X)]);
      apply (classify_after_lit "-" _ Dash) in X as (a' & r' & -> & Ha');
      try format_for_classes;
      intros c Hc; apply lower_char_dash in Hc; now subst c.
  - apply regex_match_cons in R as (c & r & R & _).
    apply alts_Y_shape in R as (a & b & c' & d & -> & Ha & Hb & Hc & _).
    apply classify_digit in Ha, Hb, Hc. format_for_classes.
  - apply regex_match_cons in R as (c & r & R & _). cbn [alts] in R.
    apply name_alts_shape in R as (n & Hn & R).
    apply month_starts_letter in R as (a & s' & -> & Ha);
      [|apply in_or_app; now left].
    apply classify_letter in Ha. format_for_classes.
  - apply (regex_match_number_then _ _ _ _ _ _ (or_intror eq_refl)) in R
      as (a & t' & -> & [(Ha & X)|(b & u & -> & [Ha|[_ Ha]] & Hb & X)]);
      apply classify_after_ws in X as (a' & r' & -> & Ha');
      format_for_classes.
Qed.

Lemma format_for_In s fmt : format_for s = Some fmt -> In fmt date_formats.
Proof.
  unfold format_for.
  destruct (classes 3 s) as [|[] [|[] [|[] l]]]; intros [= <-]; simpl; tauto.
Qed.

Lemma others_raise s f :
  format_for s <> Some f -> In f date_formats ->
  strptime s f = Raise ValueError.
Proof.
  intros N Hin. destruct (strptime s f) as [t|e] eqn:E.
  - elim N. apply (strptime_format_for _ _ _ Hin E).
  - f_equal. apply (strptime_raises _ _ _ E).
Qed.

Lemma try_formats_all_raise now s fmts :
  (forall f, In f fmts -> strptime s f = Raise ValueError) ->
  try_formats now s fmts = Ok NaN.
Proof.
  intros H. rewrite <- (app_nil_r fmts). now rewrite try_formats_app.
Qed.

Lemma try_formats_only now s fmt d : forall fmts,
  In fmt fmts -> strptime s fmt = Ok d ->
  (forall f, In f fmts -> f <> fmt -> strptime s f = Raise ValueError) ->
  try_formats now s fmts
  = Ok (if datetime_gtb d now then NaN else Val (strftime_Ymd d)).
Proof.
  induction fmts as [|f0 fmts IH]; intros Hin E H; [destruct Hin|].
  destruct (string_dec f0 fmt) as [->|N].
  - now apply try_formats_hit.
  - change (f0 :: fmts) with ([f0] ++ fmts)%list. rewrite try_formats_app.
    + apply IH; [|assumption|].
      * destruct Hin as [Hin|Hin]; [contradiction | assumption].
      * intros f Hf. apply H. now right.
    + intros f [<-|[]]. apply H; [now left | assumption].
Qed.

(** X23. No text is read by two of the five formats of [parse_date]: the
    first three characters of a text leave at most one format possible.
    So the order in which [parse_date] tries the formats never decides
    anything, and what it returns is what the one possible format gives. *)
Theorem date_formats_exclusive :
  (forall s fmt t,
      In fmt date_formats -> strptime s fmt = Ok t -> format_for s = Some fmt)
  /\ (forall s f1 f2 t1 t2,
        In f1 date_formats -> In f2 date_formats ->
        strptime s f1 = Ok t1 -> strptime s f2 = Ok t2 ->
        f1 = f2 /\ t1 = t2)
  /\ (forall now s,
        parse_date now (Val s)
        = Ok match format_for (strip s) with
             | None => NaN
             | Some fmt =>
                 match strptime (strip s) fmt with
                 | Ok d => if datetime_gtb d now then NaN
                           else Val (strftime_Ymd d)
                 | Raise _ => NaN
                 end
             end).
Proof.
  split; [exact strptime_format_for|]. split.
  - intros s f1 f2 t1 t2 I1 I2 E1 E2.
    pose proof (strptime_format_for _ _ _ I1 E1) as F1.
    pose proof (strptime_format_for _ _ _ I2 E2) as F2.
    assert (E : f1 = f2) by congruence. subst f2.
    split; [reflexivity | congruence].
  - intros now s. unfold parse_date.
    destruct (format_for (strip s)) as [fmt|] eqn:F.
    + destruct (strptime (strip s) fmt) as [d|e] eqn:E.
      * apply (try_formats_only now (strip s) fmt d);
          [now apply (format_for_In (strip s)) | assumption|].
        intros f Hin N. apply others_raise; [|assumption].
        rewrite F. intros [= ->]. now elim N.
      * apply try_formats_all_raise. intros f Hin.
        destruct (string_dec f fmt) as [->|N].
        -- rewrite E. f_equal. apply (strptime_raises _ _ _ E).
        -- apply others_raise; [|assumption].
           rewrite F. intros [= ->]. now elim N.
    + apply try_formats_all_raise. intros f Hin.
      apply others_raise; [|assumption]. rewrite F. discriminate.
Qed.
(** ** The words of a text *)

Lemma words_lstrip s : words (lstrip s) = words s.
Proof.
  induction s as [|c s IH]; [reflexivity|]. cbn [lstrip].
  destruct (isspace c) eqn:E; [|reflexivity]. cbn [words]. now rewrite E.
Qed.

Lemma join_cons c w l :
  join " " (String c w :: l) = String c (join " " (w :: l)).
Proof. destruct l; reflexivity. Qed.

Lemma join_words_nonempty s : join " " (words s) = "" -> words s = [].
Proof.
  induction s as [|c s IH]; [reflexivity|]. cbn [words].
  destruct (isspace c); [assumption|].
  destruct (words s) as [|w l]; [simpl; discriminate|].
  destruct s as [|c' s']; [simpl; discriminate|].
  destruct (isspace c'); [simpl; discriminate|].
  rewrite join_cons. discriminate.
Qed.

Lemma rstrip_cons_nonblank c s :
  isspace c = false -> rstrip (String c s) = String c (rstrip s).
Proof. intros E. cbn [rstrip]. rewrite E. now destruct (rstrip s). Qed.

Lemma sub_ws_runs_empty t :
  sub_ws_runs true t = "" -> t <> "" -> ends_blank false t = true.
Proof.
  induction t as [|c t IH]; intros H N; [now elim N|].
  cbn [sub_ws_runs] in H. destruct (isspace c) eqn:E; [|discriminate].
  cbn [ends_blank]. rewrite E. destruct t as [|c' t']; [reflexivity|].
  rewrite ends_blank_cons. rewrite <- (ends_blank_cons false). apply IH;
    [assumption | discriminate].
Qed.

Lemma words_blank c s : isspace c = true -> words (String c s) = words s.
Proof. intros E. cbn [words]. now rewrite E. Qed.

Lemma words_nonblank c s :
  isspace c = false -> exists w l, words (String c s) = w :: l.
Proof.
  intros E. cbn [words]. rewrite E.
  destruct (words s) as [|w l]; [now eexists _, _|].
  destruct s as [|c' s']; [now eexists _, _|].
  destruct (isspace c'); now eexists _, _.
Qed.

Lemma sub_ws_runs_cons b c t :
  sub_ws_runs b (String c t)
  = if isspace c
    then (if b then sub_ws_runs true t else String " " (sub_ws_runs true t))
    else String c (sub_ws_runs false t).
Proof. reflexivity. Qed.

Lemma rstrip_cons_blank c s :
  isspace c = true ->
  rstrip (String c s) = match rstrip s with
                        | EmptyString => EmptyString
                        | r => String c r
                        end.
Proof. intros E. cbn [rstrip]. now rewrite E. Qed.

(** What [re.sub] makes of a text without blanks at its end: its words with
    one space between them, when the text starts inside a run of blanks or
    with a character [c] that is not a blank. *)
Lemma sub_ws_runs_rstrip s :
  sub_ws_runs true (rstrip s) = join " " (words s)
  /\ forall c, isspace c = false ->
               String c (sub_ws_runs false (rstrip s))
               = join " " (words (String c s)).
Proof.
  induction s as [|c' s [A C]].
  - split; [reflexivity|]. intros c E. cbn [words]. now rewrite E.
  - destruct (isspace c') eqn:E'.
    + rewrite (rstrip_cons_blank c' s E'), (words_blank c' s E').
      destruct (rstrip s) as [|c0 r] eqn:R.
      * cbn [sub_ws_runs] in A. symmetry in A.
        pose proof (join_words_nonempty s A) as W.
        split; [now rewrite W|]. intros c E. cbn [words].
        now rewrite E, E', W.
      * rewrite <- R in *.
        destruct (words s) as [|w l] eqn:W.
        { exfalso. cbn [join] in A.
          pose proof (rstrip_ends_false s) as F.
          rewrite (sub_ws_runs_empty (rstrip s) A) in F; [discriminate|].
          rewrite R. discriminate. }
        split.
        -- rewrite sub_ws_runs_cons, E'. exact A.
        -- intros c E. rewrite sub_ws_runs_cons, E', A.
           cbn [words]. rewrite E, E', W. destruct l; reflexivity.
    + rewrite (rstrip_cons_nonblank c' s E'). split.
      * rewrite sub_ws_runs_cons, E'. now apply C.
      * intros c E. rewrite sub_ws_runs_cons, E', (C c' E').
        destruct (words_nonblank c' s E') as (w & l & W).
        cbn [words]. rewrite E. cbn [words] in W. rewrite W, E'.
        now rewrite join_cons.
Qed.

(** X24. [clean_whitespace] keeps the words of a text and puts one space
    between them: each text cell becomes [' '.join(text.split())], where the
    text of a missing cell is nan. *)
Theorem clean_whitespace_joins_words :
  (forall c, clean_text c = Val (join " " (words (astype_str c))))
  /\ (forall self,
        df (clean_whitespace self)
        = map (fun r =>
                 mkRow (order_id r)
                   (Val (join " " (words (astype_str (customer_name r)))))
                   (Val (join " " (words (astype_str (email r)))))
                   (phone r) (order_date r)
                   (Val (join " " (words (astype_str (product_name r)))))
                   (Val (join " " (words (astype_str (category r)))))
                   (quantity r) (price r)
                   (Val (join " " (words (astype_str (status r))))))
            (df self)).
Proof.
  assert (K : forall c, clean_text c = Val (join " " (words (astype_str c)))).
  { intros c. unfold clean_text. f_equal.
    rewrite (tidy_no_tab _ (tidy_sub_ws_runs_strip _)).
    set (s := astype_str c). unfold strip. rewrite <- (words_lstrip s).
    pose proof (lstrip_head s) as H.
    destruct (lstrip s) as [|a t] eqn:L; [reflexivity|].
    destruct (sub_ws_runs_rstrip t) as [_ C].
    rewrite <- (C a H), (rstrip_cons_nonblank a t H), sub_ws_runs_cons, H.
    reflexivity. }
  split; [exact K|]. intros self.
  destruct (clean_whitespace_effect self) as (-> & _).
  apply map_ext. intros r. unfold clean_whitespace_row. now rewrite !K.
Qed.
(** ** Repeated runs *)

Lemma twice_cleaned_category c :
  ~ In (categorize (clean_text (categorize (clean_text c)))) title_case_keys.
Proof.
  destruct (categorize_clean_text c) as (v & -> & T & Tv).
  rewrite (clean_text_fixed v T). unfold categorize, series_replace, str_method.
  destruct (lookup category_mapping v) as [w|] eqn:L.
  - apply lookup_Some in L.
    destruct (category_values_canonical _ _ L) as [C ->].
    simpl in C. destruct C as [<-|[<-|[<-|[<-|[]]]]];
      intros [H|[H|[H|[H|[]]]]]; discriminate H.
  - rewrite Tv. intros [[= <-]|[[= <-]|[[= <-]|[[= <-]|[]]]]];
      vm_compute in L; discriminate L.
Qed.

Lemma twice_cleaned_settled now1 now2 now3 r :
  datetime_gtb now2 now3 = false ->
  settled now3 (cleaned_row now2 (cleaned_row now1 r)).
Proof.
  intros G. apply cleaned_row_settled; [assumption| |].
  - unfold cleaned_row. cbn [category]. apply twice_cleaned_category.
  - unfold cleaned_row. cbn [price]. apply price_of_twice_not_zero.
Qed.


(** ** Title case *)

Lemma lower_upper_char c : lower_char (upper_char c) = lower_char c.
Proof. by_cases_on_char c. Qed.

Lemma lower_title_from s : forall b, lower (title_from b s) = lower s.
Proof.
  induction s as [|c s IH]; intros b; [reflexivity|].
  cbn [title_from]. unfold lower in *. cbn [smap]. rewrite IH.
  destruct b; [now rewrite lower_char_idem | now rewrite lower_upper_char].
Qed.

Lemma length_title_from s : forall b,
  String.length (title_from b s) = String.length s.
Proof.
  induction s as [|c s IH]; intros b; [reflexivity|].
  cbn [title_from String.length]. now rewrite IH.
Qed.


